(** * ProxyHawk WebSocket client: request correlation and update dispatch

    A shallow embedding of [clients/python/proxyhawk_client.py]: the
    correlation table [_message_handlers], the subscription table
    [_subscriptions], the routing of inbound messages, the five request
    operations of [ProxyHawkClient], the parsing of results, and the
    methods that manage the connection.

    The client object, the [asyncio.Future] objects it hands out and the
    transport it talks to are one explicit state.  A method is a computation
    over that state which returns, raises, or is left suspended at an
    [await].

    What goes on around a coroutine while it is suspended is read from a
    script carried by the state.  Every [await] takes the next turn of the
    script: the frames the receive loop handles before the coroutine runs
    again, the clock advancing, the connection closing.  A wait on a future
    that is resumed with the future still pending is a wait whose timeout
    has expired.  When the script has no turn left the coroutine stays
    suspended, and the state is the state at that [await].

    Callbacks supplied by the caller work on their arguments alone: they
    return or raise, and do not reach back into the client.  A run is the
    run of one coroutine: a request operation, or one of [connect],
    [disconnect] and the heartbeat, which work on the client together with
    its transport, its tasks and its observers.  Coroutines that run side
    by side, the heartbeat next to a request, two requests at once, are not
    part of a run. *)

From Stdlib Require Import ZArith Lia Ascii.
From stdpp Require Import base option list strings gmap pretty.

Local Open Scope string_scope.
Local Open Scope list_scope.
Set Warnings "-register-all".

(** ** Decoded JSON values

    What [json.loads] produces.  Objects keep their insertion order, as Python
    dicts do, and hold a key once; numbers are kept as integers and strings
    as sequences of one-byte characters. *)

Inductive json : Type :=
| JNull
| JBool (b : bool)
| JNum (n : Z)
| JStr (s : string)
| JArr (items : list json)
| JObj (fields : list (string * json)).

(** ** Exceptions and log records *)

(** A piece of an f-string: literal text, a formatted value, a formatted
    count. *)
Inductive part : Type :=
| Txt (s : string)
| Val (v : json)
| Num (n : nat).

Inductive exn : Type :=
| RuntimeError (msg : list part)
| TimeoutError (msg : list part)
| AsyncTimeoutError            (* asyncio.TimeoutError, raised by wait_for *)
| CancelledError               (* asyncio.CancelledError: not an Exception *)
| ConnectionClosed
| KeyError (key : json)
| TypeError
| AttributeError
| JSONDecodeError
| InvalidStateError
| UserError (tag : string).    (* anything else a caller's callback raises *)

(** [isinstance(e, Exception)]: what an [except Exception] clause catches. *)
Definition is_Exception (e : exn) : bool :=
  match e with
  | CancelledError => false
  | _ => true
  end.

Inductive level : Type := DEBUG | INFO | WARNING | ERROR.

(** One call on [self.logger]: the level, the message, and the exception
    formatted into the message when there is one. *)
Record LogRecord : Type := mkLog {
  lvl : level;
  text : list part;
  exc : option exn
}.

(** ** Python's view of JSON values *)

Module Py.

(** [bool(v)] *)
Definition truthy (v : json) : bool :=
  match v with
  | JNull => false
  | JBool b => b
  | JNum n => negb (n =? 0)%Z
  | JStr s => negb (String.eqb s "")
  | JArr [] | JObj [] => false
  | JArr (_ :: _) | JObj (_ :: _) => true
  end.

(** [v == s] for a string literal [s] *)
Definition eq_str (v : json) (s : string) : bool :=
  match v with
  | JStr t => String.eqb t s
  | _ => false
  end.

(** [isinstance(v, str)] is the [JStr] case of a match below. *)

Fixpoint field (k : string) (fields : list (string * json)) : option json :=
  match fields with
  | [] => None
  | (k', v) :: rest => if String.eqb k k' then Some v else field k rest
  end.

(** [d.get(k, dflt)]; anything but a dict has no [get]. *)
Definition get (d : json) (k : string) (dflt : json) : exn + json :=
  match d with
  | JObj fields => inr (default dflt (field k fields))
  | _ => inl AttributeError
  end.

(** [d[k]] for a string [k]: a missing key is a [KeyError]; lists and
    strings take no string index, the rest is not subscriptable. *)
Definition item (d : json) (k : string) : exn + json :=
  match d with
  | JObj fields =>
      match field k fields with
      | Some v => inr v
      | None => inl (KeyError (JStr k))
      end
  | _ => inl TypeError
  end.

Fixpoint chars (s : string) : list json :=
  match s with
  | EmptyString => []
  | String c rest => JStr (String c EmptyString) :: chars rest
  end.

(** What a [for] loop over [v] visits: the items of a list, the keys of a
    dict, the characters of a string. *)
Definition iter (v : json) : exn + list json :=
  match v with
  | JArr items => inr items
  | JObj fields => inr (map (fun kv => JStr (fst kv)) fields)
  | JStr s => inr (chars s)
  | _ => inl TypeError
  end.

(** [d.items()] *)
Definition items (d : json) : exn + list (string * json) :=
  match d with
  | JObj fields => inr fields
  | _ => inl AttributeError
  end.

(** [k in table] for a dict with string keys: lists and dicts are
    unhashable, any other non-string is simply not a key. *)
Definition contains {V} (k : json) (table : gmap string V) : exn + bool :=
  match k with
  | JStr s => inr (match table !! s with Some _ => true | None => false end)
  | JArr _ | JObj _ => inl TypeError
  | _ => inr false
  end.

(** [table[k]] once [k in table] holds. *)
Definition at_key {V} (k : json) (table : gmap string V) : exn + V :=
  match k with
  | JStr s =>
      match table !! s with
      | Some v => inr v
      | None => inl (KeyError k)
      end
  | JArr _ | JObj _ => inl TypeError
  | _ => inl (KeyError k)
  end.

(** A dataclass whose fields are all required, built from the keyword
    arguments unpacked from [v]: [v] must be a mapping that has every field
    and nothing else.  The values come back in
    field order. *)
Definition kwargs (names : list string) (v : json) : exn + list json :=
  match v with
  | JObj fields =>
      if forallb (fun kv => bool_decide (fst kv ∈ names)) fields
      then match mapM (fun n => field n fields) names with
           | Some vs => inr vs
           | None => inl TypeError
           end
      else inl TypeError
  | _ => inl TypeError
  end.

End Py.

(** ** The client and the objects around it *)

Inductive TestMode : Type := BASIC | DETAILED | COMPREHENSIVE.

Definition TestMode_value (m : TestMode) : string :=
  match m with
  | BASIC => "basic"
  | DETAILED => "detailed"
  | COMPREHENSIVE => "comprehensive"
  end.

(** [timeout], [reconnect_delay] and [max_retries] hold durations and a count
    that no method below reads as data: when a wait expires is decided by the
    script. *)
Record ProxyHawkConfig : Type := mkConfig {
  url : string;
  regions : list string;
  test_mode : TestMode
}.

(** A caller-supplied callback: a name to recognise it by in the trace of
    invocations, and what calling it with [(domain, data)] does: return
    ([None]) or raise. *)
Record Callable : Type := mkCallable {
  cb_name : nat;
  cb_body : json -> json -> option exn
}.

(** An [asyncio.Future] is a reference into the heap of futures. *)
Definition Future : Type := nat.

Inductive FutureState : Type :=
| Pending
| Finished (result : json)
| Cancelled.

(** One thing the environment does while a coroutine is suspended. *)
Inductive Event : Type :=
| Tick (ms : Z)          (* the wall clock advances *)
| Frame (data : json)    (* a frame arrives, [json.loads] gives [data] *)
| Garbled                (* a frame arrives, [json.loads] rejects it *)
| Closed.                (* the connection is lost: reading it raises [ConnectionClosed] *)

Record World : Type := mkWorld {
  (* attributes of the ProxyHawkClient object *)
  config : ProxyHawkConfig;
  connected : bool;
  _message_handlers : gmap string Future;
  _subscriptions : gmap string (list Callable);
  _message_counter : Z;
  (* [None]: the attribute was never set; [Some None]: it was set to None *)
  _global_update_callback : option (option Callable);
  (* the objects the client refers to *)
  futures : list FutureState;
  ws_open : bool;                  (* the transport [self.ws] is open *)
  ws_sent : list json;             (* requests handed to [ws.send], oldest first *)
  receiving : bool;                (* the [_message_receiver] task is looping *)
  (* the surroundings *)
  clock : Z;                       (* [int(time.time() * 1000)] *)
  script : list (list Event);      (* one turn per [await] still to come *)
  logged : list LogRecord;         (* calls on [self.logger], oldest first *)
  called : list (nat * json * json) (* callback invocations, oldest first *)
}.

Definition set_connected (b : bool) (w : World) : World :=
  mkWorld (config w) b (_message_handlers w) (_subscriptions w) (_message_counter w)
    (_global_update_callback w) (futures w) (ws_open w) (ws_sent w) (receiving w)
    (clock w) (script w) (logged w) (called w).

Definition set_message_handlers (h : gmap string Future) (w : World) : World :=
  mkWorld (config w) (connected w) h (_subscriptions w) (_message_counter w)
    (_global_update_callback w) (futures w) (ws_open w) (ws_sent w) (receiving w)
    (clock w) (script w) (logged w) (called w).

Definition set_subscriptions (s : gmap string (list Callable)) (w : World) : World :=
  mkWorld (config w) (connected w) (_message_handlers w) s (_message_counter w)
    (_global_update_callback w) (futures w) (ws_open w) (ws_sent w) (receiving w)
    (clock w) (script w) (logged w) (called w).

Definition set_message_counter (c : Z) (w : World) : World :=
  mkWorld (config w) (connected w) (_message_handlers w) (_subscriptions w) c
    (_global_update_callback w) (futures w) (ws_open w) (ws_sent w) (receiving w)
    (clock w) (script w) (logged w) (called w).

Definition set_global_update_callback (g : option (option Callable)) (w : World) : World :=
  mkWorld (config w) (connected w) (_message_handlers w) (_subscriptions w)
    (_message_counter w) g (futures w) (ws_open w) (ws_sent w) (receiving w)
    (clock w) (script w) (logged w) (called w).

Definition set_futures (f : list FutureState) (w : World) : World :=
  mkWorld (config w) (connected w) (_message_handlers w) (_subscriptions w)
    (_message_counter w) (_global_update_callback w) f (ws_open w) (ws_sent w)
    (receiving w) (clock w) (script w) (logged w) (called w).

Definition set_ws_open (b : bool) (w : World) : World :=
  mkWorld (config w) (connected w) (_message_handlers w) (_subscriptions w)
    (_message_counter w) (_global_update_callback w) (futures w) b (ws_sent w)
    (receiving w) (clock w) (script w) (logged w) (called w).

Definition set_ws_sent (s : list json) (w : World) : World :=
  mkWorld (config w) (connected w) (_message_handlers w) (_subscriptions w)
    (_message_counter w) (_global_update_callback w) (futures w) (ws_open w) s
    (receiving w) (clock w) (script w) (logged w) (called w).

Definition set_receiving (b : bool) (w : World) : World :=
  mkWorld (config w) (connected w) (_message_handlers w) (_subscriptions w)
    (_message_counter w) (_global_update_callback w) (futures w) (ws_open w)
    (ws_sent w) b (clock w) (script w) (logged w) (called w).

Definition set_clock (t : Z) (w : World) : World :=
  mkWorld (config w) (connected w) (_message_handlers w) (_subscriptions w)
    (_message_counter w) (_global_update_callback w) (futures w) (ws_open w)
    (ws_sent w) (receiving w) t (script w) (logged w) (called w).

Definition set_script (s : list (list Event)) (w : World) : World :=
  mkWorld (config w) (connected w) (_message_handlers w) (_subscriptions w)
    (_message_counter w) (_global_update_callback w) (futures w) (ws_open w)
    (ws_sent w) (receiving w) (clock w) s (logged w) (called w).

Definition set_logged (l : list LogRecord) (w : World) : World :=
  mkWorld (config w) (connected w) (_message_handlers w) (_subscriptions w)
    (_message_counter w) (_global_update_callback w) (futures w) (ws_open w)
    (ws_sent w) (receiving w) (clock w) (script w) l (called w).

Definition set_called (c : list (nat * json * json)) (w : World) : World :=
  mkWorld (config w) (connected w) (_message_handlers w) (_subscriptions w)
    (_message_counter w) (_global_update_callback w) (futures w) (ws_open w)
    (ws_sent w) (receiving w) (clock w) (script w) (logged w) c.

(** ** Computations: state, exceptions, suspension *)

Inductive Outcome (A : Type) : Type :=
| Returned (a : A)
| Raised (e : exn)
| Suspended.            (* still at an [await] when the script ran out *)

Arguments Returned {A} a.
Arguments Raised {A} e.
Arguments Suspended {A}.

Definition M (A : Type) : Type := World -> World * Outcome A.

Definition ret {A} (a : A) : M A := fun w => (w, Returned a).

Definition raise {A} (e : exn) : M A := fun w => (w, Raised e).

Definition bind {A B} (k : A -> M B) (m : M A) : M B :=
  fun w =>
    match m w with
    | (w1, Returned a) => k a w1
    | (w1, Raised e) => (w1, Raised e)
    | (w1, Suspended) => (w1, Suspended)
    end.

#[global] Instance M_ret : MRet M := @ret.
#[global] Instance M_bind : MBind M := @bind.

Definition gets {A} (f : World -> A) : M A := fun w => (w, Returned (f w)).

Definition modify (f : World -> World) : M unit := fun w => (f w, Returned tt).

(** A pure Python expression that may raise. *)
Definition lift {A} (r : exn + A) : M A :=
  match r with
  | inl e => raise e
  | inr a => ret a
  end.

(** [try: body / except <the classes [handler] answers for>: handler] *)
Definition try_except {A} (body : M A) (handler : exn -> option (M A)) : M A :=
  fun w =>
    match body w with
    | (w1, Raised e) =>
        match handler e with
        | Some h => h w1
        | None => (w1, Raised e)
        end
    | r => r
    end.

(** [try: body / finally: cleanup].  A coroutine suspended inside [body] has
    not reached its [finally]. *)
Definition try_finally {A} (body : M A) (cleanup : M unit) : M A :=
  fun w =>
    match body w with
    | (w1, Suspended) => (w1, Suspended)
    | (w1, r) =>
        match cleanup w1 with
        | (w2, Returned _) => (w2, r)
        | (w2, Raised e) => (w2, Raised e)
        | (w2, Suspended) => (w2, Suspended)
        end
    end.

Fixpoint for_each {A} (l : list A) (body : A -> M unit) : M unit :=
  match l with
  | [] => ret tt
  | x :: rest => body x;; for_each rest body
  end.

Definition log (l : level) (msg : list part) (e : option exn) : M unit :=
  modify (fun w => set_logged (logged w ++ [mkLog l msg e]) w).

(** ** Futures *)

(** [asyncio.Future()] *)
Definition new_future : M Future :=
  fun w => (set_futures (futures w ++ [Pending]) w, Returned (length (futures w))).

(** [future.done()]: a cancelled future is done too. *)
Definition done (future : Future) : M bool :=
  gets (fun w => match futures w !! future with
                 | Some Pending => false
                 | _ => true
                 end).

(** [future.set_result(v)] *)
Definition set_result (future : Future) (v : json) : M unit :=
  d ← done future;
  if d : bool then raise InvalidStateError
  else modify (fun w => set_futures (<[future := Finished v]> (futures w)) w).

(** [future.cancel()] *)
Definition cancel (future : Future) : M unit :=
  d ← done future;
  if d : bool then ret tt
  else modify (fun w => set_futures (<[future := Cancelled]> (futures w)) w).

(** ** Dispatch of inbound messages *)

(** Calling a callback: the call is recorded, then it returns or raises. *)
Definition call (callback : Callable) (domain data : json) : M unit :=
  modify (fun w => set_called (called w ++ [(cb_name callback, domain, data)]) w);;
  match cb_body callback domain data with
  | None => ret tt
  | Some e => raise e
  end.

(** [except Exception as e: handler] *)
Definition except_Exception {A} (handler : exn -> M A) : exn -> option (M A) :=
  fun e => if is_Exception e then Some (handler e) else None.

Definition _handle_domain_update (domain data : json) : M unit :=
  (* Call domain-specific callbacks *)
  subscribed ← (s ← gets _subscriptions; lift (Py.contains domain s));
  (if subscribed : bool then
     callbacks ← (s ← gets _subscriptions; lift (Py.at_key domain s));
     for_each callbacks (fun callback =>
       try_except (call callback domain data)
         (except_Exception (fun e =>
            log ERROR [Txt "Error in domain callback for "; Val domain; Txt ": "] (Some e))))
   else ret tt);;
  (* Call global callback if set *)
  g ← gets _global_update_callback;
  match g with
  | Some (Some callback) =>
      try_except (call callback domain data)
        (except_Exception (fun e =>
           log ERROR [Txt "Error in global update callback: "] (Some e)))
  | _ => ret tt
  end.

Definition _handle_message (message : json) : M unit :=
  message_type ← lift (Py.get message "type" (JStr ""));
  message_id ← lift (Py.get message "id" (JStr ""));
  (* Route to specific handlers *)
  routed ← (if Py.truthy message_id
            then h ← gets _message_handlers; lift (Py.contains message_id h)
            else ret false);
  if routed : bool then
    future ← (h ← gets _message_handlers; lift (Py.at_key message_id h));
    d ← done future;
    if d : bool then ret tt else set_result future message
  (* Handle special message types *)
  else if Py.eq_str message_type "welcome" then
    log INFO [Txt "Received welcome from ProxyHawk"] None
  else if Py.eq_str message_type "domain_update" then
    domain ← lift (Py.get message "domain" (JStr ""));
    data ← lift (Py.get message "data" (JObj []));
    _handle_domain_update domain data
  else if Py.eq_str message_type "error" then
    e ← lift (Py.get message "error" (JStr "Unknown error"));
    log ERROR [Txt "ProxyHawk error: "; Val e] None
  else
    log DEBUG [Txt "Unhandled message type: "; Val message_type] None.

(** One round of the [async for] loop of [_message_receiver], or its end.
    An exception that is no [Exception] leaves through every handler and ends
    the task with the client still marked connected.  Not represented: the
    [on_error] observer, transport failures other than a lost connection,
    and the orderly close of the connection, on which the iteration ends
    without raising, nothing is logged and the client stays marked
    connected. *)
Definition _message_receiver (ev : Event) (w : World) : World :=
  if receiving w then
    match ev with
    | Frame data =>
        match _handle_message data w with
        | (w1, Raised e) =>
            if is_Exception e
            then fst (log ERROR [Txt "Error handling message: "] (Some e) w1)
            else set_receiving false w1
        | (w1, _) => w1
        end
    | Garbled =>
        fst (log ERROR [Txt "Failed to decode message: "] (Some JSONDecodeError) w)
    | Closed =>
        set_receiving false
          (set_connected false
             (fst (log INFO [Txt "WebSocket connection closed"] None w)))
    | Tick _ => w
    end
  else w.

(** ** The event loop seen from a suspended coroutine *)

Definition happen (w : World) (ev : Event) : World :=
  match ev with
  | Tick ms => set_clock (clock w + ms) w
  | Closed => _message_receiver Closed (set_ws_open false w)
  | _ => _message_receiver ev w
  end.

(** An [await] that yields to the loop: the next turn of the script happens,
    then the coroutine goes on.  With no turn left it stays suspended. *)
Definition yield : M unit :=
  fun w =>
    match script w with
    | [] => (w, Suspended)
    | turn :: rest => (foldl happen (set_script rest w) turn, Returned tt)
    end.

(** [await self.ws.send(json.dumps(request))]: a closed connection refuses
    the frame; an open one takes it and the coroutine yields while the
    transport drains. *)
Definition ws_send (request : json) : M unit :=
  open ← gets ws_open;
  if open : bool then
    modify (fun w => set_ws_sent (ws_sent w ++ [request]) w);;
    yield
  else raise ConnectionClosed.

(** [await asyncio.wait_for(future, timeout)]: the coroutine is resumed with
    the result of the future, or, the future still pending, because the
    timeout expired: the future is cancelled and [asyncio.TimeoutError]
    raised.  No reference dangles in a run; the last case is there for the
    function to be total. *)
Definition wait_for (future : Future) : M json :=
  yield;;
  st ← gets (fun w => futures w !! future);
  match st with
  | Some (Finished result) => ret result
  | Some Pending => cancel future;; raise AsyncTimeoutError
  | Some Cancelled | None => raise CancelledError
  end.

Definition _generate_message_id : M string :=
  modify (fun w => set_message_counter (_message_counter w + 1) w);;
  now ← gets clock;
  counter ← gets _message_counter;
  ret ("python_client_" +:+ pretty now +:+ "_" +:+ pretty counter).

Definition on_domain_update (callback : option Callable) : M unit :=
  modify (set_global_update_callback (Some callback)).

(** ** Result records *)

Record DNSResult : Type := mkDNSResult {
  query_time : json;
  ip : json;
  ttl : json;
  record_type : json
}.

Record HTTPResult : Type := mkHTTPResult {
  request_time : json;
  status_code : json;
  http_response_time_ms : json;
  headers : json;
  server_header : json;
  content_hash : json;
  content_size : json;
  remote_addr : json
}.

Record RegionResult : Type := mkRegionResult {
  region : json;
  proxy_used : json;
  dns_results : list DNSResult;
  http_results : list HTTPResult;
  response_time_ms : json;
  success : json;
  error : json
}.

Record TestSummary : Type := mkTestSummary {
  unique_ips : json;
  unique_servers : json;
  response_time_diff_ms : json;
  content_variations : json;
  geographic_spread : json
}.

Record GeoTestResult : Type := mkGeoTestResult {
  domain : json;
  tested_at : json;
  has_geographic_differences : json;
  is_round_robin : json;
  confidence : json;
  region_results : list (string * RegionResult);
  summary : TestSummary
}.

(** Pure Python expressions that may raise are sums; these are their bind
    and their loop. *)
Definition and_then {A B} (r : exn + A) (k : A -> exn + B) : exn + B :=
  match r with
  | inl e => inl e
  | inr a => k a
  end.

Notation "x <~ r ; k" := (and_then r (fun x => k))
  (at level 20, r at level 100, k at level 200, only parsing).

Fixpoint each {A B} (f : A -> exn + B) (l : list A) : exn + list B :=
  match l with
  | [] => inr []
  | x :: rest => y <~ f x; ys <~ each f rest; inr (y :: ys)
  end.

Definition make_DNSResult (dns : json) : exn + DNSResult :=
  vs <~ Py.kwargs ["query_time"; "ip"; "ttl"; "record_type"] dns;
  match vs with
  | [a; b; c; d] => inr (mkDNSResult a b c d)
  | _ => inl TypeError
  end.

Definition make_HTTPResult (http : json) : exn + HTTPResult :=
  vs <~ Py.kwargs ["request_time"; "status_code"; "response_time_ms"; "headers";
                   "server_header"; "content_hash"; "content_size"; "remote_addr"] http;
  match vs with
  | [a; b; c; d; e; f; g; h] => inr (mkHTTPResult a b c d e f g h)
  | _ => inl TypeError
  end.

(** [results[key] = value] on a dict kept in insertion order. *)
Fixpoint dict_set {V} (key : string) (value : V) (d : list (string * V)) : list (string * V) :=
  match d with
  | [] => [(key, value)]
  | (k, v) :: rest =>
      if String.eqb key k then (k, value) :: rest else (k, v) :: dict_set key value rest
  end.

Definition parse_region (region_data : json) : exn + RegionResult :=
  dns_json <~ Py.get region_data "dns_results" (JArr []);
  dns_items <~ Py.iter dns_json;
  dns_results <~ each make_DNSResult dns_items;
  http_json <~ Py.get region_data "http_results" (JArr []);
  http_items <~ Py.iter http_json;
  http_results <~ each make_HTTPResult http_items;
  region <~ Py.item region_data "region";
  proxy_used <~ Py.item region_data "proxy_used";
  response_time <~ Py.item region_data "response_time";
  success <~ Py.item region_data "success";
  error <~ Py.get region_data "error" (JStr "");
  inr (mkRegionResult region proxy_used dns_results http_results response_time success error).

Fixpoint parse_regions (entries : list (string * json))
    (region_results : list (string * RegionResult)) : exn + list (string * RegionResult) :=
  match entries with
  | [] => inr region_results
  | (region_name, region_data) :: rest =>
      r <~ parse_region region_data;
      parse_regions rest (dict_set region_name r region_results)
  end.

Definition _parse_geo_test_result (data : json) : exn + GeoTestResult :=
  (* Parse region results *)
  regions_json <~ Py.get data "region_results" (JObj []);
  entries <~ Py.items regions_json;
  region_results <~ parse_regions entries [];
  (* Parse summary *)
  summary_data <~ Py.get data "summary" (JObj []);
  unique_ips <~ Py.get summary_data "unique_ips" (JArr []);
  unique_servers <~ Py.get summary_data "unique_servers" (JArr []);
  response_time_diff <~ Py.get summary_data "response_time_diff" (JNum 0);
  content_variations <~ Py.get summary_data "content_variations" (JObj []);
  geographic_spread <~ Py.get summary_data "geographic_spread" (JBool false);
  let summary := mkTestSummary unique_ips unique_servers response_time_diff
                   content_variations geographic_spread in
  domain <~ Py.item data "domain";
  tested_at <~ Py.item data "tested_at";
  has_geographic_differences <~ Py.item data "has_geographic_differences";
  is_round_robin <~ Py.item data "is_round_robin";
  confidence <~ Py.item data "confidence";
  inr (mkGeoTestResult domain tested_at has_geographic_differences is_round_robin
         confidence region_results summary).

(** ** Request operations *)

Definition not_connected {A} : M A :=
  raise (RuntimeError [Txt "Not connected to ProxyHawk"]).

(** [self._message_handlers[message_id] = future] *)
Definition register (message_id : string) (future : Future) : M unit :=
  modify (fun w => set_message_handlers (<[message_id := future]> (_message_handlers w)) w).

(** [self._message_handlers.pop(message_id, None)] *)
Definition release (message_id : string) : M unit :=
  modify (fun w => set_message_handlers (delete message_id (_message_handlers w)) w).

(** [except asyncio.TimeoutError: handler] *)
Definition except_TimeoutError {A} (handler : M A) : exn -> option (M A) :=
  fun e => match e with
           | AsyncTimeoutError => Some handler
           | _ => None
           end.

(** [regions or self.config.regions] *)
Definition regions_or_default (given : option (list string)) : M (list string) :=
  match given with
  | Some (r :: rs) => ret (r :: rs)
  | _ => gets (fun w => regions (config w))
  end.

Definition request_data (key : string) (value : json) (test_regions : list string) : M json :=
  mode ← gets (fun w => TestMode_value (test_mode (config w)));
  ret (JObj [(key, value); ("regions", JArr (map JStr test_regions)); ("mode", JStr mode)]).

(** The [timestamp] of a request.  The source sends [time.time()], a float in
    seconds read from the clock a second time, after the reading that went
    into the id; JSON numbers are integers here, and the reading in
    milliseconds stands for it. *)
Definition timestamp : M json := now ← gets clock; ret (JNum now).

Definition subscribe (domain : string) (callback : option Callable) : M unit :=
  c ← gets connected;
  if negb c then not_connected else
  message_id ← _generate_message_id;
  ts ← timestamp;
  let request := JObj [("type", JStr "subscribe"); ("id", JStr message_id);
                       ("domain", JStr domain); ("timestamp", ts)] in
  (* Add callback to subscriptions *)
  match callback with
  | Some cb =>
      modify (fun w =>
        match _subscriptions w !! domain with
        | None => set_subscriptions (<[domain := []]> (_subscriptions w)) w
        | Some _ => w
        end);;
      modify (fun w =>
        set_subscriptions (alter (fun l => l ++ [cb]) domain (_subscriptions w)) w)
  | None => ret tt
  end;;
  (* Set up response handler *)
  future ← new_future;
  register message_id future;;
  try_finally
    (ws_send request;;
     response ← wait_for future;
     err ← lift (Py.get response "error" JNull);
     if Py.truthy err then
       e ← lift (Py.item response "error");
       raise (RuntimeError [Txt "Subscription error: "; Val e])
     else
       log INFO [Txt "Subscribed to updates for domain: "; Val (JStr domain)] None)
    (release message_id).

Definition unsubscribe (domain : string) : M unit :=
  c ← gets connected;
  if negb c then ret tt else
  message_id ← _generate_message_id;
  ts ← timestamp;
  let request := JObj [("type", JStr "unsubscribe"); ("id", JStr message_id);
                       ("domain", JStr domain); ("timestamp", ts)] in
  future ← new_future;
  register message_id future;;
  try_finally
    (try_except
       (ws_send request;;
        wait_for future;;
        (* Remove local subscriptions *)
        modify (fun w => set_subscriptions (delete domain (_subscriptions w)) w);;
        log INFO [Txt "Unsubscribed from domain: "; Val (JStr domain)] None)
       (except_TimeoutError
          (log WARNING [Txt "Unsubscribe timeout for domain: "; Val (JStr domain)] None)))
    (release message_id).

Section Decoding.

(** [json.loads] on the text of a payload; [None] when it raises. *)
Variable json_loads : string -> option json.

(** [json.loads(response["data"]) if isinstance(response["data"], str)
     else response["data"]] *)
Definition payload (response : json) : exn + json :=
  data <~ Py.item response "data";
  match data with
  | JStr s =>
      match json_loads s with
      | Some v => inr v
      | None => inl JSONDecodeError
      end
  | _ => inr data
  end.

Definition test_domain (domain : string) (regions : option (list string)) : M GeoTestResult :=
  c ← gets connected;
  if negb c then not_connected else
  message_id ← _generate_message_id;
  test_regions ← regions_or_default regions;
  data ← request_data "domain" (JStr domain) test_regions;
  ts ← timestamp;
  let request := JObj [("type", JStr "test"); ("id", JStr message_id);
                       ("domain", JStr domain); ("data", data); ("timestamp", ts)] in
  (* Set up response handler *)
  future ← new_future;
  register message_id future;;
  try_finally
    (try_except
       ((* Send request *)
        ws_send request;;
        log DEBUG [Txt "Sent test request for domain: "; Val (JStr domain)] None;;
        (* Wait for response *)
        response ← wait_for future;
        err ← lift (Py.get response "error" JNull);
        if Py.truthy err then
          e ← lift (Py.item response "error");
          raise (RuntimeError [Txt "ProxyHawk error: "; Val e])
        else
          (* Parse result *)
          result_data ← lift (payload response);
          lift (_parse_geo_test_result result_data))
       (except_TimeoutError
          (raise (TimeoutError [Txt "Test timeout for domain: "; Val (JStr domain)]))))
    (release message_id).

(** The [while] loop of [batch_test].  Every round awaits, so the loop makes
    at most one round per turn of the script; [rounds] only has to exceed
    the turns left.  The handler of the enclosing [try] reads [results] as
    the loop left them: it is attached here to the await, the one place that
    raises [asyncio.TimeoutError]. *)
Fixpoint collect (rounds : nat) (domains : list string) (message_id : string)
    (future : Future) (results : list GeoTestResult) : M (list GeoTestResult) :=
  if (length results <? length domains)%nat then
    match rounds with
    | O => fun w => (w, Suspended)
    | S rounds =>
        response ← try_except (wait_for future)
                     (except_TimeoutError
                        (raise (TimeoutError [Txt "Batch test timeout after receiving ";
                                              Num (length results); Txt "/";
                                              Num (length domains); Txt " results"])));
        err ← lift (Py.get response "error" JNull);
        if Py.truthy err then
          e ← lift (Py.item response "error");
          log ERROR [Txt "Batch test error: "; Val e] None;;
          ret results
        else
          ty ← lift (Py.item response "type");
          if Py.eq_str ty "batch_result" then
            (* Final batch results *)
            batch_data ← lift (payload response);
            items ← lift (Py.iter batch_data);
            parsed ← lift (each _parse_geo_test_result items);
            ret (results ++ parsed)
          else if Py.eq_str ty "batch_partial" then
            (* Partial results *)
            partial_data ← lift (payload response);
            listed ← lift (Py.get partial_data "results" (JArr []));
            items ← lift (Py.iter listed);
            parsed ← lift (each _parse_geo_test_result items);
            let results := results ++ parsed in
            (* Reset future for next partial result *)
            if (length results <? length domains)%nat then
              future ← new_future;
              register message_id future;;
              collect rounds domains message_id future results
            else collect rounds domains message_id future results
          else collect rounds domains message_id future results
    end
  else ret results.

Definition batch_test (domains : list string) (regions : option (list string))
    : M (list GeoTestResult) :=
  c ← gets connected;
  if negb c then not_connected else
  match domains with
  | [] => ret []
  | _ :: _ =>
      message_id ← _generate_message_id;
      test_regions ← regions_or_default regions;
      data ← request_data "domains" (JArr (map JStr domains)) test_regions;
      ts ← timestamp;
      let request := JObj [("type", JStr "batch_test"); ("id", JStr message_id);
                           ("data", data); ("timestamp", ts)] in
      (* Set up response handler *)
      future ← new_future;
      register message_id future;;
      try_finally
        ((* Send request *)
         ws_send request;;
         log INFO [Txt "Sent batch test request for "; Num (length domains);
                   Txt " domains"] None;;
         (* Collect results (may come in multiple messages) *)
         turns ← gets (fun w => length (script w));
         collect (S turns) domains message_id future [])
        (release message_id)
  end.

Definition get_regions : M json :=
  c ← gets connected;
  if negb c then not_connected else
  message_id ← _generate_message_id;
  ts ← timestamp;
  let request := JObj [("type", JStr "get_regions"); ("id", JStr message_id);
                       ("timestamp", ts)] in
  future ← new_future;
  register message_id future;;
  try_finally
    (ws_send request;;
     response ← wait_for future;
     lift (payload response))
    (release message_id).

End Decoding.

(** ** Connection management *)

(** [__post_init__] of [ProxyHawkConfig] puts the three default regions
    where none are given; an empty list is kept. *)
Definition __post_init__ (regions : option (list string)) : list string :=
  match regions with
  | None => ["us-west"; "us-east"; "eu-west"]
  | Some given => given
  end.

(** [ProxyHawkConfig(url, regions, test_mode)], each argument optional. *)
Definition ProxyHawkConfig_new (url : option string) (regions : option (list string))
    (test_mode : option TestMode) : ProxyHawkConfig :=
  mkConfig (default "ws://localhost:8888/ws" url) (__post_init__ regions)
    (default BASIC test_mode).

(** An [asyncio.Task] the client holds: running, or asked to cancel. *)
Inductive Task : Type := Running | Cancelling.

(** A call of one of the observers [on_connected], [on_disconnected],
    [on_error]. *)
Inductive Notification : Type :=
| NotifyConnected
| NotifyDisconnected
| NotifyError (e : exn).

(** The client with what it holds for the management of its connection.
    An observer is [None] or a callable, given by what a call of it does:
    return ([None]) or raise.  [dial] is what [websockets.connect] is going
    to do: give a connection ([None]) or raise. *)
Record Client : Type := mkClient {
  self : World;
  ws : bool;                               (* [self.ws] is a connection, not [None] *)
  _reconnect_task : option Task;
  _heartbeat_task : option Task;
  _stop_event : bool;                      (* [self._stop_event.is_set()] *)
  on_connected : option (option exn);
  on_disconnected : option (option exn);
  on_error : option (exn -> option exn);
  dial : option exn;
  notified : list Notification             (* calls of the observers, oldest first *)
}.

Definition set_self (w : World) (c : Client) : Client :=
  mkClient w (ws c) (_reconnect_task c) (_heartbeat_task c) (_stop_event c)
    (on_connected c) (on_disconnected c) (on_error c) (dial c) (notified c).

Definition set_ws (b : bool) (c : Client) : Client :=
  mkClient (self c) b (_reconnect_task c) (_heartbeat_task c) (_stop_event c)
    (on_connected c) (on_disconnected c) (on_error c) (dial c) (notified c).

Definition set_reconnect_task (t : option Task) (c : Client) : Client :=
  mkClient (self c) (ws c) t (_heartbeat_task c) (_stop_event c)
    (on_connected c) (on_disconnected c) (on_error c) (dial c) (notified c).

Definition set_heartbeat_task (t : option Task) (c : Client) : Client :=
  mkClient (self c) (ws c) (_reconnect_task c) t (_stop_event c)
    (on_connected c) (on_disconnected c) (on_error c) (dial c) (notified c).

Definition set_stop_event (b : bool) (c : Client) : Client :=
  mkClient (self c) (ws c) (_reconnect_task c) (_heartbeat_task c) b
    (on_connected c) (on_disconnected c) (on_error c) (dial c) (notified c).

Definition set_notified (l : list Notification) (c : Client) : Client :=
  mkClient (self c) (ws c) (_reconnect_task c) (_heartbeat_task c) (_stop_event c)
    (on_connected c) (on_disconnected c) (on_error c) (dial c) l.

(** [ProxyHawkClient(config)], in surroundings where the clock reads [now]
    and [turns] are to come.  The attribute [_global_update_callback] is not
    set; there is no transport yet and no task. *)
Definition __init__ (config : option ProxyHawkConfig) (now : Z)
    (turns : list (list Event)) : Client :=
  mkClient
    (mkWorld (default (ProxyHawkConfig_new None None None) config) false ∅ ∅ 0 None
       [] false [] false now turns [] [])
    false None None false None None None None [].

(** Computations of the methods that manage the connection. *)
Definition L (A : Type) : Type := Client -> Client * Outcome A.

Definition L_bind_ {A B} (k : A -> L B) (m : L A) : L B :=
  fun c =>
    match m c with
    | (c1, Returned a) => k a c1
    | (c1, Raised e) => (c1, Raised e)
    | (c1, Suspended) => (c1, Suspended)
    end.

#[global] Instance L_ret : MRet L := fun A a c => (c, Returned a).
#[global] Instance L_bind : MBind L := @L_bind_.

(** A computation of the client proper, run on [self]. *)
Definition within {A} (m : M A) : L A :=
  fun c => let (w, r) := m (self c) in (set_self w c, r).

Definition read {A} (f : Client -> A) : L A := fun c => (c, Returned (f c)).

Definition update (f : Client -> Client) : L unit := fun c => (f c, Returned tt).

Definition fail {A} (e : exn) : L A := fun c => (c, Raised e).

(** Still at an [await] when the script ran out. *)
Definition suspended {A} : L A := fun c => (c, Suspended).

(** [try: body / except Exception as e: handler] *)
Definition guarded {A} (body : L A) (handler : exn -> L A) : L A :=
  fun c =>
    match body c with
    | (c1, Raised e) => if is_Exception e then handler e c1 else (c1, Raised e)
    | r => r
    end.

(** A call of an observer that takes no argument, if one is set. *)
Definition observe (observer : option (option exn)) (n : Notification) : L unit :=
  match observer with
  | Some behaviour =>
      update (fun c => set_notified (notified c ++ [n]) c);;
      match behaviour with
      | Some e => fail e
      | None => mret tt
      end
  | None => mret tt
  end.

Definition _send_config : M unit :=
  rs ← gets (fun w => regions (config w));
  mode ← gets (fun w => TestMode_value (test_mode (config w)));
  ts ← timestamp;
  ws_send (JObj [("type", JStr "set_config");
                 ("data", JObj [("regions", JArr (map JStr rs)); ("test_mode", JStr mode)]);
                 ("timestamp", ts)]).

(** [connect].  Opening the connection takes a turn; the receive loop is a
    task of its own from then on, and handles what arrives in the turns
    that follow.  The heartbeat is started as a task and runs apart. *)
Definition connect : L bool :=
  guarded
    (address ← within (gets (fun w => url (config w)));
     within (log INFO [Txt "Connecting to ProxyHawk at "; Val (JStr address)] None);;
     (* self.ws = await websockets.connect(self.config.url) *)
     within yield;;
     d ← read dial;
     match d with
     | Some e => fail e
     | None => update (set_ws true);; within (modify (set_ws_open true))
     end;;
     within (modify (set_connected true));;
     (* Start message receiver *)
     within (modify (set_receiving true));;
     (* Send initial configuration *)
     within _send_config;;
     (* Start heartbeat *)
     update (set_heartbeat_task (Some Running));;
     oc ← read on_connected;
     observe oc NotifyConnected;;
     within (log INFO [Txt "Connected to ProxyHawk successfully"] None);;
     mret true)
    (fun e =>
       within (log ERROR [Txt "Failed to connect to ProxyHawk: "] (Some e));;
       within (modify (set_connected false));;
       oe ← read on_error;
       match oe with
       | Some observer =>
           update (fun c => set_notified (notified c ++ [NotifyError e]) c);;
           match observer e with
           | Some e' => fail e'
           | None => mret tt
           end
       | None => mret tt
       end;;
       mret false).

(** [task.cancel()] on the task an attribute holds, if it holds one. *)
Definition cancel_task (t : option Task) : option Task :=
  match t with
  | Some _ => Some Cancelling
  | None => None
  end.

Section Transport.
(** Whether the connection that [websockets.connect] gives has an attribute
    [closed].  The connections of the legacy implementation of websockets
    have it; those that [websockets.connect] gives from version 14 on have
    not, and reading it raises [AttributeError].  [setup.py] asks for
    websockets 10.0 or later, which admits both. *)
Variable has_closed : bool.

(** [disconnect].  Closing the transport takes a turn, after which the
    transport is closed. *)
Definition disconnect : L unit :=
  within (log INFO [Txt "Disconnecting from ProxyHawk"] None);;
  within (modify (set_connected false));;
  update (set_stop_event true);;
  (* Cancel tasks *)
  update (fun c => set_heartbeat_task (cancel_task (_heartbeat_task c)) c);;
  update (fun c => set_reconnect_task (cancel_task (_reconnect_task c)) c);;
  (* Close WebSocket: if self.ws and not self.ws.closed *)
  has_ws ← read ws;
  (if has_ws : bool then
     if has_closed then
       open ← within (gets ws_open);
       if open : bool then within (yield;; modify (set_ws_open false)) else mret tt
     else fail AttributeError
   else mret tt);;
  od ← read on_disconnected;
  observe od NotifyDisconnected.
End Transport.

(** The loop of [_heartbeat], run as the task that [connect] starts.  A
    round sleeps, which takes a turn, and sends a ping, which takes
    another; [rounds] only has to exceed the turns left.  A request to
    cancel the task is not represented. *)
Fixpoint _heartbeat (rounds : nat) : L unit :=
  c ← within (gets connected);
  stop ← read _stop_event;
  if c && negb stop then
    match rounds with
    | O => suspended
    | S rounds =>
        go_on ← guarded
                  (within
                     (yield;;                     (* Ping every 30 seconds *)
                      c ← gets connected;
                      if c : bool then
                        message_id ← _generate_message_id;
                        ts ← timestamp;
                        ws_send (JObj [("type", JStr "ping"); ("id", JStr message_id);
                                       ("timestamp", ts)])
                      else ret tt);;
                   mret true)
                  (fun e =>
                     within (log WARNING [Txt "Heartbeat error: "] (Some e));;
                     mret false);
        if go_on : bool then _heartbeat rounds else mret tt
    end
  else mret tt.

(** * Vocabulary of the statements *)

(** The identifier the next call of [_generate_message_id] returns. *)
Definition next_id (w : World) : string :=
  "python_client_" +:+ pretty (clock w) +:+ "_" +:+ pretty (_message_counter w + 1)%Z.

(** A string without an underscore. *)
Fixpoint plain (s : string) : bool :=
  match s with
  | EmptyString => true
  | String c rest => negb (Ascii.eqb c "_"%char) && plain rest
  end.

(** The listeners registered for a domain, in insertion order. *)
Definition listeners (d : string) (w : World) : list Callable :=
  default [] (_subscriptions w !! d).

(** The global update listener, if one is set. *)
Definition global_listeners (w : World) : list Callable :=
  match _global_update_callback w with
  | Some (Some callback) => [callback]
  | _ => []
  end.

Definition domain_label (d : json) : list part :=
  [Txt "Error in domain callback for "; Val d; Txt ": "].

Definition global_label : list part :=
  [Txt "Error in global update callback: "].

(** The trace entry of one invocation. *)
Definition invocation (domain data : json) (callback : Callable) : nat * json * json :=
  (cb_name callback, domain, data).

(** What the handler around a callback logs: nothing if the callback
    returns. *)
Definition complaint (domain data : json) (label : list part) (callback : Callable)
    : list LogRecord :=
  match cb_body callback domain data with
  | Some e => [mkLog ERROR label (Some e)]
  | None => []
  end.

(** The callback raises nothing but instances of [Exception]. *)
Definition tame (domain data : json) (callback : Callable) : Prop :=
  forall e, cb_body callback domain data = Some e -> is_Exception e = true.

(** The callback raises [e], which is no instance of [Exception]; an
    [except Exception] clause lets it through. *)
Definition wild (domain data : json) (callback : Callable) (e : exn) : Prop :=
  cb_body callback domain data = Some e /\ is_Exception e = false.

(** A part of the state that neither the receive loop nor the clock
    writes. *)
Class Steady {X : Type} (proj : World -> X) : Prop := {
  steady_logged l w : proj (set_logged l w) = proj w;
  steady_called c w : proj (set_called c w) = proj w;
  steady_futures f w : proj (set_futures f w) = proj w;
  steady_connected b w : proj (set_connected b w) = proj w;
  steady_receiving b w : proj (set_receiving b w) = proj w;
  steady_clock t w : proj (set_clock t w) = proj w;
  steady_ws_open b w : proj (set_ws_open b w) = proj w
}.

(** A computation leaves a part of the state as it found it. *)
Definition keeps {A X} (proj : World -> X) (m : M A) : Prop :=
  forall w, proj (fst (m w)) = proj w.

(** ** Replies *)

(** A reply to request [mid] that reports an error. *)
Definition error_reply (mid : string) (fields : list (string * json)) (err : json) : Prop :=
  Py.field "id" fields = Some (JStr mid)
  /\ Py.field "error" fields = Some err
  /\ Py.truthy err = true.

(** The [error] field is absent or falsy. *)
Definition clean (fields : list (string * json)) : Prop :=
  Py.truthy (default JNull (Py.field "error" fields)) = false.

Section Replies.
Variable json_loads : string -> option json.

(** The results [batch_test] reads from a [batch_partial]. *)
Definition partial_results (response : json) : exn + list GeoTestResult :=
  partial_data <~ payload json_loads response;
  listed <~ Py.get partial_data "results" (JArr []);
  items <~ Py.iter listed;
  each _parse_geo_test_result items.


(** A well-formed [batch_partial] for request [mid] carrying [parsed]. *)
Definition partial_reply (mid : string) (fields : list (string * json))
    (parsed : list GeoTestResult) : Prop :=
  Py.field "id" fields = Some (JStr mid)
  /\ clean fields
  /\ Py.field "type" fields = Some (JStr "batch_partial")
  /\ partial_results (JObj fields) = inr parsed.


End Replies.

(** The turn of the script in which one reply arrives, and nothing else. *)
Definition delivery (reply : list (string * json) * list GeoTestResult) : list Event :=
  [Frame (JObj (fst reply))].

(** An unsolicited [domain_update] for [d] carrying [data]. *)
Definition update_for (d : string) (data : json) (fields : list (string * json)) : Prop :=
  Py.field "id" fields = None
  /\ Py.field "type" fields = Some (JStr "domain_update")
  /\ Py.field "domain" fields = Some (JStr d)
  /\ Py.field "data" fields = Some data.

Definition not_connected_error : exn :=
  RuntimeError [Txt "Not connected to ProxyHawk"].

(** ** The receive loop over a turn *)

(** How the heap of futures may differ once the receive loop has run: no
    future is created or lost, a future that is done stays as it is, and a
    pending one is pending still or holds a result. *)
Definition settles (before after : list FutureState) : Prop :=
  length after = length before
  /\ forall f st, before !! f = Some st ->
       match st with
       | Pending => after !! f = Some Pending \/ exists msg, after !! f = Some (Finished msg)
       | _ => after !! f = Some st
       end.

(** The futures of a later state of the client. *)
Definition later (w w' : World) : Prop := settles (futures w) (futures w').

(** A computation takes every state to one that [R] relates to it. *)
Definition advances {A} (R : World -> World -> Prop) (m : M A) : Prop :=
  forall w, R w (fst (m w)).

(** Every listener of the client, of a domain or global, raises nothing but
    instances of [Exception], whatever it is called with. *)
Definition tame_listeners (w : World) : Prop :=
  forall callback,
    (callback ∈ global_listeners w \/ exists d, callback ∈ listeners d w) ->
    forall domain data, tame domain data callback.

(** [hash(v)] raises: lists and dicts. *)
Definition unhashable (v : json) : bool :=
  match v with
  | JArr _ | JObj _ => true
  | _ => false
  end.

(** The listeners an update for [domain] goes to before the global one:
    only a string names an entry of the table. *)
Definition listeners_of (domain : json) (w : World) : list Callable :=
  match domain with
  | JStr d => listeners d w
  | _ => []
  end.

(** The envelope carries no id that selects a registered handle: the id is
    missing or falsy, or it is no key of the table. *)
Definition unrouted (fields : list (string * json)) (w : World) : Prop :=
  let message_id := default (JStr "") (Py.field "id" fields) in
  Py.truthy message_id = false
  \/ Py.contains message_id (_message_handlers w) = inr false.

(** The [type] of an envelope, as [_handle_message] reads it. *)
Definition type_of (fields : list (string * json)) : json :=
  default (JStr "") (Py.field "type" fields).

(** The record an envelope routed by its type leaves in the log, when the
    type is not [domain_update]. *)
Definition notice (fields : list (string * json)) : LogRecord :=
  if Py.eq_str (type_of fields) "welcome" then
    mkLog INFO [Txt "Received welcome from ProxyHawk"] None
  else if Py.eq_str (type_of fields) "error" then
    mkLog ERROR [Txt "ProxyHawk error: ";
                 Val (default (JStr "Unknown error") (Py.field "error" fields))] None
  else
    mkLog DEBUG [Txt "Unhandled message type: "; Val (type_of fields)] None.

(** ** Decoding a result *)

(** The fields [_parse_geo_test_result] reads by subscript, of a region and
    of the result itself. *)
Definition required_keys : list string :=
  ["region"; "proxy_used"; "response_time"; "success";
   "domain"; "tested_at"; "has_geographic_differences"; "is_round_robin"; "confidence"].

(** What reading a decoded result raises: a value that is no dict where one
    is expected, a record with a field missing or unknown, a required key
    that is missing. *)
Definition parse_failure (e : exn) : Prop :=
  e = AttributeError \/ e = TypeError
  \/ exists k, k ∈ required_keys /\ e = KeyError (JStr k).

(** ** Turns and requests *)

(** A turn in which no frame is decoded. *)
Definition silent (turn : list Event) : Prop :=
  Forall (fun ev => match ev with Frame _ => False | _ => True end) turn.

(** What [test_domain] raises when its wait expires. *)
Definition test_timeout (d : string) : exn :=
  TimeoutError [Txt "Test timeout for domain: "; Val (JStr d)].

(** What [batch_test] raises when a wait expires with [have] results of
    [wanted] in. *)
Definition batch_timeout (have wanted : nat) : exn :=
  TimeoutError [Txt "Batch test timeout after receiving "; Num have; Txt "/";
                Num wanted; Txt " results"].

(** The regions a test runs from: the caller's, unless there are none. *)
Definition chosen_regions (given : option (list string)) (w : World) : list string :=
  match given with
  | Some (r :: rs) => r :: rs
  | _ => regions (config w)
  end.

(** The envelope of a request made in state [w]: its type, the id that is
    generated next, the fields in between, and the timestamp [ts]. *)
Definition envelope (type : string) (body : list (string * json)) (ts : json)
    (w : World) : json :=
  JObj ([("type", JStr type); ("id", JStr (next_id w))] ++ body ++ [("timestamp", ts)]).

(** The [data] of a test request. *)
Definition test_data (key : string) (value : json) (given : option (list string))
    (w : World) : json :=
  JObj [(key, value); ("regions", JArr (map JStr (chosen_regions given w)));
        ("mode", JStr (TestMode_value (test_mode (config w))))].

(** A computation on an open transport hands it one frame, [request]. *)
Definition emits {A} (request : json) (m : M A) : Prop :=
  forall w, ws_open w = true -> ws_sent (fst (m w)) = ws_sent w ++ [request].

(** The summary of a result that carries none. *)
Definition empty_summary : TestSummary :=
  mkTestSummary (JArr []) (JArr []) (JNum 0) (JObj []) (JBool false).

(** The fields of the two records a region lists. *)
Definition DNSResult_fields : list string := ["query_time"; "ip"; "ttl"; "record_type"].

Definition HTTPResult_fields : list string :=
  ["request_time"; "status_code"; "response_time_ms"; "headers";
   "server_header"; "content_hash"; "content_size"; "remote_addr"].

(** ** Connection management *)

(** A method that manages the connection leaves a part of the client as it
    found it. *)
Definition preserves {A X} (proj : Client -> X) (m : L A) : Prop :=
  forall c, proj (fst (m c)) = proj c.

(** The frame [_send_config] sends for a configuration at a time. *)
Definition config_frame (cfg : ProxyHawkConfig) (now : Z) : json :=
  JObj [("type", JStr "set_config");
        ("data", JObj [("regions", JArr (map JStr (regions cfg)));
                       ("test_mode", JStr (TestMode_value (test_mode cfg)))]);
        ("timestamp", JNum now)].

(** The client proper at the end of a [connect] that has made the
    connection: the attempt is logged, [t1] has passed while the connection
    was opened, the client is marked connected with its receive loop
    started, and [t2] has passed while the configuration was sent. *)
Definition after_connect (c : Client) (t1 t2 : list Event) (rest : list (list Event))
    : World :=
  let w0 := set_logged
              (logged (self c)
               ++ [mkLog INFO [Txt "Connecting to ProxyHawk at ";
                               Val (JStr (url (config (self c))))] None])
              (self c) in
  let w1 := foldl happen (set_script (t2 :: rest) w0) t1 in
  foldl happen
    (set_script rest
       (set_ws_sent (ws_sent w1 ++ [config_frame (config w1) (clock w1)])
          (set_receiving true (set_connected true (set_ws_open true w1)))))
    t2.

(** An observer that is not set, or returns when it is called. *)
Definition quiet (observer : option (option exn)) : Prop :=
  observer = None \/ observer = Some None.

(** What a call of the observer leaves in the trace. *)
Definition notice_of (observer : option (option exn)) (n : Notification)
    : list Notification :=
  match observer with
  | Some _ => [n]
  | None => []
  end.

(** [on_error], called with [e], is not set or returns. *)
Definition error_observer_returns (c : Client) (e : exn) : Prop :=
  match on_error c with
  | Some observer => observer e = None
  | None => True
  end.

(** What the call of [on_error] with [e] leaves in the trace. *)
Definition error_notice (c : Client) (e : exn) : list Notification :=
  match on_error c with
  | Some _ => [NotifyError e]
  | None => []
  end.

(** A turn in which nothing happens but the passing of time. *)
Definition idle (turn : list Event) : Prop :=
  Forall (fun ev => exists ms, ev = Tick ms) turn.

(** The client proper once [turn] has passed, with [rest] still to come. *)
Definition passed (turn : list Event) (rest : list (list Event)) (w : World) : World :=
  foldl happen (set_script rest w) turn.

(** A ping that carries the id drawn at counter [n]: its type, the id, made
    at some reading of the clock, and a timestamp. *)
Definition ping_at (n : Z) (frame : json) : Prop :=
  exists (now : Z) (ts : json),
    frame = JObj [("type", JStr "ping");
                  ("id", JStr ("python_client_" +:+ pretty now +:+ "_" +:+ pretty n));
                  ("timestamp", ts)].

(** * Scenarios *)

Definition example_config : ProxyHawkConfig :=
  mkConfig "ws://localhost:8888/ws" ["us-west"; "us-east"; "eu-west"] BASIC.

(** A connected client with nothing outstanding, its receive loop running,
    and the turns the surroundings are going to take. *)
Definition session (turns : list (list Event)) : World :=
  mkWorld example_config true ∅ ∅ 0 None [] true [] true 1700000000000 turns [] [].

(** The same client with the connection gone. *)
Definition offline : World := set_connected false (session []).

(** The id of the first request of a [session]. *)
Definition first_id : string := "python_client_1700000000000_1".

(** A decoder that accepts no text, for payloads that are structured
    already. *)
Definition undecodable : string -> option json := fun _ => None.

Definition quiet_listener : Callable := mkCallable 1 (fun _ _ => None).

Definition faulty_listener : Callable :=
  mkCallable 2 (fun _ _ => Some (UserError "listener failed")).

Definition global_listener : Callable := mkCallable 3 (fun _ _ => None).

(** A listener that raises [asyncio.CancelledError]. *)
Definition cancelling_listener : Callable :=
  mkCallable 4 (fun _ _ => Some CancelledError).

(** A client with two listeners on a.com, the first of which raises, and a
    global listener. *)
Definition watching (turns : list (list Event)) : World :=
  set_global_update_callback (Some (Some global_listener))
    (set_subscriptions {["a.com" := [faulty_listener; quiet_listener]]} (session turns)).

(** The same client with other listeners on a.com: one that raises an
    exception that is no [Exception], and one after it. *)
Definition interrupted : World :=
  set_subscriptions {["a.com" := [cancelling_listener; quiet_listener]]} (watching []).

Definition geo_json (d : string) : json :=
  JObj [("domain", JStr d); ("tested_at", JStr "2024-05-01T12:00:00Z");
        ("has_geographic_differences", JBool false); ("is_round_robin", JBool false);
        ("confidence", JNum 1)].

Definition geo_result (d : string) : GeoTestResult :=
  mkGeoTestResult (JStr d) (JStr "2024-05-01T12:00:00Z") (JBool false) (JBool false)
    (JNum 1) [] (mkTestSummary (JArr []) (JArr []) (JNum 0) (JObj []) (JBool false)).

Definition partial_ab : list (string * json) :=
  [("type", JStr "batch_partial"); ("id", JStr first_id);
   ("data", JObj [("results", JArr [geo_json "a.com"; geo_json "b.com"])])].

Definition result_c : list (string * json) :=
  [("type", JStr "batch_result"); ("id", JStr first_id);
   ("data", JArr [geo_json "c.com"])].

(** A reply to the first request that reports an error and carries a payload
    all the same. *)
Definition refusal : list (string * json) :=
  [("type", JStr "error"); ("id", JStr first_id); ("error", JStr "rate limited");
   ("data", JArr [JStr "us-west"])].

Definition update_a : list (string * json) :=
  [("type", JStr "domain_update"); ("domain", JStr "a.com");
   ("data", JObj [("changed", JBool true)])].

(** A [domain_update] for a.com that echoes the id of the first request. *)
Definition echoed_update : list (string * json) :=
  [("type", JStr "domain_update"); ("id", JStr first_id); ("domain", JStr "a.com");
   ("data", JObj [("changed", JBool true)])].

(** A client whose first request is outstanding: its future is registered
    and in state [st]. *)
Definition awaiting (st : FutureState) : World :=
  set_message_handlers {[first_id := 0]} (set_futures [st] (watching [])).

(** A region of a reply, with one DNS record, and what it parses to. *)
Definition region_json (name : string) : json :=
  JObj [("region", JStr name); ("proxy_used", JStr "proxy-1");
        ("dns_results", JArr [JObj [("ip", JStr "192.0.2.1"); ("ttl", JNum 300);
                                    ("record_type", JStr "A");
                                    ("query_time", JStr "2024-05-01T12:00:00Z")]]);
        ("response_time", JNum 120); ("success", JBool true)].

Definition region_result (name : string) : RegionResult :=
  mkRegionResult (JStr name) (JStr "proxy-1")
    [mkDNSResult (JStr "2024-05-01T12:00:00Z") (JStr "192.0.2.1") (JNum 300) (JStr "A")]
    [] (JNum 120) (JBool true) (JStr "").

(** The fields of a reply for a.com that was tested from two regions. *)
Definition two_regions : list (string * json) :=
  [("domain", JStr "a.com"); ("tested_at", JStr "2024-05-01T12:00:00Z");
   ("has_geographic_differences", JBool false); ("is_round_robin", JBool false);
   ("confidence", JNum 1);
   ("region_results", JObj [("us-west", region_json "us-west");
                            ("eu-west", region_json "eu-west")])].

(** A client that has just been made, and one whose [on_connected] raises. *)
Definition fresh (turns : list (list Event)) : Client :=
  __init__ None 1700000000000 turns.

Definition with_failing_observer (turns : list (list Event)) : Client :=
  mkClient (self (fresh turns)) false None None false
    (Some (Some (UserError "observer failed"))) None None None [].

(** A connected client whose heartbeat has been started. *)
Definition beating (turns : list (list Event)) : Client :=
  mkClient (session turns) true None (Some Running) false None None None None [].

(** * Properties *)

Arguments _handle_domain_update : simpl never.
Arguments _handle_message : simpl never.
Arguments yield : simpl never.
Arguments wait_for : simpl never.
Arguments ws_send : simpl never.
Arguments try_except : simpl never.
Arguments try_finally : simpl never.
Arguments call : simpl never.
Arguments log : simpl never.
Arguments except_Exception : simpl never.

Ltac run := unfold mbind, M_bind, mret, M_ret, bind, lift, gets, modify, ret, raise; cbn.

Ltac unfold_setters :=
  unfold set_connected, set_message_handlers, set_subscriptions, set_message_counter,
    set_global_update_callback, set_futures, set_ws_open, set_ws_sent, set_receiving,
    set_clock, set_script, set_logged, set_called in *.

Ltac same_world :=
  unfold_setters; cbn; rewrite ?map_app; cbn; rewrite <- ?app_assoc, ?app_nil_r;
  try reflexivity;
  match goal with
  | w : World |- _ => destruct w; cbn; rewrite ?app_nil_r; reflexivity
  end.

(** ** Routing of one inbound message *)

Lemma handle_message_routed w fields mid f :
  Py.field "id" fields = Some (JStr mid) -> mid <> "" ->
  _message_handlers w !! mid = Some f -> futures w !! f = Some Pending ->
  _handle_message (JObj fields) w =
    (set_futures (<[f := Finished (JObj fields)]> (futures w)) w, Returned tt).
Proof.
  intros Hid Hne Hh Hf. unfold _handle_message. run.
  rewrite Hid. cbn. rewrite (proj2 (String.eqb_neq mid "") Hne). cbn.
  unfold done, set_result, done. run.
  repeat (progress (rewrite ?Hh, ?Hf; cbn)). reflexivity.
Qed.

Lemma handle_message_spent w fields mid f :
  Py.field "id" fields = Some (JStr mid) -> mid <> "" ->
  _message_handlers w !! mid = Some f -> futures w !! f <> Some Pending ->
  _handle_message (JObj fields) w = (w, Returned tt).
Proof.
  intros Hid Hne Hh Hf. unfold _handle_message. run.
  rewrite Hid. cbn. rewrite (proj2 (String.eqb_neq mid "") Hne). cbn.
  unfold done, set_result, done. run.
  repeat (progress (rewrite ?Hh; cbn)).
  destruct (futures w !! f) as [[]|]; try reflexivity. congruence.
Qed.

(** ** Dispatch to listeners *)

Section Dispatch.
Variables (domain data : json).

Lemma guarded_call label callback w :
  tame domain data callback ->
  try_except (call callback domain data)
    (except_Exception (fun e => log ERROR label (Some e))) w =
    (set_logged (logged w ++ complaint domain data label callback)
       (set_called (called w ++ [invocation domain data callback]) w), Returned tt).
Proof.
  intros Ht. unfold try_except, call, complaint, except_Exception, log. run.
  destruct (cb_body callback domain data) as [e|] eqn:E; cbn.
  - rewrite (Ht e E). reflexivity.
  - rewrite app_nil_r. destruct w; reflexivity.
Qed.

Lemma guarded_loop label callbacks : forall w,
  Forall (tame domain data) callbacks ->
  for_each callbacks (fun callback =>
    try_except (call callback domain data)
      (except_Exception (fun e => log ERROR label (Some e)))) w =
    (set_logged (logged w ++ flat_map (complaint domain data label) callbacks)
       (set_called (called w ++ map (invocation domain data) callbacks) w), Returned tt).
Proof.
  induction callbacks as [|cb rest IH]; intros w Ht.
  - cbn. rewrite !app_nil_r. destruct w; reflexivity.
  - inversion Ht as [|? ? Hcb Hrest]; subst. cbn [for_each]. run.
    rewrite guarded_call by assumption. rewrite IH by assumption. cbn.
    rewrite <- !app_assoc. reflexivity.
Qed.

(** A callback that raises what [except Exception] does not catch: the call
    is recorded and the exception leaves the handler. *)
Lemma unguarded_call label callback e w :
  wild domain data callback e ->
  try_except (call callback domain data)
    (except_Exception (fun e => log ERROR label (Some e))) w =
    (set_called (called w ++ [invocation domain data callback]) w, Raised e).
Proof.
  intros [Hb He]. unfold try_except, call, except_Exception. run.
  rewrite Hb. cbn. rewrite He. reflexivity.
Qed.

(** The loop over the listeners ends at the first such callback. *)
Lemma unguarded_loop label pre callback post e : forall w,
  Forall (tame domain data) pre -> wild domain data callback e ->
  for_each (pre ++ callback :: post) (fun callback =>
    try_except (call callback domain data)
      (except_Exception (fun e => log ERROR label (Some e)))) w =
    (set_logged (logged w ++ flat_map (complaint domain data label) pre)
       (set_called (called w ++ map (invocation domain data) (pre ++ [callback])) w),
     Raised e).
Proof.
  induction pre as [|cb rest IH]; intros w Ht Hw.
  - cbn [app for_each]. run. rewrite (unguarded_call _ _ e) by assumption. cbn.
    rewrite app_nil_r. destruct w; reflexivity.
  - inversion Ht as [|? ? Hcb Hrest]; subst. cbn [app for_each]. run.
    rewrite guarded_call by assumption. rewrite IH by assumption. cbn.
    rewrite <- !app_assoc. reflexivity.
Qed.
End Dispatch.

Lemma handle_domain_update_spec d data w :
  Forall (tame (JStr d) data) (listeners d w ++ global_listeners w) ->
  _handle_domain_update (JStr d) data w =
    (set_logged (logged w
                   ++ flat_map (complaint (JStr d) data (domain_label (JStr d))) (listeners d w)
                   ++ flat_map (complaint (JStr d) data global_label) (global_listeners w))
       (set_called (called w
                      ++ map (invocation (JStr d) data) (listeners d w ++ global_listeners w)) w),
     Returned tt).
Proof.
  intros Ht. apply Forall_app in Ht as [Hl Hg].
  unfold _handle_domain_update, listeners, global_listeners in *. run.
  destruct (_subscriptions w !! d) as [l|] eqn:E; cbn in *.
  - rewrite E; cbn. rewrite guarded_loop by assumption. cbn.
    destruct (_global_update_callback w) as [[g|]|]; cbn.
    + inversion Hg; subst. rewrite guarded_call by assumption. same_world.
    + same_world.
    + same_world.
  - destruct (_global_update_callback w) as [[g|]|]; cbn.
    + inversion Hg; subst. rewrite guarded_call by assumption. same_world.
    + same_world.
    + same_world.
Qed.

(** A listener of the domain raises what [except Exception] does not catch:
    the dispatch ends there, with that exception. *)
Lemma handle_domain_update_interrupted d data w pre callback post e :
  listeners d w = pre ++ callback :: post ->
  Forall (tame (JStr d) data) pre -> wild (JStr d) data callback e ->
  _handle_domain_update (JStr d) data w =
    (set_logged (logged w
                   ++ flat_map (complaint (JStr d) data (domain_label (JStr d))) pre)
       (set_called (called w ++ map (invocation (JStr d) data) (pre ++ [callback])) w),
     Raised e).
Proof.
  intros Hl Ht Hw.
  unfold _handle_domain_update, listeners in *. run.
  destruct (_subscriptions w !! d) as [l|] eqn:E; cbn in Hl.
  - subst l. rewrite E; cbn.
    rewrite (unguarded_loop _ _ _ pre callback post e) by assumption. reflexivity.
  - destruct pre; discriminate.
Qed.

(** The listeners of the domain are tame and the global listener is not:
    the dispatch calls them all and ends with the exception of the global
    listener. *)
Lemma handle_domain_update_global_interrupted d data w callback e :
  Forall (tame (JStr d) data) (listeners d w) ->
  global_listeners w = [callback] -> wild (JStr d) data callback e ->
  _handle_domain_update (JStr d) data w =
    (set_logged (logged w
                   ++ flat_map (complaint (JStr d) data (domain_label (JStr d))) (listeners d w))
       (set_called (called w
                      ++ map (invocation (JStr d) data) (listeners d w ++ [callback])) w),
     Raised e).
Proof.
  intros Ht Hg Hw.
  unfold _handle_domain_update, listeners, global_listeners in *. run.
  destruct (_global_update_callback w) as [[g|]|] eqn:G; try discriminate.
  inversion Hg; subst g.
  destruct (_subscriptions w !! d) as [l|] eqn:E; cbn in *.
  - rewrite E; cbn. rewrite guarded_loop by assumption. cbn. rewrite G.
    rewrite (unguarded_call _ _ _ _ e) by assumption. same_world.
  - rewrite ?G. rewrite (unguarded_call _ _ _ _ e) by assumption. same_world.
Qed.

(** ** What a computation leaves alone *)

Section Keeps.
Context {X : Type} (proj : World -> X).

Lemma keeps_ret {A} (a : A) : keeps proj (mret a).
Proof. intros w. reflexivity. Qed.

Lemma keeps_raise {A} (e : exn) : keeps proj (@raise A e).
Proof. intros w. reflexivity. Qed.

Lemma keeps_gets {A} (f : World -> A) : keeps proj (gets f).
Proof. intros w. reflexivity. Qed.

Lemma keeps_lift {A} (r : exn + A) : keeps proj (lift r).
Proof. intros w. destruct r; reflexivity. Qed.

Lemma keeps_modify (f : World -> World) :
  (forall w, proj (f w) = proj w) -> keeps proj (modify f).
Proof. intros H w. apply H. Qed.

Lemma keeps_bind {A B} (m : M A) (k : A -> M B) :
  keeps proj m -> (forall a, keeps proj (k a)) -> keeps proj (m ≫= k).
Proof.
  intros Hm Hk w. unfold mbind, M_bind, bind.
  specialize (Hm w). destruct (m w) as [w1 [a| |]]; cbn in *; try assumption.
  rewrite Hk. assumption.
Qed.

Lemma keeps_try_except {A} (body : M A) handler :
  keeps proj body -> (forall e h, handler e = Some h -> keeps proj h) ->
  keeps proj (try_except body handler).
Proof.
  intros Hb Hh w. unfold try_except.
  specialize (Hb w). destruct (body w) as [w1 [a|e|]]; cbn in *; try assumption.
  destruct (handler e) as [h|] eqn:E; cbn; try assumption.
  rewrite (Hh e h E). assumption.
Qed.

Lemma keeps_try_finally {A} (body : M A) cleanup :
  keeps proj body -> keeps proj cleanup -> keeps proj (try_finally body cleanup).
Proof.
  intros Hb Hc w. unfold try_finally.
  specialize (Hb w). destruct (body w) as [w1 [a|e|]]; cbn in *; try assumption.
  - specialize (Hc w1). destruct (cleanup w1) as [w2 [[]|e|]]; cbn in *; congruence.
  - specialize (Hc w1). destruct (cleanup w1) as [w2 [[]|e'|]]; cbn in *; congruence.
Qed.

Lemma keeps_for_each {A} (l : list A) (body : A -> M unit) :
  (forall a, keeps proj (body a)) -> keeps proj (for_each l body).
Proof.
  intros Hb. induction l as [|a l IH]; cbn [for_each].
  - apply keeps_ret.
  - apply keeps_bind; [apply Hb | intros _; apply IH].
Qed.

Lemma keeps_except_Exception {A} (k : exn -> M A) e h :
  (forall e, keeps proj (k e)) -> except_Exception k e = Some h -> keeps proj h.
Proof.
  unfold except_Exception. intros Hk E. destruct (is_Exception e); inversion E; subst.
  apply Hk.
Qed.

Lemma keeps_except_TimeoutError {A} (k : M A) e h :
  keeps proj k -> except_TimeoutError k e = Some h -> keeps proj h.
Proof.
  unfold except_TimeoutError. intros Hk E. destruct e; inversion E; subst. apply Hk.
Qed.
End Keeps.

(** Steps to take a computation apart down to its primitive updates. *)
Ltac keeps_step :=
  first
    [ apply keeps_ret | apply keeps_raise | apply keeps_gets | apply keeps_lift
    | apply keeps_bind; [|intros ?]
    | apply keeps_for_each; intros ?
    | apply keeps_try_finally
    | apply keeps_try_except;
      [|intros ? ? ?;
        first [ eapply keeps_except_Exception; [intros ?|eassumption]
              | eapply keeps_except_TimeoutError; [|eassumption] ]]
    | apply keeps_modify; intros ?;
      first [ reflexivity | apply steady_logged | apply steady_called
            | apply steady_futures ]
    | match goal with
      | |- keeps _ (if ?b then _ else _) => destruct b
      | |- keeps _ (match ?x with _ => _ end) => destruct x
      end ].

#[local] Instance subscriptions_steady : Steady _subscriptions.
Proof. split; reflexivity. Qed.

#[local] Instance script_steady : Steady script.
Proof. split; reflexivity. Qed.

(** What the receive loop does in a turn stays clear of every steady part. *)
Section SteadyParts.
Context {X : Type} (proj : World -> X) `{!Steady proj}.

Lemma log_steady l msg e : keeps proj (log l msg e).
Proof. unfold log. keeps_step. Qed.

Lemma call_steady cb d x : keeps proj (call cb d x).
Proof. unfold call. repeat keeps_step. Qed.

Lemma handle_domain_update_steady d x : keeps proj (_handle_domain_update d x).
Proof.
  unfold _handle_domain_update.
  repeat first [apply log_steady | apply call_steady | keeps_step].
Qed.

Lemma handle_message_steady msg : keeps proj (_handle_message msg).
Proof.
  unfold _handle_message, done, set_result, done.
  repeat first [apply log_steady | apply handle_domain_update_steady | keeps_step].
Qed.

Lemma message_receiver_steady ev w : proj (_message_receiver ev w) = proj w.
Proof.
  unfold _message_receiver. destruct (receiving w); [|reflexivity].
  destruct ev as [ms|data| |]; try reflexivity.
  - pose proof (handle_message_steady data w) as H.
    destruct (_handle_message data w) as [w1 [[]|e|]]; cbn in *; try assumption.
    destruct (is_Exception e).
    + rewrite (log_steady _ _ _ w1). assumption.
    + rewrite steady_receiving. assumption.
  - apply (log_steady _ _ _ w).
  - rewrite steady_receiving, steady_connected. apply (log_steady _ _ _ w).
Qed.

Lemma happen_steady w ev : proj (happen w ev) = proj w.
Proof.
  destruct ev; cbn [happen]; rewrite ?message_receiver_steady;
    rewrite ?steady_clock, ?steady_ws_open; reflexivity.
Qed.

Lemma turn_steady turn : forall w, proj (foldl happen w turn) = proj w.
Proof.
  induction turn as [|ev turn IH]; intros w; cbn; [reflexivity|].
  rewrite IH. apply happen_steady.
Qed.
End SteadyParts.

Lemma yield_keeps_subscriptions : keeps _subscriptions yield.
Proof.
  intros w. unfold yield. destruct (script w) as [|turn rest]; cbn; [reflexivity|].
  rewrite (turn_steady _subscriptions). reflexivity.
Qed.

Lemma ws_send_keeps_subscriptions request : keeps _subscriptions (ws_send request).
Proof.
  unfold ws_send. repeat first [apply yield_keeps_subscriptions | keeps_step].
Qed.

Lemma wait_for_keeps_subscriptions future : keeps _subscriptions (wait_for future).
Proof.
  unfold wait_for, cancel, done.
  repeat first [apply yield_keeps_subscriptions | keeps_step].
Qed.

Lemma log_keeps_subscriptions l msg e : keeps _subscriptions (log l msg e).
Proof. apply log_steady, _. Qed.

Lemma release_keeps_subscriptions mid : keeps _subscriptions (release mid).
Proof. unfold release. keeps_step. Qed.

(** ** Running a computation step by step *)

Lemma bind_returned {A B} (m : M A) (k : A -> M B) w w1 a :
  m w = (w1, Returned a) -> (m ≫= k) w = k a w1.
Proof. intros H. unfold mbind, M_bind, bind. rewrite H. reflexivity. Qed.

Lemma bind_raised {A B} (m : M A) (k : A -> M B) w w1 e :
  m w = (w1, Raised e) -> (m ≫= k) w = (w1, Raised e).
Proof. intros H. unfold mbind, M_bind, bind. rewrite H. reflexivity. Qed.

Lemma bind_suspended {A B} (m : M A) (k : A -> M B) w w1 :
  m w = (w1, Suspended) -> (m ≫= k) w = (w1, Suspended).
Proof. intros H. unfold mbind, M_bind, bind. rewrite H. reflexivity. Qed.

Lemma generate_message_id_run w :
  _generate_message_id w =
    (set_message_counter (_message_counter w + 1) w, Returned (next_id w)).
Proof. reflexivity. Qed.

Ltac simpl_world :=
  cbn [config connected _message_handlers _subscriptions _message_counter
       _global_update_callback futures ws_open ws_sent receiving clock script logged called
       set_connected set_message_handlers set_subscriptions set_message_counter
       set_global_update_callback set_futures set_ws_open set_ws_sent set_receiving
       set_clock set_script set_logged set_called fst snd] in *.

(** One step of a straight-line prefix: a primitive that returns. *)
Ltac mstep :=
  match goal with
  | |- context [ (?m ≫= ?k) ?w ] =>
      first [ rewrite (bind_returned m k w _ _ (generate_message_id_run w))
            | erewrite (bind_returned m k w) by reflexivity ];
      cbv beta; simpl_world
  end.

Lemma wait_for_cases future w :
  match wait_for future w with
  | (w1, Returned r) => futures w1 !! future = Some (Finished r)
  | (w1, Raised AsyncTimeoutError) => futures w1 !! future = Some Cancelled
  | (w1, Raised e) => e = CancelledError
  | (w1, Suspended) => True
  end.
Proof.
  unfold wait_for, yield. run. destruct (script w) as [|turn rest]; cbn; [exact I|].
  set (w2 := foldl happen (set_script rest w) turn).
  destruct (futures w2 !! future) as [[|r|]|] eqn:E; cbn; try reflexivity.
  - unfold cancel, done. run. rewrite E. cbn.
    apply list_lookup_insert_eq. eapply lookup_lt_Some, E.
  - assumption.
Qed.


Lemma next_id_nonempty w : next_id w <> "".
Proof. unfold next_id. cbn. discriminate. Qed.

Lemma yield_turn w turn rest :
  script w = turn :: rest -> yield w = (foldl happen (set_script rest w) turn, Returned tt).
Proof. intros H. unfold yield. rewrite H. reflexivity. Qed.

Lemma yield_idle w : script w = [] -> yield w = (w, Suspended).
Proof. intros H. unfold yield. rewrite H. reflexivity. Qed.

Lemma ws_send_open w request turn rest :
  ws_open w = true -> script w = turn :: rest ->
  ws_send request w =
    (foldl happen (set_script rest (set_ws_sent (ws_sent w ++ [request]) w)) turn, Returned tt).
Proof.
  intros Ho Hs. unfold ws_send. mstep. rewrite Ho. mstep.
  apply yield_turn. exact Hs.
Qed.

Lemma ws_send_idle w request :
  ws_open w = true -> script w = [] ->
  ws_send request w = (set_ws_sent (ws_sent w ++ [request]) w, Suspended).
Proof.
  intros Ho Hs. unfold ws_send. mstep. rewrite Ho. mstep.
  apply yield_idle. exact Hs.
Qed.

Lemma ws_send_closed w request :
  ws_open w = false -> ws_send request w = (w, Raised ConnectionClosed).
Proof. intros Ho. unfold ws_send. mstep. rewrite Ho. reflexivity. Qed.

Lemma wait_for_reply w fields mid future rest :
  receiving w = true ->
  script w = [Frame (JObj fields)] :: rest ->
  Py.field "id" fields = Some (JStr mid) -> mid <> "" ->
  _message_handlers w !! mid = Some future -> futures w !! future = Some Pending ->
  wait_for future w =
    (set_futures (<[future := Finished (JObj fields)]> (futures w)) (set_script rest w),
     Returned (JObj fields)).
Proof.
  intros Hr Hs Hid Hne Hh Hf. unfold wait_for.
  rewrite (bind_returned _ _ _ _ _ (yield_turn _ _ _ Hs)).
  cbn [foldl happen]. unfold _message_receiver. simpl_world. rewrite Hr.
  rewrite (handle_message_routed _ fields mid future) by assumption.
  mstep. rewrite list_lookup_insert_eq by (eapply lookup_lt_Some, Hf). reflexivity.
Qed.

Lemma wait_for_idle w future : script w = [] -> wait_for future w = (w, Suspended).
Proof.
  intros Hs. unfold wait_for. apply bind_suspended, yield_idle, Hs.
Qed.

Lemma wait_for_silence w future rest :
  script w = [] :: rest -> futures w !! future = Some Pending ->
  wait_for future w =
    (set_futures (<[future := Cancelled]> (futures w)) (set_script rest w),
     Raised AsyncTimeoutError).
Proof.
  intros Hs Hf. unfold wait_for.
  rewrite (bind_returned _ _ _ _ _ (yield_turn _ _ _ Hs)). cbn [foldl].
  mstep. rewrite Hf. unfold cancel, done. run. rewrite Hf. reflexivity.
Qed.

Lemma try_except_returned {A} (body : M A) handler w w1 a :
  body w = (w1, Returned a) -> try_except body handler w = (w1, Returned a).
Proof. intros H. unfold try_except. rewrite H. reflexivity. Qed.

Lemma try_except_suspended {A} (body : M A) handler w w1 :
  body w = (w1, Suspended) -> try_except body handler w = (w1, Suspended).
Proof. intros H. unfold try_except. rewrite H. reflexivity. Qed.

(** ** The collection loop of batch_test *)

Section Collect.
Variable json_loads : string -> option json.
Variables (domains : list string) (mid : string).
Hypothesis mid_nonempty : mid <> "".

Lemma partial_results_inv fields parsed :
  partial_results json_loads (JObj fields) = inr parsed ->
  exists partial_data listed items,
    payload json_loads (JObj fields) = inr partial_data
    /\ Py.get partial_data "results" (JArr []) = inr listed
    /\ Py.iter listed = inr items
    /\ each _parse_geo_test_result items = inr parsed.
Proof.
  unfold partial_results, and_then. intros H.
  destruct (payload json_loads (JObj fields)) as [|pd] eqn:E1; [discriminate|].
  destruct (Py.get pd "results" (JArr [])) as [|listed] eqn:E2; [discriminate|].
  destruct (Py.iter listed) as [|items] eqn:E3; [discriminate|].
  exists pd, listed, items. auto.
Qed.


(** One round on a [batch_partial]: its results are appended and the loop
    goes on from the state the round leaves. *)
Lemma collect_partial_round w rounds future results fields parsed rest :
  receiving w = true ->
  _message_handlers w !! mid = Some future -> futures w !! future = Some Pending ->
  partial_reply json_loads mid fields parsed ->
  script w = [Frame (JObj fields)] :: rest ->
  length results < length domains ->
  collect json_loads (S rounds) domains mid future results w =
    let w1 := set_futures (<[future := Finished (JObj fields)]> (futures w))
                (set_script rest w) in
    if (length (results ++ parsed) <? length domains)%nat then
      collect json_loads rounds domains mid (length (futures w)) (results ++ parsed)
        (set_message_handlers (<[mid := length (futures w)]> (_message_handlers w))
           (set_futures (futures w1 ++ [Pending]) w1))
    else collect json_loads rounds domains mid future (results ++ parsed) w1.
Proof.
  intros Hr Hh Hf (Hid & Hclean & Hty & Hres) Hs Hlt.
  destruct (partial_results_inv _ _ Hres) as (pd & listed & items & Hp & Hl & Hi & He).
  cbn [collect]. rewrite (proj2 (Nat.ltb_lt _ _) Hlt).
  erewrite bind_returned
    by (apply try_except_returned; eapply wait_for_reply; eassumption).
  unfold clean in Hclean.
  mstep. rewrite Hclean.
  unfold Py.item at 1. rewrite Hty. mstep.
  change (Py.eq_str (JStr "batch_partial") "batch_result") with false.
  change (Py.eq_str (JStr "batch_partial") "batch_partial") with true.
  cbv iota.
  rewrite Hp. mstep. rewrite Hl. mstep. rewrite Hi. mstep. rewrite He. mstep.
  cbv zeta.
  destruct (length (results ++ parsed) <? length domains)%nat; [|reflexivity].
  mstep. mstep. rewrite length_insert. reflexivity.
Qed.



(** One round on a reply that reports an error: the error is logged and
    the loop is left with the results it has. *)
Lemma collect_error_round w rounds future results fields err rest :
  receiving w = true ->
  _message_handlers w !! mid = Some future -> futures w !! future = Some Pending ->
  error_reply mid fields err ->
  script w = [Frame (JObj fields)] :: rest ->
  length results < length domains ->
  collect json_loads (S rounds) domains mid future results w =
    (set_logged (logged w ++ [mkLog ERROR [Txt "Batch test error: "; Val err] None])
       (set_futures (<[future := Finished (JObj fields)]> (futures w)) (set_script rest w)),
     Returned results).
Proof.
  intros Hr Hh Hf (Hid & Herr & Htruthy) Hs Hlt.
  cbn [collect]. rewrite (proj2 (Nat.ltb_lt _ _) Hlt).
  erewrite bind_returned
    by (apply try_except_returned; eapply wait_for_reply; eassumption).
  unfold Py.get, Py.item. rewrite Herr. cbn [default from_option id].
  mstep. rewrite Htruthy. do 2 mstep. reflexivity.
Qed.


(** Any number of [batch_partial] rounds that leave the count short: the
    loop has appended their results in order and waits on a pending future
    registered under the same id. *)
Lemma collect_partials partials : forall w rounds future results tail,
  receiving w = true ->
  _message_handlers w !! mid = Some future -> futures w !! future = Some Pending ->
  Forall (fun p => partial_reply json_loads mid (fst p) (snd p)) partials ->
  script w = map delivery partials ++ tail ->
  length (results ++ concat (map snd partials)) < length domains ->
  exists w' future',
    collect json_loads (length partials + rounds) domains mid future results w =
      collect json_loads rounds domains mid future'
        (results ++ concat (map snd partials)) w'
    /\ receiving w' = true
    /\ _message_handlers w' !! mid = Some future'
    /\ futures w' !! future' = Some Pending
    /\ script w' = tail.
Proof.
  induction partials as [|[fields parsed] ps IH];
    intros w rounds future results tail Hr Hh Hf Hall Hs Hlt.
  - exists w, future. cbn. rewrite app_nil_r. auto.
  - inversion Hall as [|? ? Hp Hps]; subst. cbn [fst snd] in Hp.
    cbn [map concat snd] in Hlt. rewrite app_assoc in Hlt.
    assert (Hlt1 : length (results ++ parsed) < length domains).
    { rewrite length_app in Hlt. lia. }
    assert (Hlt0 : length results < length domains).
    { rewrite length_app in Hlt1. lia. }
    cbn [length Nat.add map] in *.
    rewrite (collect_partial_round w _ future results fields parsed
               (map delivery ps ++ tail)) by assumption.
    cbv zeta. rewrite (proj2 (Nat.ltb_lt _ _) Hlt1).
    match goal with
    | |- context [collect _ _ _ _ ?f ?r ?w1] =>
        destruct (IH w1 rounds f r tail)
          as (w' & future' & Hrun & Hr' & Hh' & Hf' & Hs')
    end;
      [ assumption
      | apply lookup_insert_eq
      | simpl_world; rewrite lookup_app_r by (rewrite length_insert; lia);
        rewrite length_insert, Nat.sub_diag; reflexivity
      | assumption
      | reflexivity
      | assumption
      | ].
    exists w', future'. rewrite Hrun.
    cbn [map concat snd]. rewrite app_assoc. auto.
Qed.

End Collect.

(** A wait that returns has used up one turn. *)
Lemma wait_for_consumes future w w1 r :
  wait_for future w = (w1, Returned r) -> length (script w) = S (length (script w1)).
Proof.
  unfold wait_for, yield. run. destruct (script w) as [|turn rest] eqn:E; cbn.
  - discriminate.
  - pose proof (turn_steady script turn (set_script rest w)) as Hs. simpl_world.
    revert Hs. generalize (foldl happen (set_script rest w) turn). intros w2 Hs.
    destruct (futures w2 !! future) as [[|res|]|] eqn:Ef; cbn.
    + unfold cancel, done. run. rewrite Ef. discriminate.
    + intros H. inversion H; subst. reflexivity.
    + discriminate.
    + discriminate.
Qed.

(** The count of rounds handed to [collect] does not matter once it exceeds
    the turns left in the script: the loop never stops for want of rounds,
    only for want of turns. *)
Lemma collect_rounds json_loads domains mid : forall n m future results w,
  length (script w) < n -> length (script w) < m ->
  collect json_loads n domains mid future results w
  = collect json_loads m domains mid future results w.
Proof.
  induction n as [|n IH]; intros m future results w Hn Hm; [lia|].
  destruct m as [|m]; [lia|].
  cbn [collect]. destruct (length results <? length domains)%nat; [|reflexivity].
  destruct (try_except (wait_for future)
              (except_TimeoutError
                 (raise (TimeoutError [Txt "Batch test timeout after receiving ";
                                       Num (length results); Txt "/";
                                       Num (length domains); Txt " results"]))) w)
    as [w1 [response|e|]] eqn:Ew.
  2:{ rewrite !(bind_raised _ _ _ _ _ Ew). reflexivity. }
  2:{ rewrite !(bind_suspended _ _ _ _ Ew). reflexivity. }
  assert (Hlen : length (script w) = S (length (script w1))).
  { unfold try_except in Ew.
    destruct (wait_for future w) as [w0 [r0|e0|]] eqn:Ew0.
    - inversion Ew; subst. eapply wait_for_consumes, Ew0.
    - destruct e0; cbn in Ew; inversion Ew.
    - inversion Ew. }
  rewrite !(bind_returned _ _ _ _ _ Ew).
  unfold mbind, M_bind, bind, lift, ret, raise.
  destruct (Py.get response "error" JNull) as [|err]; [reflexivity|].
  destruct (Py.truthy err); [reflexivity|].
  destruct (Py.item response "type") as [|ty]; [reflexivity|].
  destruct (Py.eq_str ty "batch_result"); [reflexivity|].
  destruct (Py.eq_str ty "batch_partial").
  - destruct (payload json_loads response) as [|pd]; [reflexivity|].
    destruct (Py.get pd "results" (JArr [])) as [|listed]; [reflexivity|].
    destruct (Py.iter listed) as [|items]; [reflexivity|].
    destruct (each _parse_geo_test_result items) as [|parsed]; [reflexivity|].
    cbv zeta. destruct (length (results ++ parsed) <? length domains)%nat.
    + cbn. apply IH; simpl_world; lia.
    + apply IH; lia.
  - apply IH; lia.
Qed.

Lemma regions_or_default_run given w :
  exists chosen, regions_or_default given w = (w, Returned chosen).
Proof. destruct given as [[|r rs]|]; eexists; reflexivity. Qed.

Lemma try_finally_run {A} (body : M A) cleanup w w1 w2 (r : Outcome A) :
  body w = (w1, r) -> r <> Suspended -> cleanup w1 = (w2, Returned tt) ->
  try_finally body cleanup w = (w2, r).
Proof.
  intros Hb Hr Hc. unfold try_finally. rewrite Hb, Hc. destruct r; congruence.
Qed.

Lemma try_finally_suspended {A} (body : M A) cleanup w w1 :
  body w = (w1, Suspended) -> try_finally body cleanup w = (w1, Suspended).
Proof. intros Hb. unfold try_finally. rewrite Hb. reflexivity. Qed.

Lemma try_finally_bind {A B} (m : M A) (k : A -> M B) cleanup w w1 a :
  m w = (w1, Returned a) ->
  try_finally (m ≫= k) cleanup w = try_finally (k a) cleanup w1.
Proof.
  intros H. unfold try_finally. rewrite (bind_returned _ _ _ _ _ H). reflexivity.
Qed.

Lemma try_finally_ext {A} (body body' : M A) cleanup w w' :
  body w = body' w' -> try_finally body cleanup w = try_finally body' cleanup w'.
Proof. intros H. unfold try_finally. rewrite H. reflexivity. Qed.

Lemma try_except_bind {A B} (m : M A) (k : A -> M B) handler w w1 a :
  m w = (w1, Returned a) ->
  try_except (m ≫= k) handler w = try_except (k a) handler w1.
Proof.
  intros H. unfold try_except. rewrite (bind_returned _ _ _ _ _ H). reflexivity.
Qed.

(** The run of [batch_test] up to the point where the partial replies are
    in: what is left is the loop, on a pending future registered under the
    id of the request, with the results of the partial replies in hand. *)
Lemma batch_test_partials json_loads w domains given partials tail :
  connected w = true -> ws_open w = true -> receiving w = true ->
  domains <> [] ->
  Forall (fun p => partial_reply json_loads (next_id w) (fst p) (snd p)) partials ->
  length (concat (map snd partials)) < length domains ->
  script w = [] :: map delivery partials ++ tail ->
  exists w1 future,
    batch_test json_loads domains given w =
      try_finally (collect json_loads (S (length tail)) domains (next_id w) future
                     (concat (map snd partials)))
        (release (next_id w)) w1
    /\ receiving w1 = true
    /\ _message_handlers w1 !! next_id w = Some future
    /\ futures w1 !! future = Some Pending
    /\ script w1 = tail.
Proof.
  intros Hc Ho Hr Hne Hall Hlt Hs.
  destruct domains as [|d ds]; [congruence|]. clear Hne.
  unfold batch_test. mstep. rewrite Hc. cbn [negb]. cbv iota.
  mstep. destruct (regions_or_default_run given (set_message_counter (_message_counter w + 1) w))
    as [chosen Hch].
  rewrite (bind_returned _ _ _ _ _ Hch). do 4 mstep.
  erewrite try_finally_bind by (apply ws_send_open; [exact Ho|exact Hs]).
  cbn [foldl].
  erewrite try_finally_bind by reflexivity.
  erewrite try_finally_bind by reflexivity.
  simpl_world. rewrite length_app, length_map.
  replace (S (length partials + length tail)) with (length partials + S (length tail)) by lia.
  match goal with
  | |- context [try_finally (collect _ _ _ _ ?f ?r) _ ?w1] =>
      destruct (collect_partials json_loads (d :: ds) (next_id w) (next_id_nonempty w)
                  partials w1 (S (length tail)) f r tail)
        as (w' & future' & Hrun & Hr' & Hh' & Hf' & Hs')
  end;
    [ assumption
    | apply lookup_insert_eq
    | simpl_world; rewrite lookup_app_r by lia; rewrite Nat.sub_diag; reflexivity
    | assumption
    | reflexivity
    | assumption
    | ].
  exists w', future'. rewrite (try_finally_ext _ _ _ _ _ Hrun). auto.
Qed.


(** ** Local registration of a listener *)

Lemma append_listener (m : gmap string (list Callable)) d cb :
  alter (fun l => l ++ [cb]) d
    (match m !! d with
     | None => <[d := []]> m
     | Some _ => m
     end) = <[d := default [] (m !! d) ++ [cb]]> m.
Proof.
  apply map_eq. intros k. destruct (decide (d = k)) as [->|Hne].
  - rewrite lookup_alter_eq, lookup_insert_eq.
    destruct (m !! k) as [l|] eqn:E; cbn.
    + rewrite E. reflexivity.
    + rewrite lookup_insert_eq. reflexivity.
  - rewrite lookup_alter_ne, lookup_insert_ne by assumption.
    destruct (m !! d); [reflexivity|]. apply lookup_insert_ne. assumption.
Qed.

Lemma subscribe_keeps_listener w d cb w' o :
  connected w = true ->
  subscribe d (Some cb) w = (w', o) ->
  _subscriptions w' = <[d := listeners d w ++ [cb]]> (_subscriptions w).
Proof.
  intros Hc. unfold subscribe. mstep. rewrite Hc. cbn [negb]. repeat mstep.
  intros H.
  match type of H with
  | try_finally ?body ?cleanup ?w0 = _ =>
      assert (Hk : keeps _subscriptions (try_finally body cleanup))
        by (repeat first [ apply ws_send_keeps_subscriptions
                         | apply wait_for_keeps_subscriptions
                         | apply log_keeps_subscriptions
                         | apply release_keeps_subscriptions
                         | keeps_step ]);
      specialize (Hk w0)
  end.
  rewrite H in Hk. simpl_world. rewrite Hk. unfold listeners.
  pose proof (append_listener (_subscriptions w) d cb) as Ha.
  destruct (_subscriptions w !! d) as [l|]; simpl_world; exact Ha.
Qed.

Lemma handle_message_update w fields d data :
  update_for d data fields ->
  _handle_message (JObj fields) w = _handle_domain_update (JStr d) data w.
Proof.
  intros (Hid & Hty & Hd & Hx). unfold _handle_message.
  unfold Py.get. rewrite Hid, Hty, Hd, Hx. cbn [default].
  do 3 mstep. reflexivity.
Qed.

(** ** Error replies *)

Section ErrorReplies.
Variable json_loads : string -> option json.
Variables (w : World) (fields : list (string * json)) (err : json)
          (rest : list (list Event)).
Hypothesis w_connected : connected w = true.
Hypothesis w_open : ws_open w = true.
Hypothesis w_receiving : receiving w = true.
Hypothesis reply : error_reply (next_id w) fields err.
Hypothesis w_script : script w = [] :: [Frame (JObj fields)] :: rest.

Lemma test_domain_error_reply d given :
  exists w',
    test_domain json_loads d given w =
      (w', Raised (RuntimeError [Txt "ProxyHawk error: "; Val err])).
Proof.
  destruct reply as (Hid & Herr & Htruthy).
  unfold test_domain. mstep. rewrite w_connected. cbn [negb]. mstep.
  destruct (regions_or_default_run given (set_message_counter (_message_counter w + 1) w))
    as [chosen Hch].
  rewrite (bind_returned _ _ _ _ _ Hch). repeat mstep.
  eexists. eapply try_finally_run; [|discriminate|reflexivity].
  erewrite try_except_bind by (apply ws_send_open; [exact w_open|exact w_script]).
  cbn [foldl].
  erewrite try_except_bind by reflexivity.
  erewrite try_except_bind.
  2:{ eapply wait_for_reply; simpl_world; try eassumption; try reflexivity.
      - apply next_id_nonempty.
      - apply lookup_insert_eq.
      - rewrite lookup_app_r by lia. rewrite Nat.sub_diag. reflexivity. }
  unfold Py.get, Py.item. rewrite Herr. cbn [default from_option id].
  erewrite try_except_bind by reflexivity. cbv beta. rewrite Htruthy.
  erewrite try_except_bind by reflexivity.
  reflexivity.
Qed.

Lemma subscribe_error_reply d callback :
  exists w',
    subscribe d callback w =
      (w', Raised (RuntimeError [Txt "Subscription error: "; Val err])).
Proof.
  destruct reply as (Hid & Herr & Htruthy).
  unfold subscribe. mstep. rewrite w_connected. cbn [negb].
  destruct callback as [cb|];
    [destruct (_subscriptions w !! d) as [l|] eqn:El|];
    repeat (mstep; rewrite ?El; cbv iota; simpl_world);
    (eexists; eapply try_finally_run; [|discriminate|reflexivity];
     erewrite bind_returned by (apply ws_send_open; [exact w_open|exact w_script]);
     cbn [foldl];
     erewrite bind_returned
       by (eapply wait_for_reply; simpl_world;
           [ eassumption | reflexivity | eassumption | apply next_id_nonempty
           | apply lookup_insert_eq
           | rewrite lookup_app_r by lia; rewrite Nat.sub_diag; reflexivity ]);
     unfold Py.get, Py.item; rewrite Herr; cbn [default from_option id];
     mstep; rewrite Htruthy; mstep; reflexivity).
Qed.

End ErrorReplies.

Lemma batch_test_error_reply json_loads w domains given partials fields err rest :
  connected w = true -> ws_open w = true -> receiving w = true ->
  domains <> [] ->
  Forall (fun p => partial_reply json_loads (next_id w) (fst p) (snd p)) partials ->
  length (concat (map snd partials)) < length domains ->
  error_reply (next_id w) fields err ->
  script w = [] :: map delivery partials ++ [Frame (JObj fields)] :: rest ->
  exists w',
    batch_test json_loads domains given w = (w', Returned (concat (map snd partials)))
    /\ last (logged w') = Some (mkLog ERROR [Txt "Batch test error: "; Val err] None).
Proof.
  intros Hc Ho Hr Hne Hall Hlt Hreply Hs.
  destruct (batch_test_partials json_loads w domains given partials
              ([Frame (JObj fields)] :: rest) Hc Ho Hr Hne Hall Hlt Hs)
    as (w1 & future & Hrun & Hr1 & Hh1 & Hf1 & Hs1).
  eexists. rewrite Hrun. split.
  - eapply try_finally_run; [|discriminate|reflexivity].
    eapply collect_error_round; eauto using next_id_nonempty.
  - simpl_world. apply last_snoc.
Qed.

(** ** Subscribing *)

Lemma subscribe_before_send w d cb fields data :
  connected w = true -> ws_open w = true -> receiving w = true ->
  update_for d data fields ->
  script w = [[Frame (JObj fields)]] ->
  Forall (tame (JStr d) data) (listeners d w ++ [cb] ++ global_listeners w) ->
  exists w',
    subscribe d (Some cb) w = (w', Suspended)
    /\ called w' =
         called w ++ map (invocation (JStr d) data)
                       (listeners d w ++ [cb] ++ global_listeners w)
    /\ futures w' !! length (futures w) = Some Pending.
Proof.
  intros Hc Ho Hr Hupd Hs Htame.
  unfold subscribe. mstep. rewrite Hc. cbn [negb]. do 3 mstep.
  match goal with
  | |- context [set_subscriptions ?s _] =>
      match s with
      | alter _ _ _ =>
          replace s with (<[d := listeners d w ++ [cb]]> (_subscriptions w))
      end
  end.
  2:{ symmetry. pose proof (append_listener (_subscriptions w) d cb) as Ha.
      unfold listeners. destruct (_subscriptions w !! d); simpl_world; exact Ha. }
  match goal with
  | |- context [set_subscriptions ?S (match ?x with Some _ => ?a | None => ?b end)] =>
      replace (set_subscriptions S (match x with Some _ => a | None => b end))
        with (set_subscriptions S a) by (destruct x; reflexivity)
  end.
  do 2 mstep.
  erewrite try_finally_suspended.
  2:{ erewrite bind_returned by (apply ws_send_open; [exact Ho|exact Hs]).
      cbn [foldl happen]. unfold _message_receiver. simpl_world. rewrite Hr.
      rewrite (handle_message_update _ _ _ _ Hupd).
      rewrite handle_domain_update_spec.
      2:{ unfold listeners, global_listeners in *. simpl_world.
          rewrite lookup_insert_eq. cbn [default from_option id].
          rewrite <- app_assoc. exact Htame. }
      cbn [fst snd]. apply bind_suspended, wait_for_idle. reflexivity. }
  eexists. split; [reflexivity|]. unfold listeners, global_listeners. simpl_world.
  rewrite lookup_insert_eq. cbn [default from_option id]. rewrite <- app_assoc.
  split; [reflexivity|].
  rewrite lookup_app_r by lia. rewrite Nat.sub_diag. reflexivity.
Qed.

Lemma subscribe_closed_transport w d cb :
  connected w = true -> ws_open w = false ->
  exists w',
    subscribe d (Some cb) w = (w', Raised ConnectionClosed)
    /\ ws_sent w' = ws_sent w
    /\ listeners d w' = listeners d w ++ [cb].
Proof.
  intros Hc Ho. destruct (subscribe d (Some cb) w) as [w' o] eqn:E.
  pose proof (subscribe_keeps_listener _ _ _ _ _ Hc E) as Hk.
  revert E. unfold subscribe. mstep. rewrite Hc. cbn [negb]. repeat mstep.
  erewrite try_finally_run;
    [ | apply bind_raised, ws_send_closed; destruct (_subscriptions w !! d); exact Ho
      | discriminate | reflexivity ].
  intros E. injection E as Hw Hout. exists w'. split; [rewrite <- Hout; reflexivity|].
  split.
  - rewrite <- Hw. destruct (_subscriptions w !! d); reflexivity.
  - unfold listeners at 1. rewrite Hk, lookup_insert_eq. reflexivity.
Qed.

(** ** Unsubscribing *)

(** Whatever happens around it, a call of [unsubscribe] that completes has
    been acknowledged, its future holding the reply, or has timed out, its
    future cancelled. *)
Lemma unsubscribe_completed w d w' :
  connected w = true ->
  unsubscribe d w = (w', Returned tt) ->
  (exists ack, futures w' !! length (futures w) = Some (Finished ack)
               /\ _subscriptions w' !! d = None
               /\ listeners d w' = [])
  \/ (futures w' !! length (futures w) = Some Cancelled
      /\ _subscriptions w' = _subscriptions w
      /\ last (logged w') =
           Some (mkLog WARNING [Txt "Unsubscribe timeout for domain: "; Val (JStr d)] None)).
Proof.
  intros Hc. unfold unsubscribe. mstep. rewrite Hc. cbn [negb]. do 4 mstep.
  match goal with |- context [ws_send ?r] => generalize r; intros request end.
  set (w0 := set_message_handlers _ _).
  assert (Hs0 : _subscriptions w0 = _subscriptions w) by reflexivity.
  revert Hs0. generalize w0. clear w0. intros w0 Hs0.
  unfold try_finally, try_except.
  pose proof (ws_send_keeps_subscriptions request w0) as Hs1.
  destruct (ws_send request w0) as [w1 [[]|e|]] eqn:Es; cbn in Hs1.
  - rewrite (bind_returned _ _ _ _ _ Es).
    pose proof (wait_for_cases (length (futures w)) w1) as Hw.
    pose proof (wait_for_keeps_subscriptions (length (futures w)) w1) as Hs2.
    destruct (wait_for (length (futures w)) w1) as [w2 [r|e|]] eqn:Ew; cbn in Hs2.
    + rewrite (bind_returned _ _ _ _ _ Ew). unfold log, release. run.
      intros E. inversion E; subst; clear E. simpl_world. left. exists r.
      split; [assumption|]. unfold listeners. simpl_world.
      rewrite lookup_delete_eq. split; reflexivity.
    + rewrite (bind_raised _ _ _ _ _ Ew).
      destruct e; cbn; unfold log, release; run; intros E; inversion E; subst; clear E.
      simpl_world. right. split; [assumption|]. split; [congruence|]. apply last_snoc.
    + rewrite (bind_suspended _ _ _ _ Ew). intros E; inversion E.
  - rewrite (bind_raised _ _ _ _ _ Es).
    destruct e; cbn; unfold log, release; run; intros E; inversion E; subst; clear E.
    exfalso. clear -Es. unfold ws_send in Es. revert Es. run. destruct (ws_open w0); cbn.
    + unfold yield. destruct (script _); cbn; intros E; inversion E.
    + intros E; inversion E.
  - rewrite (bind_suspended _ _ _ _ Es). intros E; inversion E.
Qed.

Lemma try_except_timeout {A} (body handler : M A) w w1 :
  body w = (w1, Raised AsyncTimeoutError) ->
  try_except body (except_TimeoutError handler) w = handler w1.
Proof. intros Hb. unfold try_except. rewrite Hb. reflexivity. Qed.

Lemma unsubscribe_acknowledged w d fields rest :
  connected w = true -> ws_open w = true -> receiving w = true ->
  Py.field "id" fields = Some (JStr (next_id w)) ->
  script w = [] :: [Frame (JObj fields)] :: rest ->
  exists w',
    unsubscribe d w = (w', Returned tt)
    /\ _subscriptions w' = delete d (_subscriptions w)
    /\ script w' = rest.
Proof.
  intros Hc Ho Hr Hid Hs.
  unfold unsubscribe. mstep. rewrite Hc. cbn [negb]. repeat mstep.
  eexists. split.
  - eapply try_finally_run; [|discriminate|reflexivity].
    erewrite try_except_bind by (apply ws_send_open; [exact Ho|exact Hs]).
    cbn [foldl].
    erewrite try_except_bind
      by (eapply wait_for_reply; simpl_world;
          [ eassumption | reflexivity | eassumption | apply next_id_nonempty
          | apply lookup_insert_eq
          | rewrite lookup_app_r by lia; rewrite Nat.sub_diag; reflexivity ]).
    apply try_except_returned. do 1 mstep. reflexivity.
  - simpl_world. split; reflexivity.
Qed.

Lemma unsubscribe_unanswered w d rest :
  connected w = true -> ws_open w = true ->
  script w = [] :: [] :: rest ->
  exists w',
    unsubscribe d w = (w', Returned tt)
    /\ _subscriptions w' = _subscriptions w
    /\ last (logged w') =
         Some (mkLog WARNING [Txt "Unsubscribe timeout for domain: "; Val (JStr d)] None)
    /\ script w' = rest.
Proof.
  intros Hc Ho Hs.
  unfold unsubscribe. mstep. rewrite Hc. cbn [negb]. repeat mstep.
  eexists. split.
  - eapply try_finally_run; [|discriminate|reflexivity].
    erewrite try_except_bind by (apply ws_send_open; [exact Ho|exact Hs]).
    cbn [foldl].
    erewrite try_except_timeout
      by (apply bind_raised, wait_for_silence; simpl_world;
          [ reflexivity
          | rewrite lookup_app_r by lia; rewrite Nat.sub_diag; reflexivity ]).
    reflexivity.
  - simpl_world. split; [reflexivity|]. split; [apply last_snoc|reflexivity].
Qed.

Lemma subscribe_unanswered w d callback rest :
  connected w = true -> ws_open w = true ->
  script w = [] :: [] :: rest ->
  exists w', subscribe d callback w = (w', Raised AsyncTimeoutError).
Proof.
  intros Hc Ho Hs.
  unfold subscribe. mstep. rewrite Hc. cbn [negb].
  destruct callback as [cb|];
    [destruct (_subscriptions w !! d) as [l|] eqn:El|];
    repeat (mstep; rewrite ?El; cbv iota; simpl_world);
    (eexists; eapply try_finally_run; [|discriminate|reflexivity];
     erewrite bind_returned by (apply ws_send_open; [exact Ho|exact Hs]);
     cbn [foldl];
     apply bind_raised, wait_for_silence; simpl_world;
     [ reflexivity
     | rewrite lookup_app_r by lia; rewrite Nat.sub_diag; reflexivity ]).
Qed.

(** ** Identifiers of successive requests *)

Lemma digit_plain (n : N) : Ascii.eqb (pretty_N_char n) "_"%char = false.
Proof. unfold pretty_N_char. repeat case_match; reflexivity. Qed.

Lemma pretty_N_go_plain (x : N) : forall s, plain s = true -> plain (pretty_N_go x s) = true.
Proof.
  induction (N.lt_wf_0 x) as [x _ IH]. intros s Hs.
  destruct (decide (x = 0)%N) as [->|Hx].
  - rewrite pretty_N_go_0. exact Hs.
  - rewrite pretty_N_go_step by lia. apply IH.
    + apply N.div_lt; lia.
    + cbn [plain]. rewrite digit_plain. exact Hs.
Qed.

Lemma pretty_N_plain (x : N) : plain (pretty x) = true.
Proof.
  unfold pretty, pretty_N. case_decide; [reflexivity|].
  apply pretty_N_go_plain. reflexivity.
Qed.

Lemma pretty_Z_plain (z : Z) : plain (pretty z) = true.
Proof.
  destruct z as [|p|p]; [reflexivity| |].
  - apply (pretty_N_plain (Npos p)).
  - change (pretty (Zneg p)) with ("-" +:+ pretty (Npos p)).
    cbn [String.append plain]. apply (pretty_N_plain (Npos p)).
Qed.

Lemma split_at_underscore (a : string) : forall a' b b',
  plain a = true -> plain a' = true ->
  a +:+ "_" +:+ b = a' +:+ "_" +:+ b' -> a = a' /\ b = b'.
Proof.
  induction a as [|c a IH]; intros [|c' a'] b b' Ha Ha' E; cbn in *.
  - inversion E. auto.
  - inversion E; subst. cbn in Ha'. discriminate.
  - inversion E; subst. cbn in Ha. discriminate.
  - inversion E; subst.
    apply andb_true_iff in Ha as [_ Ha], Ha' as [_ Ha'].
    destruct (IH a' b b' Ha Ha' H1) as [-> ->]. auto.
Qed.

(** Two identifiers are equal only if they were made at the same clock
    reading from the same counter: the identifiers one client makes for its
    successive requests, the counter going up by one each time, all
    differ. *)
Lemma next_id_inj w1 w2 :
  next_id w1 = next_id w2 ->
  clock w1 = clock w2 /\ _message_counter w1 = _message_counter w2.
Proof.
  unfold next_id. intros E. cbn in E. inversion E as [E'].
  apply split_at_underscore in E' as [Ht Hc]; try apply pretty_Z_plain.
  apply (inj pretty) in Ht, Hc. split; [exact Ht|lia].
Qed.

(** * The claims *)

(** C1 (as amended).  On a connected client, a call of [unsubscribe] whose
    acknowledgment arrives returns with no listener left in the table for
    the domain; a call whose wait for the acknowledgment expires logs the
    timeout, raises nothing and returns with the table as it was: the
    listeners of the domain stay.  Whatever happens around a call, if it
    completes it is one or the other: acknowledged, its future holding the
    reply, and the listeners removed, or timed out, its future cancelled,
    and the table unchanged. *)
Theorem unsubscribe_removes_only_on_ack w d :
  connected w = true ->
  (ws_open w = true -> receiving w = true ->
   forall fields rest,
     Py.field "id" fields = Some (JStr (next_id w)) ->
     script w = [] :: [Frame (JObj fields)] :: rest ->
     exists w',
       unsubscribe d w = (w', Returned tt)
       /\ _subscriptions w' = delete d (_subscriptions w)
       /\ listeners d w' = [])
  /\ (ws_open w = true ->
      forall rest,
        script w = [] :: [] :: rest ->
        exists w',
          unsubscribe d w = (w', Returned tt)
          /\ _subscriptions w' = _subscriptions w
          /\ last (logged w') =
               Some (mkLog WARNING [Txt "Unsubscribe timeout for domain: "; Val (JStr d)]
                       None))
  /\ (forall w',
        unsubscribe d w = (w', Returned tt) ->
        (exists ack, futures w' !! length (futures w) = Some (Finished ack)
                     /\ _subscriptions w' !! d = None
                     /\ listeners d w' = [])
        \/ (futures w' !! length (futures w) = Some Cancelled
            /\ _subscriptions w' = _subscriptions w
            /\ last (logged w') =
                 Some (mkLog WARNING [Txt "Unsubscribe timeout for domain: "; Val (JStr d)]
                         None))).
Proof.
  intros Hc. split; [|split].
  - intros Ho Hr fields rest Hid Hs.
    destruct (unsubscribe_acknowledged w d fields rest Hc Ho Hr Hid Hs)
      as (w' & Hrun & Hsub & _).
    exists w'. split; [exact Hrun|]. split; [exact Hsub|].
    unfold listeners. rewrite Hsub, lookup_delete_eq. reflexivity.
  - intros Ho rest Hs.
    destruct (unsubscribe_unanswered w d rest Hc Ho Hs) as (w' & Hrun & Hsub & Hlog & _).
    exists w'. auto.
  - intros w' Hrun. apply unsubscribe_completed; assumption.
Qed.

(** The request gets no reply: the wait of [unsubscribe] expires, the call
    returns and the listeners of a.com are where they were. *)
Lemma unsubscribe_removes_only_on_ack_witness :
  exists w',
    unsubscribe "a.com" (watching [[]; []]) = (w', Returned tt)
    /\ _subscriptions w' = _subscriptions (watching [[]; []])
    /\ last (logged w') =
         Some (mkLog WARNING [Txt "Unsubscribe timeout for domain: "; Val (JStr "a.com")]
                 None).
Proof.
  apply (proj1 (proj2 (unsubscribe_removes_only_on_ack (watching [[]; []]) "a.com" eq_refl))
           eq_refl []).
  reflexivity.
Defined.

(** C1, as stated, fails: with listeners registered for a.com, a call of
    [unsubscribe] whose wait for the acknowledgment expires returns with
    both listeners still in the table; and so does a call on a client that
    is not connected. *)
Lemma unsubscribe_timeout_keeps_listeners :
  (snd (unsubscribe "a.com" (watching [[]; []])) = Returned tt
   /\ listeners "a.com" (fst (unsubscribe "a.com" (watching [[]; []])))
      = [faulty_listener; quiet_listener])
  /\ (snd (unsubscribe "a.com" (set_connected false (watching []))) = Returned tt
      /\ listeners "a.com" (fst (unsubscribe "a.com" (set_connected false (watching []))))
         = [faulty_listener; quiet_listener]).
Proof. repeat split; vm_compute; reflexivity. Qed.




(** C3.  An inbound envelope whose non-empty id is registered with a pending
    future is delivered to that future, whatever its type, and to nothing
    else: the step changes the future and leaves the rest of the state, the
    trace of callback invocations and the log included, as it was. *)
Theorem response_routed_to_handle w fields mid future :
  Py.field "id" fields = Some (JStr mid) -> mid <> "" ->
  _message_handlers w !! mid = Some future ->
  futures w !! future = Some Pending ->
  exists w',
    _handle_message (JObj fields) w = (w', Returned tt)
    /\ w' = set_futures (<[future := Finished (JObj fields)]> (futures w)) w
    /\ futures w' !! future = Some (Finished (JObj fields))
    /\ called w' = called w
    /\ logged w' = logged w
    /\ _subscriptions w' = _subscriptions w
    /\ _message_handlers w' = _message_handlers w.
Proof.
  intros Hid Hne Hh Hf. eexists. split.
  - apply (handle_message_routed w fields mid future); assumption.
  - split; [reflexivity|]. simpl_world.
    rewrite list_lookup_insert_eq by (eapply lookup_lt_Some, Hf). auto.
Qed.

(** A [domain_update] for a domain with listeners that echoes the id of the
    outstanding request goes to the request and reaches no listener. *)
Lemma response_routed_to_handle_witness :
  exists w',
    _handle_message (JObj echoed_update) (awaiting Pending) = (w', Returned tt)
    /\ w' = set_futures (<[0 := Finished (JObj echoed_update)]> (futures (awaiting Pending)))
              (awaiting Pending)
    /\ futures w' !! 0 = Some (Finished (JObj echoed_update))
    /\ called w' = called (awaiting Pending)
    /\ logged w' = logged (awaiting Pending)
    /\ _subscriptions w' = _subscriptions (awaiting Pending)
    /\ _message_handlers w' = _message_handlers (awaiting Pending).
Proof.
  apply (response_routed_to_handle (awaiting Pending) echoed_update first_id 0).
  - reflexivity.
  - discriminate.
  - reflexivity.
  - reflexivity.
Defined.




(** C5 (as amended).  On a client that is not connected, [test_domain],
    [batch_test], [subscribe] and [get_regions] raise the not-connected
    error at once and [unsubscribe] returns at once without an error; none
    of them changes the state, so none hands a frame to the transport. *)
Theorem disconnected_requests json_loads w :
  connected w = false ->
  (forall d given,
     test_domain json_loads d given w = (w, Raised not_connected_error))
  /\ (forall domains given,
        batch_test json_loads domains given w = (w, Raised not_connected_error))
  /\ (forall d callback, subscribe d callback w = (w, Raised not_connected_error))
  /\ get_regions json_loads w = (w, Raised not_connected_error)
  /\ (forall d, unsubscribe d w = (w, Returned tt)).
Proof.
  intros Hc. repeat split; intros;
    [ unfold test_domain | unfold batch_test | unfold subscribe | unfold get_regions
    | unfold unsubscribe ];
    mstep; rewrite Hc; reflexivity.
Qed.

Lemma disconnected_requests_witness :
  test_domain undecodable "a.com" None offline = (offline, Raised not_connected_error)
  /\ unsubscribe "a.com" offline = (offline, Returned tt)
  /\ ws_sent offline = [].
Proof.
  destruct (disconnected_requests undecodable offline eq_refl) as (Ht & _ & _ & _ & Hu).
  split; [apply Ht|]. split; [apply Hu|]. reflexivity.
Defined.

(** C5, as stated, fails for [unsubscribe]: called on a client that is not
    connected it returns normally instead of raising the not-connected
    error. *)
Lemma unsubscribe_disconnected_returns :
  unsubscribe "a.com" offline = (offline, Returned tt)
  /\ snd (unsubscribe "a.com" offline) <> Raised not_connected_error.
Proof. split; [reflexivity|discriminate]. Qed.

(** C6 (as amended).  When the reply delivered to a waiting request carries
    an [error] field that is truthy, a non-empty string in particular,
    [test_domain] and [subscribe] raise a RuntimeError that carries it and
    return no payload, while [batch_test] logs the error and returns what it
    has collected from the partial replies before it, nothing if there were
    none, as an ordinary result. *)
Theorem error_reply_outcomes json_loads w fields err rest :
  connected w = true -> ws_open w = true -> receiving w = true ->
  error_reply (next_id w) fields err ->
  (script w = [] :: [Frame (JObj fields)] :: rest ->
   (forall d given,
      snd (test_domain json_loads d given w)
      = Raised (RuntimeError [Txt "ProxyHawk error: "; Val err]))
   /\ (forall d callback,
         snd (subscribe d callback w)
         = Raised (RuntimeError [Txt "Subscription error: "; Val err])))
  /\ (forall domains given partials,
        domains <> [] ->
        Forall (fun p => partial_reply json_loads (next_id w) (fst p) (snd p)) partials ->
        length (concat (map snd partials)) < length domains ->
        script w = [] :: map delivery partials ++ [Frame (JObj fields)] :: rest ->
        snd (batch_test json_loads domains given w) = Returned (concat (map snd partials))
        /\ last (logged (fst (batch_test json_loads domains given w)))
           = Some (mkLog ERROR [Txt "Batch test error: "; Val err] None)).
Proof.
  intros Hc Ho Hr Hreply. split.
  - intros Hs. split.
    + intros d given.
      destruct (test_domain_error_reply json_loads w fields err rest Hc Ho Hr Hreply Hs
                  d given) as [w' ->]. reflexivity.
    + intros d callback.
      destruct (subscribe_error_reply w fields err rest Hc Ho Hr Hreply Hs d callback)
        as [w' ->]. reflexivity.
  - intros domains given partials Hne Hall Hlt Hs.
    destruct (batch_test_error_reply json_loads w domains given partials fields err rest
                Hc Ho Hr Hne Hall Hlt Hreply Hs) as (w' & -> & Hlog).
    split; [reflexivity|exact Hlog].
Qed.

Lemma error_reply_outcomes_witness :
  snd (test_domain undecodable "a.com" None (session [[]; [Frame (JObj refusal)]]))
  = Raised (RuntimeError [Txt "ProxyHawk error: "; Val (JStr "rate limited")])
  /\ snd (subscribe "a.com" None (session [[]; [Frame (JObj refusal)]]))
     = Raised (RuntimeError [Txt "Subscription error: "; Val (JStr "rate limited")]).
Proof.
  destruct (error_reply_outcomes undecodable (session [[]; [Frame (JObj refusal)]])
              refusal (JStr "rate limited") []
              eq_refl eq_refl eq_refl
              ltac:(repeat split)) as [Hsingle _].
  destruct (Hsingle eq_refl) as [Ht Hsub].
  split; [apply Ht|apply Hsub].
Defined.

(** C6, as stated, fails: given a reply whose [error] field is a non-empty
    string, [batch_test] returns an ordinary, empty result, and
    [get_regions], which does not look at the field, returns the payload of
    the reply. *)
Lemma error_reply_returned_as_success :
  snd (batch_test undecodable ["a.com"] None (session [[]; [Frame (JObj refusal)]]))
  = Returned []
  /\ snd (get_regions undecodable (session [[]; [Frame (JObj refusal)]]))
     = Returned (JArr [JStr "us-west"]).
Proof. split; vm_compute; reflexivity. Qed.

(** C7 (as amended).  Dispatching an update for a domain invokes the
    listeners registered for the domain, in insertion order, and then the
    global listener if one is set.  An exception raised by a listener that
    is an instance of [Exception] is caught and logged, and the listeners
    after it and the global listener are invoked all the same; when no
    listener raises anything else the dispatch returns, every one of them
    called.  An exception that is no instance of [Exception], such as
    [asyncio.CancelledError], is not caught: the dispatch ends at the
    listener that raises it, with that exception, and neither the listeners
    after it nor the global listener are invoked; raised by the global
    listener, it ends the dispatch after every listener of the domain was
    called.  An unsolicited [domain_update] envelope is handled by exactly
    this dispatch. *)
Theorem dispatch_reaches_every_listener w d data :
  (Forall (tame (JStr d) data) (listeners d w ++ global_listeners w) ->
   exists w',
     _handle_domain_update (JStr d) data w = (w', Returned tt)
     /\ called w' =
          called w ++ map (invocation (JStr d) data) (listeners d w ++ global_listeners w)
     /\ logged w' =
          logged w
          ++ flat_map (complaint (JStr d) data (domain_label (JStr d))) (listeners d w)
          ++ flat_map (complaint (JStr d) data global_label) (global_listeners w)
     /\ _subscriptions w' = _subscriptions w)
  /\ (forall pre callback post e,
        listeners d w = pre ++ callback :: post ->
        Forall (tame (JStr d) data) pre -> wild (JStr d) data callback e ->
        exists w',
          _handle_domain_update (JStr d) data w = (w', Raised e)
          /\ called w' = called w ++ map (invocation (JStr d) data) (pre ++ [callback])
          /\ logged w' =
               logged w ++ flat_map (complaint (JStr d) data (domain_label (JStr d))) pre
          /\ _subscriptions w' = _subscriptions w)
  /\ (forall callback e,
        Forall (tame (JStr d) data) (listeners d w) ->
        global_listeners w = [callback] -> wild (JStr d) data callback e ->
        exists w',
          _handle_domain_update (JStr d) data w = (w', Raised e)
          /\ called w' =
               called w ++ map (invocation (JStr d) data) (listeners d w ++ [callback])
          /\ logged w' =
               logged w
               ++ flat_map (complaint (JStr d) data (domain_label (JStr d))) (listeners d w)
          /\ _subscriptions w' = _subscriptions w)
  /\ (forall fields,
        update_for d data fields ->
        _handle_message (JObj fields) w = _handle_domain_update (JStr d) data w).
Proof.
  split; [|split; [|split]].
  - intros Ht. eexists. split; [apply handle_domain_update_spec, Ht|].
    simpl_world. auto.
  - intros pre callback post e Hl Ht Hw. eexists. split.
    + eapply handle_domain_update_interrupted; eassumption.
    + simpl_world. auto.
  - intros callback e Ht Hg Hw. eexists. split.
    + eapply handle_domain_update_global_interrupted; eassumption.
    + simpl_world. auto.
  - intros fields Hupd. apply handle_message_update, Hupd.
Qed.

(** The first listener of a.com raises an [Exception]: the second and the
    global listener are called after it, and one error is logged.  The
    first listener of a.com raises [asyncio.CancelledError]: the dispatch
    ends with it and nothing else is called. *)
Lemma dispatch_reaches_every_listener_witness :
  (exists w',
     _handle_domain_update (JStr "a.com") (JNum 7) (watching []) = (w', Returned tt)
     /\ called w' = [(2, JStr "a.com", JNum 7); (1, JStr "a.com", JNum 7);
                     (3, JStr "a.com", JNum 7)]
     /\ logged w' = [mkLog ERROR (domain_label (JStr "a.com"))
                       (Some (UserError "listener failed"))]
     /\ _subscriptions w' = _subscriptions (watching []))
  /\ (exists w',
        _handle_domain_update (JStr "a.com") (JNum 7) interrupted
        = (w', Raised CancelledError)
        /\ called w' = [(4, JStr "a.com", JNum 7)]
        /\ logged w' = []
        /\ _subscriptions w' = _subscriptions interrupted).
Proof.
  split.
  - apply (proj1 (dispatch_reaches_every_listener (watching []) "a.com" (JNum 7))).
    repeat constructor; intros e H; vm_compute in H; inversion H; reflexivity.
  - apply (proj1 (proj2 (dispatch_reaches_every_listener interrupted "a.com" (JNum 7)))
             [] cancelling_listener [quiet_listener] CancelledError).
    + reflexivity.
    + constructor.
    + split; reflexivity.
Defined.

(** C7, as stated, fails: the first listener of a.com raises
    [asyncio.CancelledError], which is no [Exception]; the dispatch raises
    it, and neither the second listener of a.com nor the global listener is
    invoked.  The receive loop that ran the dispatch ends with it. *)
Lemma cancelled_listener_ends_dispatch :
  snd (_handle_domain_update (JStr "a.com") (JNum 7) interrupted) = Raised CancelledError
  /\ called (fst (_handle_domain_update (JStr "a.com") (JNum 7) interrupted))
     = [(4, JStr "a.com", JNum 7)]
  /\ global_listeners interrupted = [global_listener]
  /\ listeners "a.com" interrupted = [cancelling_listener; quiet_listener]
  /\ receiving (happen interrupted (Frame (JObj update_a))) = false.
Proof. repeat split; vm_compute; reflexivity. Qed.

(** C8.  [subscribe] registers the callback in the local table before it
    sends.  On a transport that refuses the frame nothing is sent and the
    callback is registered all the same; on an open transport, an update for
    the domain that arrives while the subscribe frame is still draining,
    before any reply can have come back, is dispatched to the listeners
    registered earlier and then to the new callback, with [subscribe] left
    waiting for its acknowledgment on a pending future.  Wherever the call
    has got to, suspended at either await, returned or failed, the callback
    is the last listener of the domain. *)
Theorem subscribe_registers_before_send w d cb :
  connected w = true ->
  (ws_open w = false ->
   exists w',
     subscribe d (Some cb) w = (w', Raised ConnectionClosed)
     /\ ws_sent w' = ws_sent w
     /\ listeners d w' = listeners d w ++ [cb])
  /\ (forall fields data,
        ws_open w = true -> receiving w = true ->
        update_for d data fields ->
        script w = [[Frame (JObj fields)]] ->
        Forall (tame (JStr d) data) (listeners d w ++ [cb] ++ global_listeners w) ->
        exists w',
          subscribe d (Some cb) w = (w', Suspended)
          /\ called w' =
               called w ++ map (invocation (JStr d) data)
                             (listeners d w ++ [cb] ++ global_listeners w)
          /\ futures w' !! length (futures w) = Some Pending)
  /\ (forall w' o,
        subscribe d (Some cb) w = (w', o) -> listeners d w' = listeners d w ++ [cb]).
Proof.
  intros Hc. split; [|split].
  - intros Ho. apply subscribe_closed_transport; assumption.
  - intros fields data Ho Hr Hupd Hs Ht. apply (subscribe_before_send w d cb fields data);
      assumption.
  - intros w' o Hrun. unfold listeners at 1.
    rewrite (subscribe_keeps_listener _ _ _ _ _ Hc Hrun), lookup_insert_eq. reflexivity.
Qed.

(** An update for a.com arrives while the subscribe frame is draining: the
    callback just registered is invoked. *)
Lemma subscribe_registers_before_send_witness :
  exists w',
    subscribe "a.com" (Some quiet_listener) (session [[Frame (JObj update_a)]])
    = (w', Suspended)
    /\ called w' = [(1, JStr "a.com", JObj [("changed", JBool true)])]
    /\ futures w' !! 0 = Some Pending.
Proof.
  apply (proj1 (proj2 (subscribe_registers_before_send (session [[Frame (JObj update_a)]])
                         "a.com" quiet_listener eq_refl))
           update_a (JObj [("changed", JBool true)]) eq_refl eq_refl).
  - repeat split.
  - reflexivity.
  - repeat constructor; intros e H; vm_compute in H; inversion H.
Defined.

(** C9.  A call of [subscribe] with a callback on a connected client that
    fails, for whatever reason, leaves the callback in the local table,
    after the listeners that were there: no registration is rolled back, and
    an update for the domain dispatched afterwards invokes the callback.
    The call does fail, with the callback registered, when the
    acknowledgment carries a truthy [error] field, a non-empty string in
    particular, and when the wait for the acknowledgment expires. *)
Theorem failed_subscribe_keeps_listener w d cb :
  connected w = true ->
  (forall w' e,
     subscribe d (Some cb) w = (w', Raised e) ->
     listeners d w' = listeners d w ++ [cb]
     /\ forall data,
          Forall (tame (JStr d) data) (listeners d w' ++ global_listeners w') ->
          called (fst (_handle_domain_update (JStr d) data w'))
          = called w' ++ map (invocation (JStr d) data)
                           (listeners d w ++ [cb] ++ global_listeners w'))
  /\ (ws_open w = true -> receiving w = true ->
      forall fields err rest,
        error_reply (next_id w) fields err ->
        script w = [] :: [Frame (JObj fields)] :: rest ->
        exists w',
          subscribe d (Some cb) w
          = (w', Raised (RuntimeError [Txt "Subscription error: "; Val err]))
          /\ listeners d w' = listeners d w ++ [cb])
  /\ (ws_open w = true ->
      forall rest,
        script w = [] :: [] :: rest ->
        exists w',
          subscribe d (Some cb) w = (w', Raised AsyncTimeoutError)
          /\ listeners d w' = listeners d w ++ [cb]).
Proof.
  intros Hc.
  assert (Hkept : forall w' o,
            subscribe d (Some cb) w = (w', o) -> listeners d w' = listeners d w ++ [cb]).
  { intros w' o Hrun. unfold listeners at 1.
    rewrite (subscribe_keeps_listener _ _ _ _ _ Hc Hrun), lookup_insert_eq. reflexivity. }
  split; [|split].
  - intros w' e Hrun. pose proof (Hkept _ _ Hrun) as Hl.
    split; [exact Hl|].
    intros data Ht. rewrite handle_domain_update_spec by exact Ht.
    simpl_world. rewrite Hl, <- app_assoc. reflexivity.
  - intros Ho Hr fields err rest Hreply Hs.
    destruct (subscribe_error_reply w fields err rest Hc Ho Hr Hreply Hs d (Some cb))
      as [w' Hrun].
    exists w'. split; [exact Hrun|]. eapply Hkept, Hrun.
  - intros Ho rest Hs.
    destruct (subscribe_unanswered w d (Some cb) rest Hc Ho Hs) as [w' Hrun].
    exists w'. split; [exact Hrun|]. eapply Hkept, Hrun.
Qed.

(** Both failures on a fresh client: the acknowledgment reports an error,
    and no acknowledgment comes.  The callback stays registered. *)
Lemma failed_subscribe_keeps_listener_witness :
  (exists w',
     subscribe "a.com" (Some quiet_listener) (session [[]; [Frame (JObj refusal)]])
     = (w', Raised (RuntimeError [Txt "Subscription error: "; Val (JStr "rate limited")]))
     /\ listeners "a.com" w' = [quiet_listener])
  /\ (exists w',
        subscribe "a.com" (Some quiet_listener) (session [[]; []])
        = (w', Raised AsyncTimeoutError)
        /\ listeners "a.com" w' = [quiet_listener]).
Proof.
  split.
  - apply (proj1 (proj2 (failed_subscribe_keeps_listener
                           (session [[]; [Frame (JObj refusal)]]) "a.com" quiet_listener
                           eq_refl))
             eq_refl eq_refl refusal (JStr "rate limited") []).
    + repeat split.
    + reflexivity.
  - apply (proj2 (proj2 (failed_subscribe_keeps_listener
                           (session [[]; []]) "a.com" quiet_listener eq_refl))
             eq_refl []).
    reflexivity.
Defined.

(** C10.  An inbound envelope whose id is registered with a future that is
    done already, resolved or cancelled, is dropped: the step returns and
    leaves the whole state as it was, so that nothing is delivered a second
    time and no listener is invoked, whatever the type of the envelope. *)
Theorem spent_handle_drops_message w fields mid future st :
  Py.field "id" fields = Some (JStr mid) -> mid <> "" ->
  _message_handlers w !! mid = Some future ->
  futures w !! future = Some st -> st <> Pending ->
  _handle_message (JObj fields) w = (w, Returned tt).
Proof.
  intros Hid Hne Hh Hf Hst.
  apply (handle_message_spent w fields mid future); try assumption.
  rewrite Hf. congruence.
Qed.

(** A [domain_update] for a.com, which has listeners, that echoes the id of
    a request whose future holds its reply already: nothing happens. *)
Lemma spent_handle_drops_message_witness :
  _handle_message (JObj echoed_update) (awaiting (Finished (JObj refusal)))
  = (awaiting (Finished (JObj refusal)), Returned tt).
Proof.
  apply (spent_handle_drops_message (awaiting (Finished (JObj refusal))) echoed_update
           first_id 0 (Finished (JObj refusal))).
  - reflexivity.
  - discriminate.
  - reflexivity.
  - reflexivity.
  - discriminate.
Defined.

(** * Further properties of the client *)

(** ** What the receive loop leaves alone *)

#[local] Instance message_handlers_steady : Steady _message_handlers.
Proof. split; reflexivity. Qed.

#[local] Instance message_counter_steady : Steady _message_counter.
Proof. split; reflexivity. Qed.

#[local] Instance global_update_callback_steady : Steady _global_update_callback.
Proof. split; reflexivity. Qed.

#[local] Instance ws_sent_steady : Steady ws_sent.
Proof. split; reflexivity. Qed.

#[local] Instance config_steady : Steady config.
Proof. split; reflexivity. Qed.

(** X1.  Whatever arrives in a turn, frames of any content, garbage, the
    loss of the connection, the receive loop registers and removes no
    handle and no listener, leaves the global listener and the counter of
    message ids as they are, and hands nothing to the transport. *)
Theorem receive_loop_leaves_tables turn w :
  _message_handlers (foldl happen w turn) = _message_handlers w
  /\ _subscriptions (foldl happen w turn) = _subscriptions w
  /\ _global_update_callback (foldl happen w turn) = _global_update_callback w
  /\ _message_counter (foldl happen w turn) = _message_counter w
  /\ ws_sent (foldl happen w turn) = ws_sent w.
Proof.
  repeat split.
  - apply (turn_steady _message_handlers).
  - apply (turn_steady _subscriptions).
  - apply (turn_steady _global_update_callback).
  - apply (turn_steady _message_counter).
  - apply (turn_steady ws_sent).
Qed.

(** ** Futures under the receive loop *)

Lemma settles_refl fs : settles fs fs.
Proof.
  split; [reflexivity|]. intros f [|r|] H; auto.
Qed.

Lemma settles_trans a b c : settles a b -> settles b c -> settles a c.
Proof.
  intros [Hl1 H1] [Hl2 H2]. split; [congruence|].
  intros f st Hf. specialize (H1 f st Hf). destruct st as [|r|].
  - destruct H1 as [Hb|[msg Hb]].
    + apply (H2 f Pending Hb).
    + right. exists msg. apply (H2 f (Finished msg) Hb).
  - apply (H2 f (Finished r) H1).
  - apply (H2 f Cancelled H1).
Qed.

Lemma settles_resolve fs f v :
  fs !! f = Some Pending -> settles fs (<[f := Finished v]> fs).
Proof.
  intros Hf. split; [apply length_insert|].
  intros g st Hg. destruct (decide (f = g)) as [->|Hne].
  - rewrite Hf in Hg. inversion Hg; subst. right. exists v.
    apply list_lookup_insert_eq. eapply lookup_lt_Some, Hf.
  - rewrite list_lookup_insert_ne by assumption.
    destruct st; auto.
Qed.

Section Advances.
Variable R : World -> World -> Prop.
Hypothesis R_refl : forall w, R w w.
Hypothesis R_trans : forall a b c, R a b -> R b c -> R a c.

Lemma advances_ret {A} (a : A) : advances R (mret a).
Proof. intros w. apply R_refl. Qed.

Lemma advances_raise {A} (e : exn) : advances R (@raise A e).
Proof. intros w. apply R_refl. Qed.

Lemma advances_gets {A} (f : World -> A) : advances R (gets f).
Proof. intros w. apply R_refl. Qed.

Lemma advances_lift {A} (r : exn + A) : advances R (lift r).
Proof. intros w. destruct r; apply R_refl. Qed.

Lemma advances_modify (f : World -> World) :
  (forall w, R w (f w)) -> advances R (modify f).
Proof. intros H w. apply H. Qed.

Lemma advances_bind {A B} (m : M A) (k : A -> M B) :
  advances R m -> (forall a, advances R (k a)) -> advances R (m ≫= k).
Proof.
  intros Hm Hk w. unfold mbind, M_bind, bind.
  specialize (Hm w). destruct (m w) as [w1 [a| |]]; cbn in *; try assumption.
  eapply R_trans; [exact Hm|apply Hk].
Qed.

Lemma advances_try_except {A} (body : M A) handler :
  advances R body -> (forall e h, handler e = Some h -> advances R h) ->
  advances R (try_except body handler).
Proof.
  intros Hb Hh w. unfold try_except.
  specialize (Hb w). destruct (body w) as [w1 [a|e|]]; cbn in *; try assumption.
  destruct (handler e) as [h|] eqn:E; cbn; try assumption.
  eapply R_trans; [exact Hb|apply (Hh e h E)].
Qed.

Lemma advances_for_each {A} (l : list A) (body : A -> M unit) :
  (forall a, advances R (body a)) -> advances R (for_each l body).
Proof.
  intros Hb. induction l as [|a l IH]; cbn [for_each].
  - apply advances_ret.
  - apply advances_bind; [apply Hb | intros _; apply IH].
Qed.

Lemma advances_except_Exception {A} (k : exn -> M A) e h :
  (forall e, advances R (k e)) -> except_Exception k e = Some h -> advances R h.
Proof.
  unfold except_Exception. intros Hk E. destruct (is_Exception e); inversion E; subst.
  apply Hk.
Qed.
End Advances.

Lemma later_refl w : later w w.
Proof. apply settles_refl. Qed.

Lemma later_trans a b c : later a b -> later b c -> later a c.
Proof. apply settles_trans. Qed.

Ltac settle_step :=
  first
    [ apply advances_ret; exact later_refl
    | apply advances_raise; exact later_refl
    | apply advances_gets; exact later_refl
    | apply advances_lift; exact later_refl
    | apply (advances_bind later later_trans); [|intros ?]
    | apply (advances_for_each later later_refl later_trans); intros ?
    | apply (advances_try_except later later_trans);
      [|intros ? ? ?; eapply advances_except_Exception; [intros ?|eassumption]]
    | apply advances_modify; intros ?; apply settles_refl
    | match goal with
      | |- advances _ (if ?b then _ else _) => destruct b
      | |- advances _ (match ?x with _ => _ end) => destruct x
      end ].

Lemma set_result_settles f v : advances later (set_result f v).
Proof.
  intros w. unfold set_result, done, later. run.
  destruct (futures w !! f) as [[|r|]|] eqn:E; cbn; try apply settles_refl.
  apply settles_resolve, E.
Qed.

Lemma handle_message_settles msg : advances later (_handle_message msg).
Proof.
  unfold _handle_message, _handle_domain_update, call, log, done.
  repeat first [apply set_result_settles | settle_step].
Qed.

Lemma message_receiver_settles ev w : later w (_message_receiver ev w).
Proof.
  unfold _message_receiver. destruct (receiving w); [|apply later_refl].
  destruct ev as [ms|data| |]; try (unfold log; apply settles_refl).
  pose proof (handle_message_settles data w) as H.
  destruct (_handle_message data w) as [w1 [[]|e|]]; cbn in *; try assumption.
  destruct (is_Exception e); exact H.
Qed.

Lemma happen_settles w ev : later w (happen w ev).
Proof.
  destruct ev; cbn [happen]; try apply message_receiver_settles.
  - apply settles_refl.
  - apply (message_receiver_settles Closed (set_ws_open false w)).
Qed.

Lemma turn_settles turn : forall w, later w (foldl happen w turn).
Proof.
  induction turn as [|ev turn IH]; intros w; cbn; [apply later_refl|].
  eapply later_trans; [apply happen_settles|apply IH].
Qed.

(** X2.  A future is resolved once.  Over a turn of the receive loop no
    future is created or dropped; one that holds a result or is cancelled
    is left exactly as it is, whatever frames arrive under its id; one that
    is pending is pending afterwards or holds a result, and is never
    cancelled by the loop. *)
Theorem receive_loop_settles_futures turn w :
  settles (futures w) (futures (foldl happen w turn)).
Proof. apply turn_settles. Qed.

(** ** Envelopes routed by their type *)

Lemma handle_message_by_type fields w :
  unrouted fields w ->
  _handle_message (JObj fields) w =
    (if Py.eq_str (type_of fields) "welcome" then
       log INFO [Txt "Received welcome from ProxyHawk"] None
     else if Py.eq_str (type_of fields) "domain_update" then
       _handle_domain_update (default (JStr "") (Py.field "domain" fields))
         (default (JObj []) (Py.field "data" fields))
     else if Py.eq_str (type_of fields) "error" then
       log ERROR [Txt "ProxyHawk error: ";
                  Val (default (JStr "Unknown error") (Py.field "error" fields))] None
     else
       log DEBUG [Txt "Unhandled message type: "; Val (type_of fields)] None) w.
Proof.
  intros Hu. unfold _handle_message, type_of, Py.get. do 2 mstep.
  assert (Hr : (if Py.truthy (default (JStr "") (Py.field "id" fields))
                then h ← gets _message_handlers;
                     lift (Py.contains (default (JStr "") (Py.field "id" fields)) h)
                else ret false) w = (w, Returned false)).
  { destruct Hu as [Hf|Hc].
    - rewrite Hf. reflexivity.
    - destruct (Py.truthy _); [|reflexivity]. mstep. rewrite Hc. reflexivity. }
  rewrite (bind_returned _ _ _ _ _ Hr). cbv iota.
  destruct (Py.eq_str _ "welcome"); [reflexivity|].
  destruct (Py.eq_str _ "domain_update"); [do 2 mstep; reflexivity|].
  destruct (Py.eq_str _ "error"); [mstep; reflexivity|].
  reflexivity.
Qed.

Lemma handle_message_notice fields w :
  unrouted fields w ->
  Py.eq_str (type_of fields) "domain_update" = false ->
  _handle_message (JObj fields) w = (set_logged (logged w ++ [notice fields]) w, Returned tt).
Proof.
  intros Hu Hty. rewrite (handle_message_by_type _ _ Hu). unfold notice. rewrite Hty.
  destruct (Py.eq_str _ "welcome"); [reflexivity|].
  destruct (Py.eq_str _ "error"); reflexivity.
Qed.

(** X3.  Envelopes that select no registered handle, a greeting, an error
    report, a reply that comes after its request has given up, anything of
    a type the client does not know, are written to the log and nothing
    else: however many arrive in a turn, no future is touched, no listener
    called, nothing raised, and the receive loop goes on. *)
Theorem unsolicited_messages_are_logged (envelopes : list (list (string * json))) w :
  receiving w = true ->
  Forall (fun fields => unrouted fields w
                        /\ Py.eq_str (type_of fields) "domain_update" = false) envelopes ->
  foldl happen w (map (fun fields => Frame (JObj fields)) envelopes)
  = set_logged (logged w ++ map notice envelopes) w.
Proof.
  revert w. induction envelopes as [|fields rest IH]; intros w Hr Hall.
  - cbn. rewrite app_nil_r. destruct w; reflexivity.
  - inversion Hall as [|? ? [Hu Hty] Hrest]; subst.
    cbn [map foldl happen]. unfold _message_receiver at 1. rewrite Hr.
    rewrite (handle_message_notice _ _ Hu Hty).
    rewrite IH; [|exact Hr|exact Hrest].
    simpl_world. cbn [map]. rewrite <- app_assoc. reflexivity.
Qed.

(** A stale reply, an error report without text and a greeting, one after
    the other. *)
Lemma unsolicited_messages_are_logged_witness :
  foldl happen (session [])
    (map (fun fields => Frame (JObj fields))
       [refusal; [("type", JStr "error")]; [("type", JStr "welcome")]])
  = set_logged
      [mkLog ERROR [Txt "ProxyHawk error: "; Val (JStr "rate limited")] None;
       mkLog ERROR [Txt "ProxyHawk error: "; Val (JStr "Unknown error")] None;
       mkLog INFO [Txt "Received welcome from ProxyHawk"] None]
      (session []).
Proof.
  apply (unsolicited_messages_are_logged
           [refusal; [("type", JStr "error")]; [("type", JStr "welcome")]] (session [])).
  - reflexivity.
  - repeat (constructor; [split; [right; reflexivity|reflexivity]|]). constructor.
Defined.

(** ** Updates for a domain that is no string *)

Lemma handle_domain_update_unhashable domain data w :
  unhashable domain = true ->
  _handle_domain_update domain data w = (w, Raised TypeError).
Proof.
  intros Hu. destruct domain; try discriminate; reflexivity.
Qed.

Lemma handle_domain_update_hashable domain data w :
  unhashable domain = false ->
  Forall (tame domain data) (listeners_of domain w ++ global_listeners w) ->
  _handle_domain_update domain data w =
    (set_logged (logged w
                   ++ flat_map (complaint domain data (domain_label domain))
                        (listeners_of domain w)
                   ++ flat_map (complaint domain data global_label) (global_listeners w))
       (set_called (called w
                      ++ map (invocation domain data)
                           (listeners_of domain w ++ global_listeners w)) w),
     Returned tt).
Proof.
  intros Hu Ht.
  destruct domain as [|b|n|d|items|fields]; try discriminate;
    try (apply handle_domain_update_spec; exact Ht);
    cbn [listeners_of app flat_map map] in *;
    unfold _handle_domain_update, global_listeners in *; run;
    (destruct (_global_update_callback w) as [[g|]|]; cbn;
     [ inversion Ht; subst; rewrite guarded_call by assumption; same_world
     | same_world | same_world ]).
Qed.

Lemma tame_listeners_dispatch w domain data :
  tame_listeners w ->
  Forall (tame domain data) (listeners_of domain w ++ global_listeners w).
Proof.
  intros Ht. apply Forall_forall. intros cb Hin. apply Ht.
  apply elem_of_app in Hin as [Hin|Hin]; [|left; exact Hin].
  destruct domain; cbn in Hin; try (apply elem_of_nil in Hin; contradiction).
  right. eexists. exact Hin.
Qed.

(** X4.  An update whose [domain] is a JSON array or object reaches no
    listener at all, the global one included: the lookup in the table of
    subscriptions raises before anything is called.  The receive loop logs
    the failure and goes on. *)
Theorem update_for_unhashable_domain w fields domain :
  receiving w = true ->
  unrouted fields w ->
  Py.field "type" fields = Some (JStr "domain_update") ->
  Py.field "domain" fields = Some domain ->
  unhashable domain = true ->
  happen w (Frame (JObj fields))
  = set_logged (logged w ++ [mkLog ERROR [Txt "Error handling message: "] (Some TypeError)]) w.
Proof.
  intros Hr Hu Hty Hd Hh. cbn [happen]. unfold _message_receiver. rewrite Hr.
  rewrite (handle_message_by_type _ _ Hu). unfold type_of. rewrite Hty, Hd.
  cbn [default from_option id Py.eq_str String.eqb Ascii.eqb Bool.eqb].
  rewrite (handle_domain_update_unhashable _ _ _ Hh). reflexivity.
Qed.

(** An update whose domain is a list of names, on a client with listeners
    for a.com and a global listener. *)
Lemma update_for_unhashable_domain_witness :
  happen (watching [])
    (Frame (JObj [("type", JStr "domain_update"); ("domain", JArr [JStr "a.com"])]))
  = set_logged [mkLog ERROR [Txt "Error handling message: "] (Some TypeError)] (watching []).
Proof.
  apply (update_for_unhashable_domain (watching [])
           [("type", JStr "domain_update"); ("domain", JArr [JStr "a.com"])]
           (JArr [JStr "a.com"])).
  - reflexivity.
  - left. reflexivity.
  - reflexivity.
  - reflexivity.
  - reflexivity.
Defined.

(** X5.  An update that selects no handle is dispatched on what its fields
    hold: a missing [domain] counts as the empty string and a missing
    [data] as an empty dict; a domain that is a number, a boolean or null
    is the name of no entry, so that only the global listener is called,
    with that value.  The listeners called are those of the domain, in
    order, then the global one. *)
Theorem update_dispatched_on_defaults w fields :
  let domain := default (JStr "") (Py.field "domain" fields) in
  let data := default (JObj []) (Py.field "data" fields) in
  receiving w = true ->
  unrouted fields w ->
  Py.field "type" fields = Some (JStr "domain_update") ->
  unhashable domain = false ->
  Forall (tame domain data) (listeners_of domain w ++ global_listeners w) ->
  called (happen w (Frame (JObj fields)))
  = called w ++ map (invocation domain data) (listeners_of domain w ++ global_listeners w)
  /\ receiving (happen w (Frame (JObj fields))) = true.
Proof.
  intros domain data Hr Hu Hty Hh Ht. cbn [happen]. unfold _message_receiver. rewrite Hr.
  rewrite (handle_message_by_type _ _ Hu). unfold type_of. rewrite Hty.
  cbn [default from_option id Py.eq_str String.eqb Ascii.eqb Bool.eqb].
  fold domain data.
  rewrite (handle_domain_update_hashable _ _ _ Hh Ht). simpl_world. auto.
Qed.

(** An update that names no domain and carries no data: the listeners of
    a.com are not called, the global listener is. *)
Lemma update_dispatched_on_defaults_witness :
  called (happen (watching []) (Frame (JObj [("type", JStr "domain_update")])))
  = [(3, JStr "", JObj [])]
  /\ receiving (happen (watching []) (Frame (JObj [("type", JStr "domain_update")]))) = true.
Proof.
  apply (update_dispatched_on_defaults (watching []) [("type", JStr "domain_update")]).
  - reflexivity.
  - left. reflexivity.
  - reflexivity.
  - reflexivity.
  - repeat constructor. intros e H. discriminate H.
Defined.

(** ** What a frame can do to the receive loop *)

Lemma handle_message_raises msg w w1 e :
  tame_listeners w ->
  _handle_message msg w = (w1, Raised e) -> is_Exception e = true.
Proof.
  intros Ht.
  destruct msg as [|b|n|s|items|fields];
    try (unfold _handle_message; run; intros E; inversion E; reflexivity).
  destruct (Py.truthy (default (JStr "") (Py.field "id" fields))) eqn:Etruthy.
  2:{ rewrite handle_message_by_type by (left; exact Etruthy).
      destruct (Py.eq_str _ "welcome"); [intros E; inversion E|].
      destruct (Py.eq_str _ "domain_update").
      - destruct (unhashable (default (JStr "") (Py.field "domain" fields))) eqn:Eh.
        + rewrite (handle_domain_update_unhashable _ _ _ Eh).
          intros E; inversion E; reflexivity.
        + rewrite (handle_domain_update_hashable _ _ _ Eh)
            by (apply tame_listeners_dispatch, Ht).
          intros E; inversion E.
      - destruct (Py.eq_str _ "error"); intros E; inversion E. }
  destruct (Py.contains (default (JStr "") (Py.field "id" fields)) (_message_handlers w))
    as [err|[|]] eqn:Ec.
  - unfold _handle_message, Py.get. do 2 mstep. rewrite Etruthy.
    erewrite bind_raised; [|mstep; rewrite Ec; reflexivity].
    intros E; inversion E; subst.
    destruct (default (JStr "") (Py.field "id" fields)); cbn in Ec; inversion Ec; reflexivity.
  - unfold _handle_message, Py.get. do 2 mstep. rewrite Etruthy.
    erewrite bind_returned; [|mstep; rewrite Ec; reflexivity].
    cbv iota.
    destruct (default (JStr "") (Py.field "id" fields)) as [|b|n|mid|items|fs];
      cbn in Ec; try discriminate.
    destruct (_message_handlers w !! mid) as [future|] eqn:Eh; [|discriminate].
    erewrite bind_returned; [|mstep; cbn [Py.at_key]; rewrite Eh; reflexivity].
    unfold set_result, done. run.
    destruct (futures w !! future) as [[|r|]|] eqn:Ef; cbn; rewrite ?Ef; cbn;
      intros E; inversion E.
  - rewrite handle_message_by_type by (right; exact Ec).
    destruct (Py.eq_str _ "welcome"); [intros E; inversion E|].
    destruct (Py.eq_str _ "domain_update").
    + destruct (unhashable (default (JStr "") (Py.field "domain" fields))) eqn:Eh.
      * rewrite (handle_domain_update_unhashable _ _ _ Eh).
        intros E; inversion E; reflexivity.
      * rewrite (handle_domain_update_hashable _ _ _ Eh)
          by (apply tame_listeners_dispatch, Ht).
        intros E; inversion E.
    + destruct (Py.eq_str _ "error"); intros E; inversion E.
Qed.

Lemma tame_listeners_steady w w' :
  _subscriptions w' = _subscriptions w ->
  _global_update_callback w' = _global_update_callback w ->
  tame_listeners w -> tame_listeners w'.
Proof.
  intros Hs Hg Ht cb Hin. apply Ht.
  unfold global_listeners, listeners in *. rewrite Hs, Hg in Hin. exact Hin.
Qed.

Lemma handle_message_keeps_flags msg :
  keeps (fun w => (receiving w, connected w, ws_open w)) (_handle_message msg).
Proof.
  unfold _handle_message, _handle_domain_update, call, log, set_result, done.
  repeat keeps_step.
Qed.

Lemma happen_survives w ev :
  tame_listeners w -> ev <> Closed ->
  receiving (happen w ev) = receiving w
  /\ connected (happen w ev) = connected w
  /\ ws_open (happen w ev) = ws_open w.
Proof.
  intros Ht Hev. destruct ev as [ms|data| |]; try congruence; cbn [happen].
  - repeat split; reflexivity.
  - unfold _message_receiver. destruct (receiving w) eqn:Hr; [|auto].
    pose proof (handle_message_keeps_flags data w) as H1.
    pose proof (handle_message_raises data w) as H3.
    destruct (_handle_message data w) as [w1 [[]|e|]]; cbn in H1;
      injection H1 as H1 H2 H4; try (repeat split; congruence).
    rewrite (H3 w1 e Ht eq_refl). unfold log. cbn. repeat split; congruence.
  - unfold _message_receiver. destruct (receiving w) eqn:Hr; auto.
Qed.

Lemma turn_survives turn : forall w,
  tame_listeners w ->
  Forall (fun ev => ev <> Closed) turn ->
  receiving (foldl happen w turn) = receiving w
  /\ connected (foldl happen w turn) = connected w
  /\ ws_open (foldl happen w turn) = ws_open w.
Proof.
  induction turn as [|ev turn IH]; intros w Ht Hall; [repeat split; reflexivity|].
  inversion Hall as [|? ? Hev Hrest]; subst. cbn [foldl].
  destruct (happen_survives w ev Ht Hev) as (Hr & Hc & Ho).
  destruct (IH (happen w ev)) as (Hr' & Hc' & Ho').
  - eapply tame_listeners_steady; [| |exact Ht].
    + apply (happen_steady _subscriptions).
    + apply (happen_steady _global_update_callback).
  - exact Hrest.
  - repeat split; congruence.
Qed.

Lemma watching_tame turns : tame_listeners (watching turns).
Proof.
  intros cb Hin domain data e He.
  assert (Hcb : cb = global_listener \/ cb = faulty_listener \/ cb = quiet_listener).
  { destruct Hin as [Hin|[d Hin]].
    - apply list_elem_of_singleton in Hin. auto.
    - unfold listeners, watching in Hin. simpl_world.
      destruct (decide (d = "a.com")) as [->|Hne].
      + rewrite lookup_singleton_eq in Hin. cbn in Hin.
        apply elem_of_cons in Hin as [->|Hin]; [auto|].
        apply list_elem_of_singleton in Hin. auto.
      + rewrite lookup_singleton_ne in Hin by congruence.
        apply elem_of_nil in Hin. contradiction. }
  destruct Hcb as [->|[->| ->]]; cbn in He; inversion He; reflexivity.
Qed.

(** X6.  No frame stops the receive loop.  With listeners that raise
    nothing but instances of [Exception], a turn in which the connection
    is not lost leaves the loop running and the client connected as it
    was, whatever arrives: text that is no JSON, JSON that is no object, an
    id or a domain of any shape, updates whose listeners fail. *)
Theorem receive_loop_survives_frames turn w :
  tame_listeners w ->
  Forall (fun ev => ev <> Closed) turn ->
  receiving (foldl happen w turn) = receiving w
  /\ connected (foldl happen w turn) = connected w.
Proof.
  intros Ht Hall. destruct (turn_survives turn w Ht Hall) as (Hr & Hc & _). auto.
Qed.

(** A number, garbage, an envelope whose id is a list, an update for a
    domain one of whose listeners raises. *)
Lemma receive_loop_survives_frames_witness :
  receiving (foldl happen (watching [])
               [Frame (JNum 3); Garbled; Frame (JObj [("id", JArr [JNum 1])]);
                Frame (JObj update_a)]) = true
  /\ connected (foldl happen (watching [])
                  [Frame (JNum 3); Garbled; Frame (JObj [("id", JArr [JNum 1])]);
                   Frame (JObj update_a)]) = true.
Proof.
  apply (receive_loop_survives_frames
           [Frame (JNum 3); Garbled; Frame (JObj [("id", JArr [JNum 1])]);
            Frame (JObj update_a)] (watching [])).
  - apply watching_tame.
  - repeat constructor; discriminate.
Defined.

(** ** The life of a request *)

Lemma try_finally_released {A} (body : M A) mid w :
  snd (try_finally body (release mid) w) <> Suspended ->
  _message_handlers (fst (try_finally body (release mid) w)) !! mid = None.
Proof.
  unfold try_finally, release.
  destruct (body w) as [w1 [a|e|]]; run; intros H; try congruence;
    apply lookup_delete_eq.
Qed.

(** X7.  No handle is left behind.  Whichever of the five operations a
    connected client runs, and whatever happens around it, when the call
    has come to its end, with a result or with an exception of any kind,
    the id it generated is not in the table of handles any more. *)
Theorem completed_request_releases_id json_loads w :
  connected w = true ->
  (forall d given,
     snd (test_domain json_loads d given w) <> Suspended ->
     _message_handlers (fst (test_domain json_loads d given w)) !! next_id w = None)
  /\ (forall domains given,
        domains <> [] ->
        snd (batch_test json_loads domains given w) <> Suspended ->
        _message_handlers (fst (batch_test json_loads domains given w)) !! next_id w = None)
  /\ (forall d callback,
        snd (subscribe d callback w) <> Suspended ->
        _message_handlers (fst (subscribe d callback w)) !! next_id w = None)
  /\ (forall d,
        snd (unsubscribe d w) <> Suspended ->
        _message_handlers (fst (unsubscribe d w)) !! next_id w = None)
  /\ (snd (get_regions json_loads w) <> Suspended ->
      _message_handlers (fst (get_regions json_loads w)) !! next_id w = None).
Proof.
  intros Hc. repeat split.
  - intros d given. unfold test_domain. mstep. rewrite Hc. cbn [negb]. mstep.
    destruct (regions_or_default_run given (set_message_counter (_message_counter w + 1) w))
      as [chosen Hch].
    rewrite (bind_returned _ _ _ _ _ Hch). repeat mstep.
    apply try_finally_released.
  - intros [|d ds] given Hne; [congruence|].
    unfold batch_test. mstep. rewrite Hc. cbn [negb]. cbv iota. mstep.
    destruct (regions_or_default_run given (set_message_counter (_message_counter w + 1) w))
      as [chosen Hch].
    rewrite (bind_returned _ _ _ _ _ Hch). repeat mstep.
    apply try_finally_released.
  - intros d callback. unfold subscribe. mstep. rewrite Hc. cbn [negb].
    destruct callback as [cb|]; repeat mstep; apply try_finally_released.
  - intros d. unfold unsubscribe. mstep. rewrite Hc. cbn [negb]. repeat mstep.
    apply try_finally_released.
  - unfold get_regions. mstep. rewrite Hc. cbn [negb]. repeat mstep.
    apply try_finally_released.
Qed.

(** A test that times out and a subscription that is refused. *)
Lemma completed_request_releases_id_witness :
  _message_handlers (fst (test_domain undecodable "a.com" None (session [[]; []])))
    !! first_id = None
  /\ _message_handlers
       (fst (subscribe "a.com" None (session [[]; [Frame (JObj refusal)]])))
       !! first_id = None.
Proof.
  split.
  - apply (proj1 (completed_request_releases_id undecodable (session [[]; []]) eq_refl)
             "a.com" None).
    vm_compute. discriminate.
  - apply (proj1 (proj2 (proj2 (completed_request_releases_id undecodable
                                  (session [[]; [Frame (JObj refusal)]]) eq_refl)))
             "a.com" None).
    vm_compute. discriminate.
Defined.

(** ** Failures of decoding *)

Lemma get_failure d k dflt e : Py.get d k dflt = inl e -> e = AttributeError.
Proof. destruct d; cbn; intros H; inversion H; reflexivity. Qed.

Lemma items_failure d e : Py.items d = inl e -> e = AttributeError.
Proof. destruct d; cbn; intros H; inversion H; reflexivity. Qed.

Lemma iter_failure v e : Py.iter v = inl e -> e = TypeError.
Proof. destruct v; cbn; intros H; inversion H; reflexivity. Qed.

Lemma item_failure d k e : Py.item d k = inl e -> e = TypeError \/ e = KeyError (JStr k).
Proof.
  destruct d; cbn; try solve [intros H; inversion H; auto].
  destruct (Py.field k fields); intros H; inversion H; auto.
Qed.

Lemma kwargs_failure names v e : Py.kwargs names v = inl e -> e = TypeError.
Proof.
  destruct v; cbn; try solve [intros H; inversion H; reflexivity].
  destruct (forallb _ _); [|intros H; inversion H; reflexivity].
  destruct (mapM _ _); intros H; inversion H; reflexivity.
Qed.

Lemma each_failure {A B} (f : A -> exn + B) (P : exn -> Prop) l e :
  (forall x e, f x = inl e -> P e) -> each f l = inl e -> P e.
Proof.
  intros Hf. induction l as [|x l IH]; cbn; [discriminate|].
  destruct (f x) as [e1|y] eqn:E1; cbn.
  - intros H; inversion H; subst. eapply Hf, E1.
  - destruct (each f l) as [e2|ys]; cbn; intros H; inversion H; subst. apply IH. reflexivity.
Qed.

Lemma make_DNSResult_failure v e : make_DNSResult v = inl e -> e = TypeError.
Proof.
  unfold make_DNSResult.
  destruct (Py.kwargs _ v) as [e1|vs] eqn:E1; cbn.
  - intros H; inversion H; subst. eapply kwargs_failure, E1.
  - destruct vs as [|a [|b [|c [|d [|x xs]]]]]; intros H; inversion H; reflexivity.
Qed.

Lemma make_HTTPResult_failure v e : make_HTTPResult v = inl e -> e = TypeError.
Proof.
  unfold make_HTTPResult.
  destruct (Py.kwargs _ v) as [e1|vs] eqn:E1; cbn.
  - intros H; inversion H; subst. eapply kwargs_failure, E1.
  - destruct vs as [|a [|b [|c [|d [|x1 [|x2 [|x3 [|x4 [|x xs]]]]]]]]];
      intros H; inversion H; reflexivity.
Qed.

Lemma required_key_failure d k e :
  k ∈ required_keys -> Py.item d k = inl e -> parse_failure e.
Proof.
  intros Hk H. apply item_failure in H as [->| ->]; unfold parse_failure; eauto.
Qed.

(** One step down a chain of reads that has failed. *)
Ltac failed_read H :=
  match type of H with
  | and_then ?r _ = inl _ =>
      let E := fresh "E" in
      destruct r eqn:E; cbn [and_then] in H;
      [ inversion H; subst; clear H;
        first
          [ apply get_failure in E; subst; left; reflexivity
          | apply items_failure in E; subst; left; reflexivity
          | apply iter_failure in E; subst; right; left; reflexivity
          | apply (each_failure _ (fun e => e = TypeError)) in E;
            [ subst; right; left; reflexivity
            | first [ exact make_DNSResult_failure | exact make_HTTPResult_failure ] ]
          | eapply required_key_failure; [|exact E];
            repeat (apply elem_of_cons; first [left; reflexivity|right]) ]
      | ]
  end.

Lemma parse_region_failure v e : parse_region v = inl e -> parse_failure e.
Proof.
  unfold parse_region. intros H. repeat failed_read H. discriminate.
Qed.

Lemma parse_regions_failure entries : forall acc e,
  parse_regions entries acc = inl e -> parse_failure e.
Proof.
  induction entries as [|[name v] rest IH]; intros acc e; cbn [parse_regions].
  - discriminate.
  - destruct (parse_region v) as [e1|r] eqn:E1; cbn [and_then].
    + intros H; inversion H; subst. eapply parse_region_failure, E1.
    + apply IH.
Qed.

Lemma parse_failures data e :
  _parse_geo_test_result data = inl e -> parse_failure e.
Proof.
  unfold _parse_geo_test_result. intros H.
  failed_read H. failed_read H.
  destruct (parse_regions l []) as [e1|rs] eqn:E1; cbn [and_then] in H.
  { inversion H; subst. eapply parse_regions_failure, E1. }
  repeat failed_read H. discriminate.
Qed.

(** X8.  What [_parse_geo_test_result] raises on a reply it cannot read is
    an [AttributeError] (a value that had to be a dict is none), a
    [TypeError] (a DNS or HTTP record with a field missing or unknown, a
    list of records that is no list) or the [KeyError] of one of the nine
    fields it reads by subscript; it raises nothing else. *)
Theorem parse_geo_test_result_failure data e :
  _parse_geo_test_result data = inl e -> parse_failure e.
Proof. apply parse_failures. Qed.

(** A result without its [confidence]. *)
Lemma parse_geo_test_result_failure_witness :
  parse_failure (KeyError (JStr "confidence")).
Proof.
  apply (parse_geo_test_result_failure
           (JObj [("domain", JStr "a.com"); ("tested_at", JStr "2024-05-01T12:00:00Z");
                  ("has_geographic_differences", JBool false);
                  ("is_round_robin", JBool false)])).
  reflexivity.
Defined.

Lemma parse_failure_no_timeout e : parse_failure e -> e <> AsyncTimeoutError.
Proof. intros [->|[->|(k & _ & ->)]]; discriminate. Qed.

Lemma payload_failure json_loads response e :
  payload json_loads response = inl e -> e <> AsyncTimeoutError.
Proof.
  unfold payload. destruct (Py.item response "data") as [e1|data] eqn:E1; cbn [and_then].
  - intros H; inversion H; subst. apply item_failure in E1 as [->| ->]; discriminate.
  - destruct data; try discriminate. destruct (json_loads s); intros H; inversion H.
    discriminate.
Qed.

(** ** Waits that expire *)

Lemma happen_silent w ev :
  match ev with Frame _ => False | _ => True end ->
  futures (happen w ev) = futures w.
Proof.
  destruct ev as [ms|data| |]; intros H; try contradiction; cbn [happen];
    unfold _message_receiver, log; try reflexivity.
  - destruct (receiving w); reflexivity.
  - simpl_world. destruct (receiving w); reflexivity.
Qed.

Lemma turn_silent turn : forall w,
  silent turn -> futures (foldl happen w turn) = futures w.
Proof.
  induction turn as [|ev turn IH]; intros w Hs; [reflexivity|].
  inversion Hs as [|? ? Hev Hrest]; subst. cbn [foldl].
  rewrite IH by exact Hrest. apply happen_silent, Hev.
Qed.

Lemma wait_for_unanswered w future turn rest :
  script w = turn :: rest -> silent turn -> futures w !! future = Some Pending ->
  wait_for future w =
    (set_futures (<[future := Cancelled]> (futures w)) (foldl happen (set_script rest w) turn),
     Raised AsyncTimeoutError).
Proof.
  intros Hs Hq Hf. unfold wait_for.
  rewrite (bind_returned _ _ _ _ _ (yield_turn _ _ _ Hs)).
  pose proof (turn_silent turn (set_script rest w) Hq) as Hfs. simpl_world.
  revert Hfs. generalize (foldl happen (set_script rest w) turn). intros w2 Hfs.
  rewrite <- Hfs in Hf. rewrite <- Hfs.
  mstep. rewrite Hf. unfold cancel, done. run. rewrite Hf. reflexivity.
Qed.

Lemma try_finally_raised {A} (body : M A) mid w w1 e :
  body w = (w1, Raised e) ->
  try_finally body (release mid) w =
    (set_message_handlers (delete mid (_message_handlers w1)) w1, Raised e).
Proof. intros Hb. unfold try_finally. rewrite Hb. reflexivity. Qed.

Lemma try_finally_returned {A} (body : M A) mid w w1 a :
  body w = (w1, Returned a) ->
  try_finally body (release mid) w =
    (set_message_handlers (delete mid (_message_handlers w1)) w1, Returned a).
Proof. intros Hb. unfold try_finally. rewrite Hb. reflexivity. Qed.

(** X9.  A request that gets no reply.  When no frame is decoded while
    [test_domain] waits, the call raises the built-in [TimeoutError] that
    names the domain, while [get_regions] lets [asyncio.TimeoutError]
    through as it is; either way the future of the request is cancelled.
    A connection lost during the wait does not end the wait: the request
    runs into its timeout all the same. *)
Theorem unanswered_request_times_out json_loads w turn rest :
  connected w = true -> ws_open w = true ->
  script w = [] :: turn :: rest -> silent turn ->
  (forall d given,
     snd (test_domain json_loads d given w) = Raised (test_timeout d)
     /\ futures (fst (test_domain json_loads d given w)) !! length (futures w)
        = Some Cancelled)
  /\ snd (get_regions json_loads w) = Raised AsyncTimeoutError
  /\ futures (fst (get_regions json_loads w)) !! length (futures w) = Some Cancelled.
Proof.
  intros Hc Ho Hs Hq. split; [|split].
  - intros d given.
    unfold test_domain. mstep. rewrite Hc. cbn [negb]. mstep.
    destruct (regions_or_default_run given (set_message_counter (_message_counter w + 1) w))
      as [chosen Hch].
    rewrite (bind_returned _ _ _ _ _ Hch). repeat mstep.
    erewrite try_finally_raised.
    2:{ erewrite try_except_bind by (apply ws_send_open; [exact Ho|exact Hs]).
        cbn [foldl].
        erewrite try_except_bind by reflexivity.
        erewrite try_except_timeout
          by (apply bind_raised, (wait_for_unanswered _ _ turn rest); simpl_world;
              [ reflexivity | exact Hq
              | rewrite lookup_app_r by lia; rewrite Nat.sub_diag; reflexivity ]).
        reflexivity. }
    simpl_world. split; [reflexivity|].
    apply list_lookup_insert_eq. rewrite length_app. cbn. lia.
  - unfold get_regions. mstep. rewrite Hc. cbn [negb]. repeat mstep.
    erewrite try_finally_raised.
    2:{ erewrite bind_returned by (apply ws_send_open; [exact Ho|exact Hs]).
        cbn [foldl].
        apply bind_raised, (wait_for_unanswered _ _ turn rest); simpl_world;
          [ reflexivity | exact Hq
          | rewrite lookup_app_r by lia; rewrite Nat.sub_diag; reflexivity ]. }
    reflexivity.
  - unfold get_regions. mstep. rewrite Hc. cbn [negb]. repeat mstep.
    erewrite try_finally_raised.
    2:{ erewrite bind_returned by (apply ws_send_open; [exact Ho|exact Hs]).
        cbn [foldl].
        apply bind_raised, (wait_for_unanswered _ _ turn rest); simpl_world;
          [ reflexivity | exact Hq
          | rewrite lookup_app_r by lia; rewrite Nat.sub_diag; reflexivity ]. }
    simpl_world. apply list_lookup_insert_eq. rewrite length_app. cbn. lia.
Qed.

(** The connection is lost while a test of a.com waits for its reply. *)
Lemma unanswered_request_times_out_witness :
  snd (test_domain undecodable "a.com" None (session [[]; [Closed]]))
  = Raised (test_timeout "a.com")
  /\ futures (fst (test_domain undecodable "a.com" None (session [[]; [Closed]]))) !! 0
     = Some Cancelled.
Proof.
  apply (proj1 (unanswered_request_times_out undecodable (session [[]; [Closed]])
                  [Closed] [] eq_refl eq_refl eq_refl
                  ltac:(repeat constructor))
           "a.com" None).
Defined.

(** ** Replies to a request *)

Lemma try_except_passes {A} (body handler : M A) w w1 e :
  body w = (w1, Raised e) -> e <> AsyncTimeoutError ->
  try_except body (except_TimeoutError handler) w = (w1, Raised e).
Proof.
  intros Hb He. unfold try_except. rewrite Hb. destruct e; try reflexivity. congruence.
Qed.

(** X10.  The reply to [test_domain].  When the reply to the request
    arrives while the call waits and carries no error, the call returns
    what [_parse_geo_test_result] makes of its [data], decoded first when
    it is a string; whatever decoding or parsing raises, a missing [data]
    included, is raised to the caller as it is, and not as a timeout. *)
Theorem test_domain_reply_outcome json_loads w d given fields rest :
  connected w = true -> ws_open w = true -> receiving w = true ->
  script w = [] :: [Frame (JObj fields)] :: rest ->
  Py.field "id" fields = Some (JStr (next_id w)) ->
  clean fields ->
  snd (test_domain json_loads d given w) =
    match and_then (payload json_loads (JObj fields)) _parse_geo_test_result with
    | inr result => Returned result
    | inl e => Raised e
    end.
Proof.
  intros Hc Ho Hr Hs Hid Hclean.
  unfold test_domain. mstep. rewrite Hc. cbn [negb]. mstep.
  destruct (regions_or_default_run given (set_message_counter (_message_counter w + 1) w))
    as [chosen Hch].
  rewrite (bind_returned _ _ _ _ _ Hch). repeat mstep.
  assert (Hwait : forall (k : json -> M GeoTestResult) handler w0,
            receiving w0 = true -> script w0 = [Frame (JObj fields)] :: rest ->
            _message_handlers w0 !! next_id w = Some (length (futures w)) ->
            futures w0 !! length (futures w) = Some Pending ->
            try_except (wait_for (length (futures w)) ≫= k) handler w0 =
              try_except (k (JObj fields)) handler
                (set_futures (<[length (futures w) := Finished (JObj fields)]> (futures w0))
                   (set_script rest w0))).
  { intros k handler w0 Hr0 Hs0 Hh0 Hf0. apply try_except_bind.
    apply (wait_for_reply w0 fields (next_id w)); auto using next_id_nonempty. }
  unfold clean in Hclean.
  destruct (payload json_loads (JObj fields)) as [e|data] eqn:Ep; cbn [and_then];
    [|destruct (_parse_geo_test_result data) as [e|result] eqn:Eg].
  - erewrite try_finally_raised; [reflexivity|].
    erewrite try_except_bind by (apply ws_send_open; [exact Ho|exact Hs]).
    cbn [foldl]. erewrite try_except_bind by reflexivity.
    rewrite Hwait;
      [ | exact Hr | reflexivity | apply lookup_insert_eq
        | simpl_world; rewrite lookup_app_r by lia; rewrite Nat.sub_diag; reflexivity ].
    erewrite try_except_bind by reflexivity. cbv beta. rewrite Hclean.
    apply try_except_passes; [|eapply payload_failure, Ep].
    rewrite Ep. reflexivity.
  - erewrite try_finally_raised; [reflexivity|].
    erewrite try_except_bind by (apply ws_send_open; [exact Ho|exact Hs]).
    cbn [foldl]. erewrite try_except_bind by reflexivity.
    rewrite Hwait;
      [ | exact Hr | reflexivity | apply lookup_insert_eq
        | simpl_world; rewrite lookup_app_r by lia; rewrite Nat.sub_diag; reflexivity ].
    erewrite try_except_bind by reflexivity. cbv beta. rewrite Hclean.
    rewrite Ep. erewrite try_except_bind by reflexivity.
    apply try_except_passes;
      [|eapply parse_failure_no_timeout, parse_failures, Eg].
    rewrite Eg. reflexivity.
  - erewrite try_finally_returned; [reflexivity|].
    erewrite try_except_bind by (apply ws_send_open; [exact Ho|exact Hs]).
    cbn [foldl]. erewrite try_except_bind by reflexivity.
    rewrite Hwait;
      [ | exact Hr | reflexivity | apply lookup_insert_eq
        | simpl_world; rewrite lookup_app_r by lia; rewrite Nat.sub_diag; reflexivity ].
    erewrite try_except_bind by reflexivity. cbv beta. rewrite Hclean.
    rewrite Ep. erewrite try_except_bind by reflexivity.
    apply try_except_returned. rewrite Eg. reflexivity.
Qed.

(** A reply that carries a result for a.com, and one that carries no [data]. *)
Lemma test_domain_reply_outcome_witness :
  snd (test_domain undecodable "a.com" None
         (session [[]; [Frame (JObj [("id", JStr first_id); ("data", geo_json "a.com")])]]))
  = Returned (geo_result "a.com")
  /\ snd (test_domain undecodable "a.com" None
            (session [[]; [Frame (JObj [("id", JStr first_id)])]]))
     = Raised (KeyError (JStr "data")).
Proof.
  split.
  - apply (test_domain_reply_outcome undecodable
             (session [[]; [Frame (JObj [("id", JStr first_id); ("data", geo_json "a.com")])]])
             "a.com" None [("id", JStr first_id); ("data", geo_json "a.com")] []);
      reflexivity.
  - apply (test_domain_reply_outcome undecodable
             (session [[]; [Frame (JObj [("id", JStr first_id)])]])
             "a.com" None [("id", JStr first_id)] []);
      reflexivity.
Defined.

(** X11.  The reply to [get_regions].  The call returns the [data] of the
    reply, whatever it is, decoded first when it is a string; it does not
    look at the [error] field, so that an error reply that carries data is
    returned as a result, and one that carries none raises [KeyError]. *)
Theorem get_regions_reply_outcome json_loads w fields rest :
  connected w = true -> ws_open w = true -> receiving w = true ->
  script w = [] :: [Frame (JObj fields)] :: rest ->
  Py.field "id" fields = Some (JStr (next_id w)) ->
  snd (get_regions json_loads w) =
    match payload json_loads (JObj fields) with
    | inr regions_data => Returned regions_data
    | inl e => Raised e
    end.
Proof.
  intros Hc Ho Hr Hs Hid.
  unfold get_regions. mstep. rewrite Hc. cbn [negb]. repeat mstep.
  assert (Hbody : forall (k : json -> M json) request w0,
            w0 = set_message_handlers (<[next_id w := length (futures w)]> (_message_handlers w))
                   (set_futures (futures w ++ [Pending])
                      (set_message_counter (_message_counter w + 1) w)) ->
            exists w1,
              (ws_send request;; response ← wait_for (length (futures w)); k response) w0
              = k (JObj fields) w1).
  { intros k request w0 ->. eexists.
    erewrite bind_returned by (apply ws_send_open; [exact Ho|exact Hs]).
    cbn [foldl]. apply bind_returned.
    eapply wait_for_reply; simpl_world;
      [ exact Hr | reflexivity | exact Hid | apply next_id_nonempty
      | apply lookup_insert_eq
      | rewrite lookup_app_r by lia; rewrite Nat.sub_diag; reflexivity ]. }
  match goal with
  | |- context [try_finally (ws_send ?request;; _) _ ?w0] =>
      destruct (Hbody (fun response => lift (payload json_loads response)) request w0 eq_refl)
        as [w1 Hrun]
  end.
  destruct (payload json_loads (JObj fields)) as [e|data] eqn:Ep.
  - erewrite try_finally_raised; [reflexivity|]. rewrite Hrun. reflexivity.
  - erewrite try_finally_returned; [reflexivity|]. rewrite Hrun. reflexivity.
Qed.

(** A list of regions sent as structured data, and one sent as text that
    the decoder rejects. *)
Lemma get_regions_reply_outcome_witness :
  snd (get_regions undecodable (session [[]; [Frame (JObj refusal)]]))
  = Returned (JArr [JStr "us-west"])
  /\ snd (get_regions undecodable
            (session [[]; [Frame (JObj [("id", JStr first_id); ("data", JStr "[")])]]))
     = Raised JSONDecodeError.
Proof.
  split.
  - apply (get_regions_reply_outcome undecodable (session [[]; [Frame (JObj refusal)]])
             refusal []); reflexivity.
  - apply (get_regions_reply_outcome undecodable
             (session [[]; [Frame (JObj [("id", JStr first_id); ("data", JStr "[")])]])
             [("id", JStr first_id); ("data", JStr "[")] []); reflexivity.
Defined.

(** ** Batches *)

Lemma collect_timeout_round json_loads domains mid w rounds future results turn rest :
  script w = turn :: rest -> silent turn -> futures w !! future = Some Pending ->
  length results < length domains ->
  collect json_loads (S rounds) domains mid future results w =
    (set_futures (<[future := Cancelled]> (futures w)) (foldl happen (set_script rest w) turn),
     Raised (batch_timeout (length results) (length domains))).
Proof.
  intros Hs Hq Hf Hlt. cbn [collect]. rewrite (proj2 (Nat.ltb_lt _ _) Hlt).
  apply bind_raised.
  erewrite try_except_timeout by (apply wait_for_unanswered; eassumption).
  reflexivity.
Qed.

(** X12.  A batch that stalls.  When partial replies have brought fewer
    results than there are domains and then no frame is decoded while the
    call waits, [batch_test] raises the built-in [TimeoutError] with the
    count of results received and the count wanted; the results received
    are not handed to the caller. *)
Theorem batch_test_timeout_reports_count json_loads w domains given partials turn rest :
  connected w = true -> ws_open w = true -> receiving w = true ->
  domains <> [] ->
  Forall (fun p => partial_reply json_loads (next_id w) (fst p) (snd p)) partials ->
  length (concat (map snd partials)) < length domains ->
  script w = [] :: map delivery partials ++ turn :: rest ->
  silent turn ->
  snd (batch_test json_loads domains given w)
  = Raised (batch_timeout (length (concat (map snd partials))) (length domains)).
Proof.
  intros Hc Ho Hr Hne Hall Hlt Hs Hq.
  destruct (batch_test_partials json_loads w domains given partials (turn :: rest)
              Hc Ho Hr Hne Hall Hlt Hs)
    as (w1 & future & Hrun & Hr1 & Hh1 & Hf1 & Hs1).
  rewrite Hrun.
  erewrite try_finally_raised; [reflexivity|].
  apply (collect_timeout_round _ _ _ _ _ _ _ turn rest); assumption.
Qed.

(** Two results of three are in when the replies stop. *)
Lemma batch_test_timeout_reports_count_witness :
  snd (batch_test undecodable ["a.com"; "b.com"; "c.com"] None
         (session [[]; [Frame (JObj partial_ab)]; []]))
  = Raised (batch_timeout 2 3).
Proof.
  apply (batch_test_timeout_reports_count undecodable
           (session [[]; [Frame (JObj partial_ab)]; []])
           ["a.com"; "b.com"; "c.com"] None
           [(partial_ab, [geo_result "a.com"; geo_result "b.com"])] [] []).
  - reflexivity.
  - reflexivity.
  - reflexivity.
  - discriminate.
  - repeat constructor.
  - cbn. lia.
  - reflexivity.
  - constructor.
Defined.

Lemma wait_for_done w future result turn rest :
  script w = turn :: rest -> futures w !! future = Some (Finished result) ->
  wait_for future w = (foldl happen (set_script rest w) turn, Returned result).
Proof.
  intros Hs Hf. unfold wait_for.
  rewrite (bind_returned _ _ _ _ _ (yield_turn _ _ _ Hs)).
  destruct (turn_settles turn (set_script rest w)) as [_ Hkeep].
  specialize (Hkeep future (Finished result) Hf). cbv beta iota in Hkeep.
  simpl_world. revert Hkeep. generalize (foldl happen (set_script rest w) turn).
  intros w2 Hkeep.
  assert (Hheld : futures w2 !! future = Some (Finished result)) by exact Hkeep.
  mstep. rewrite Hheld. reflexivity.
Qed.

Lemma collect_spins json_loads domains mid future fields ty : forall rounds w results,
  clean fields ->
  Py.field "type" fields = Some ty ->
  Py.eq_str ty "batch_result" = false -> Py.eq_str ty "batch_partial" = false ->
  futures w !! future = Some (Finished (JObj fields)) ->
  length results < length domains ->
  length (script w) < rounds ->
  snd (collect json_loads rounds domains mid future results w) = Suspended.
Proof.
  induction rounds as [|rounds IH]; intros w results Hclean Hty Hr Hp Hf Hlt Hn; [lia|].
  cbn [collect]. rewrite (proj2 (Nat.ltb_lt _ _) Hlt).
  destruct (script w) as [|turn rest] eqn:Hs.
  - erewrite bind_suspended; [reflexivity|].
    apply try_except_suspended, wait_for_idle, Hs.
  - erewrite bind_returned
      by (apply try_except_returned, (wait_for_done _ _ _ turn rest); eassumption).
    unfold clean in Hclean. mstep. rewrite Hclean.
    unfold Py.item at 1. rewrite Hty. mstep. rewrite Hr, Hp.
    apply IH; try assumption.
    + destruct (turn_settles turn (set_script rest w)) as [_ Hkeep].
      apply (Hkeep future (Finished (JObj fields)) Hf).
    + rewrite (turn_steady script). simpl_world. cbn in Hn. lia.
Qed.

(** X13.  A reply that stops a batch for good.  When the reply to a batch
    carries no error and its [type] is neither [batch_result] nor
    [batch_partial], the loop of [batch_test] goes round on it: the future
    holds that reply, every wait returns it again, and no result is ever
    added.  Whatever arrives afterwards, in however many turns, the call
    neither returns nor raises. *)
Theorem batch_test_spins_on_other_reply json_loads w domains given fields ty rest :
  connected w = true -> ws_open w = true -> receiving w = true ->
  domains <> [] ->
  Py.field "id" fields = Some (JStr (next_id w)) ->
  clean fields ->
  Py.field "type" fields = Some ty ->
  Py.eq_str ty "batch_result" = false -> Py.eq_str ty "batch_partial" = false ->
  script w = [] :: [Frame (JObj fields)] :: rest ->
  snd (batch_test json_loads domains given w) = Suspended.
Proof.
  intros Hc Ho Hr Hne Hid Hclean Hty Hres Hpar Hs.
  destruct (batch_test_partials json_loads w domains given [] ([Frame (JObj fields)] :: rest)
              Hc Ho Hr Hne (Forall_nil_2 _))
    as (w1 & future & Hrun & Hr1 & Hh1 & Hf1 & Hs1).
  { cbn. destruct domains; [congruence|cbn; lia]. }
  { exact Hs. }
  rewrite Hrun. cbn [map concat snd].
  assert (Hlt : length (@nil GeoTestResult) < length domains)
    by (destruct domains; [congruence|cbn; lia]).
  assert (Hround : exists w2,
             collect json_loads (S (length ([Frame (JObj fields)] :: rest))) domains
               (next_id w) future [] w1
             = collect json_loads (length ([Frame (JObj fields)] :: rest)) domains
                 (next_id w) future [] w2
             /\ futures w2 !! future = Some (Finished (JObj fields))
             /\ script w2 = rest).
  { eexists. split; [|split].
    - cbn [collect]. rewrite (proj2 (Nat.ltb_lt _ _) Hlt).
      erewrite bind_returned
        by (apply try_except_returned;
            apply (wait_for_reply w1 fields (next_id w) future rest);
            auto using next_id_nonempty).
      unfold clean in Hclean. mstep. rewrite Hclean.
      unfold Py.item at 1. rewrite Hty. mstep. rewrite Hres, Hpar. reflexivity.
    - simpl_world. apply list_lookup_insert_eq. eapply lookup_lt_Some, Hf1.
    - reflexivity. }
  destruct Hround as (w2 & Hround & Hf2 & Hs2).
  unfold try_finally. rewrite Hround.
  pose proof (collect_spins json_loads domains (next_id w) future fields ty
                (length ([Frame (JObj fields)] :: rest)) w2 [] Hclean Hty Hres Hpar Hf2 Hlt)
    as Hspin.
  destruct (collect json_loads (length ([Frame (JObj fields)] :: rest)) domains
              (next_id w) future [] w2) as [w3 o].
  cbn [snd] in Hspin. rewrite Hspin by (rewrite Hs2; cbn; lia). reflexivity.
Qed.

(** An acknowledgment of an unknown type, and more frames after it, a final
    result among them. *)
Lemma batch_test_spins_on_other_reply_witness :
  snd (batch_test undecodable ["a.com"] None
         (session [[]; [Frame (JObj [("type", JStr "batch_started"); ("id", JStr first_id)])];
                   [Frame (JObj result_c)]; []; []]))
  = Suspended.
Proof.
  apply (batch_test_spins_on_other_reply undecodable
           (session [[]; [Frame (JObj [("type", JStr "batch_started"); ("id", JStr first_id)])];
                     [Frame (JObj result_c)]; []; []])
           ["a.com"] None [("type", JStr "batch_started"); ("id", JStr first_id)]
           (JStr "batch_started") [[Frame (JObj result_c)]; []; []]);
    try reflexivity.
  discriminate.
Defined.

(** ** What a request sends *)

(** A batch of no domains is over before anything is done for it. *)
Lemma batch_test_nothing json_loads given w :
  connected w = true -> batch_test json_loads [] given w = (w, Returned []).
Proof. intros Hc. unfold batch_test. mstep. rewrite Hc. reflexivity. Qed.

Lemma yield_keeps_sent : keeps ws_sent yield.
Proof.
  intros w. unfold yield. destruct (script w) as [|turn rest]; cbn; [reflexivity|].
  rewrite (turn_steady ws_sent). reflexivity.
Qed.

Lemma wait_for_keeps_sent future : keeps ws_sent (wait_for future).
Proof.
  unfold wait_for, cancel, done. repeat first [apply yield_keeps_sent | keeps_step].
Qed.

Lemma log_keeps_sent l msg e : keeps ws_sent (log l msg e).
Proof. apply log_steady, _. Qed.

Lemma release_keeps_sent mid : keeps ws_sent (release mid).
Proof. unfold release. keeps_step. Qed.

Lemma collect_keeps_sent json_loads domains mid : forall rounds future results,
  keeps ws_sent (collect json_loads rounds domains mid future results).
Proof.
  induction rounds as [|rounds IH]; intros future results; cbn [collect];
    destruct (length results <? length domains)%nat; try apply keeps_ret.
  - intros w. reflexivity.
  - unfold new_future, register.
    repeat first [ apply IH | apply wait_for_keeps_sent | apply log_keeps_sent | keeps_step ].
Qed.

Lemma emits_send request : emits request (ws_send request).
Proof.
  intros w Ho. unfold ws_send. mstep. rewrite Ho. mstep.
  rewrite yield_keeps_sent. reflexivity.
Qed.

Lemma emits_bind {A B} request (m : M A) (k : A -> M B) :
  emits request m -> (forall a, keeps ws_sent (k a)) -> emits request (m ≫= k).
Proof.
  intros Hm Hk w Ho. specialize (Hm w Ho). unfold mbind, M_bind, bind.
  destruct (m w) as [w1 [a| |]]; cbn in *; try assumption.
  rewrite Hk. assumption.
Qed.

Lemma emits_try_except {A} request (body : M A) handler :
  emits request body -> (forall e h, handler e = Some h -> keeps ws_sent h) ->
  emits request (try_except body handler).
Proof.
  intros Hb Hh w Ho. specialize (Hb w Ho). unfold try_except.
  destruct (body w) as [w1 [a|e|]]; cbn in *; try assumption.
  destruct (handler e) as [h|] eqn:E; cbn; try assumption.
  rewrite (Hh e h E). assumption.
Qed.

Lemma emits_try_finally {A} request (body : M A) cleanup :
  emits request body -> keeps ws_sent cleanup -> emits request (try_finally body cleanup).
Proof.
  intros Hb Hc w Ho. specialize (Hb w Ho). unfold try_finally.
  destruct (body w) as [w1 [a|e|]]; cbn in *; try assumption.
  - specialize (Hc w1). destruct (cleanup w1) as [w2 [[]|e|]]; cbn in *; congruence.
  - specialize (Hc w1). destruct (cleanup w1) as [w2 [[]|e'|]]; cbn in *; congruence.
Qed.

Ltac sent_step :=
  first [ apply wait_for_keeps_sent | apply log_keeps_sent | apply release_keeps_sent
        | apply collect_keeps_sent | keeps_step ].

(** X14.  One call, one frame.  On a connected client with an open
    transport [test_domain], [batch_test] of a list that is not empty,
    [subscribe], [unsubscribe] and [get_regions] each hand exactly one
    frame to the transport, whatever the call then meets: the reply, an
    error, a timeout, the loss of the connection.  The frame carries the
    type of the request, the id that was generated for it, the fields of
    the request and, last, a timestamp; a test names the regions of the
    caller, or those of the configuration when the caller gives none or an
    empty list, and the mode of the configuration.  [batch_test] of the
    empty list sends nothing. *)
Theorem request_frames json_loads w :
  connected w = true -> ws_open w = true ->
  (forall d given,
     exists ts,
       ws_sent (fst (test_domain json_loads d given w))
       = ws_sent w
         ++ [envelope "test"
               [("domain", JStr d); ("data", test_data "domain" (JStr d) given w)] ts w])
  /\ (forall domains given,
        domains <> [] ->
        exists ts,
          ws_sent (fst (batch_test json_loads domains given w))
          = ws_sent w
            ++ [envelope "batch_test"
                  [("data", test_data "domains" (JArr (map JStr domains)) given w)] ts w])
  /\ (forall given, ws_sent (fst (batch_test json_loads [] given w)) = ws_sent w)
  /\ (forall d callback,
        exists ts,
          ws_sent (fst (subscribe d callback w))
          = ws_sent w ++ [envelope "subscribe" [("domain", JStr d)] ts w])
  /\ (forall d,
        exists ts,
          ws_sent (fst (unsubscribe d w))
          = ws_sent w ++ [envelope "unsubscribe" [("domain", JStr d)] ts w])
  /\ exists ts,
       ws_sent (fst (get_regions json_loads w)) = ws_sent w ++ [envelope "get_regions" [] ts w].
Proof.
  intros Hc Ho. split; [|split; [|split; [|split; [|split]]]].
  - intros d given. exists (JNum (clock w)).
    unfold test_domain. mstep. rewrite Hc. cbn [negb]. mstep.
    assert (Hch : regions_or_default given (set_message_counter (_message_counter w + 1) w)
                  = (set_message_counter (_message_counter w + 1) w,
                     Returned (chosen_regions given w)))
      by (destruct given as [[|r rs]|]; reflexivity).
    rewrite (bind_returned _ _ _ _ _ Hch). repeat mstep.
    match goal with
    | |- ws_sent (fst (?m ?w0)) = _ => change (ws_sent w) with (ws_sent w0); apply (emits_try_finally _ _ _)
    end; [|apply release_keeps_sent|exact Ho].
    apply emits_try_except;
      [|intros ? ? ?; eapply keeps_except_TimeoutError; [|eassumption]; repeat sent_step].
    apply emits_bind; [apply emits_send|intros ?; repeat sent_step].
  - intros [|d ds] given Hne; [congruence|]. exists (JNum (clock w)).
    unfold batch_test. mstep. rewrite Hc. cbn [negb]. cbv iota. mstep.
    assert (Hch : regions_or_default given (set_message_counter (_message_counter w + 1) w)
                  = (set_message_counter (_message_counter w + 1) w,
                     Returned (chosen_regions given w)))
      by (destruct given as [[|r rs]|]; reflexivity).
    rewrite (bind_returned _ _ _ _ _ Hch). repeat mstep.
    match goal with
    | |- ws_sent (fst (?m ?w0)) = _ => change (ws_sent w) with (ws_sent w0); apply (emits_try_finally _ _ _)
    end; [|apply release_keeps_sent|exact Ho].
    apply emits_bind; [apply emits_send|intros ?; repeat sent_step].
  - intros given. rewrite batch_test_nothing by exact Hc. reflexivity.
  - intros d callback. exists (JNum (clock w)).
    unfold subscribe. mstep. rewrite Hc. cbn [negb].
    destruct callback as [cb|];
      [destruct (_subscriptions w !! d) as [l|] eqn:El|];
      repeat (mstep; rewrite ?El; cbv iota; simpl_world);
      (match goal with
       | |- ws_sent (fst (?m ?w0)) = _ =>
           change (ws_sent w) with (ws_sent w0); apply (emits_try_finally _ _ _)
       end; [|apply release_keeps_sent|exact Ho];
       apply emits_bind; [apply emits_send|intros ?; repeat sent_step]).
  - intros d. exists (JNum (clock w)).
    unfold unsubscribe. mstep. rewrite Hc. cbn [negb]. repeat mstep.
    match goal with
    | |- ws_sent (fst (?m ?w0)) = _ => change (ws_sent w) with (ws_sent w0); apply (emits_try_finally _ _ _)
    end; [|apply release_keeps_sent|exact Ho].
    apply emits_try_except;
      [|intros ? ? ?; eapply keeps_except_TimeoutError; [|eassumption]; repeat sent_step].
    apply emits_bind; [apply emits_send|intros ?; repeat sent_step].
  - exists (JNum (clock w)).
    unfold get_regions. mstep. rewrite Hc. cbn [negb]. repeat mstep.
    match goal with
    | |- ws_sent (fst (?m ?w0)) = _ => change (ws_sent w) with (ws_sent w0); apply (emits_try_finally _ _ _)
    end; [|apply release_keeps_sent|exact Ho].
    apply emits_bind; [apply emits_send|intros ?; repeat sent_step].
Qed.

(** A test with an empty list of regions and a batch with a list of its
    own, on a fresh client. *)
Lemma request_frames_witness :
  (exists ts,
     ws_sent (fst (test_domain undecodable "a.com" (Some []) (session [[]; []])))
     = [JObj [("type", JStr "test"); ("id", JStr first_id); ("domain", JStr "a.com");
              ("data", JObj [("domain", JStr "a.com");
                             ("regions", JArr [JStr "us-west"; JStr "us-east"; JStr "eu-west"]);
                             ("mode", JStr "basic")]);
              ("timestamp", ts)]])
  /\ (exists ts,
        ws_sent (fst (batch_test undecodable ["a.com"; "b.com"] (Some ["ap-south"])
                        (session [[Closed]])))
        = [JObj [("type", JStr "batch_test"); ("id", JStr first_id);
                 ("data", JObj [("domains", JArr [JStr "a.com"; JStr "b.com"]);
                                ("regions", JArr [JStr "ap-south"]);
                                ("mode", JStr "basic")]);
                 ("timestamp", ts)]]).
Proof.
  split.
  - apply (proj1 (request_frames undecodable (session [[]; []]) eq_refl eq_refl)
             "a.com" (Some [])).
  - apply (proj1 (proj2 (request_frames undecodable (session [[Closed]]) eq_refl eq_refl))
             ["a.com"; "b.com"] (Some ["ap-south"])).
    discriminate.
Defined.

(** ** A transport that is closed *)

Lemma closed_transport_run {A} (k : unit -> M A) request mid w :
  ws_open w = false ->
  try_finally (ws_send request ≫= k) (release mid) w =
    (set_message_handlers (delete mid (_message_handlers w)) w, Raised ConnectionClosed).
Proof.
  intros Ho. apply try_finally_raised, bind_raised, ws_send_closed, Ho.
Qed.

(** X15.  A client that is marked connected while its transport is closed.
    Every operation that sends a request, [unsubscribe] included, raises
    the transport's [ConnectionClosed], which [test_domain] and
    [batch_test] do not turn into a timeout; nothing is sent and no turn
    passes.  [batch_test] of the empty list, which sends no request,
    returns the empty list and leaves the client as it was. *)
Theorem closed_transport_refuses json_loads w :
  connected w = true -> ws_open w = false ->
  (forall d given,
     snd (test_domain json_loads d given w) = Raised ConnectionClosed
     /\ ws_sent (fst (test_domain json_loads d given w)) = ws_sent w
     /\ script (fst (test_domain json_loads d given w)) = script w)
  /\ (forall domains given,
        domains <> [] ->
        snd (batch_test json_loads domains given w) = Raised ConnectionClosed
        /\ ws_sent (fst (batch_test json_loads domains given w)) = ws_sent w
        /\ script (fst (batch_test json_loads domains given w)) = script w)
  /\ (forall given, batch_test json_loads [] given w = (w, Returned []))
  /\ (forall d callback,
        snd (subscribe d callback w) = Raised ConnectionClosed
        /\ ws_sent (fst (subscribe d callback w)) = ws_sent w
        /\ script (fst (subscribe d callback w)) = script w)
  /\ (forall d,
        snd (unsubscribe d w) = Raised ConnectionClosed
        /\ ws_sent (fst (unsubscribe d w)) = ws_sent w
        /\ script (fst (unsubscribe d w)) = script w)
  /\ snd (get_regions json_loads w) = Raised ConnectionClosed
  /\ ws_sent (fst (get_regions json_loads w)) = ws_sent w
  /\ script (fst (get_regions json_loads w)) = script w.
Proof.
  intros Hc Ho. split; [|split; [|split; [|split; [|split]]]].
  - intros d given. unfold test_domain. mstep. rewrite Hc. cbn [negb]. mstep.
    destruct (regions_or_default_run given (set_message_counter (_message_counter w + 1) w))
      as [chosen Hch].
    rewrite (bind_returned _ _ _ _ _ Hch). repeat mstep.
    erewrite try_finally_raised.
    2:{ apply try_except_passes;
          [apply bind_raised, ws_send_closed; exact Ho|discriminate]. }
    repeat split.
  - intros [|d ds] given Hne; [congruence|].
    unfold batch_test. mstep. rewrite Hc. cbn [negb]. cbv iota. mstep.
    destruct (regions_or_default_run given (set_message_counter (_message_counter w + 1) w))
      as [chosen Hch].
    rewrite (bind_returned _ _ _ _ _ Hch). repeat mstep.
    rewrite closed_transport_run by exact Ho. repeat split.
  - intros given. apply batch_test_nothing, Hc.
  - intros d callback. unfold subscribe. mstep. rewrite Hc. cbn [negb].
    destruct callback as [cb|];
      [destruct (_subscriptions w !! d) as [l|] eqn:El|];
      repeat (mstep; rewrite ?El; cbv iota; simpl_world);
      rewrite closed_transport_run by exact Ho; repeat split.
  - intros d. unfold unsubscribe. mstep. rewrite Hc. cbn [negb]. repeat mstep.
    erewrite try_finally_raised.
    2:{ apply try_except_passes;
          [apply bind_raised, ws_send_closed; exact Ho|discriminate]. }
    repeat split.
  - unfold get_regions. mstep. rewrite Hc. cbn [negb]. repeat mstep.
    rewrite closed_transport_run by exact Ho. repeat split.
Qed.

(** The connection is lost after the receive loop has ended: the client
    still counts as connected, and [unsubscribe] raises. *)
Lemma closed_transport_refuses_witness :
  snd (unsubscribe "a.com" (happen (set_receiving false (watching [])) Closed))
  = Raised ConnectionClosed
  /\ ws_sent (fst (unsubscribe "a.com" (happen (set_receiving false (watching [])) Closed)))
     = []
  /\ script (fst (unsubscribe "a.com" (happen (set_receiving false (watching [])) Closed)))
     = [].
Proof.
  apply (proj1 (proj2 (proj2 (proj2 (proj2
           (closed_transport_refuses undecodable
              (happen (set_receiving false (watching [])) Closed) eq_refl eq_refl)))))
           "a.com").
Defined.

(** ** A reply that is early *)

Lemma handle_reply_run json_loads fields w :
  clean fields ->
  (err ← lift (Py.get (JObj fields) "error" JNull);
   if Py.truthy err then
     e ← lift (Py.item (JObj fields) "error");
     raise (RuntimeError [Txt "ProxyHawk error: "; Val e])
   else
     result_data ← lift (payload json_loads (JObj fields));
     lift (_parse_geo_test_result result_data)) w
  = (w, match and_then (payload json_loads (JObj fields)) _parse_geo_test_result with
        | inr result => Returned result
        | inl e => Raised e
        end).
Proof.
  intros Hclean. unfold clean in Hclean. unfold Py.get. mstep. rewrite Hclean.
  destruct (payload json_loads (JObj fields)) as [e|data]; cbn [and_then]; [reflexivity|].
  mstep. destruct (_parse_geo_test_result data); reflexivity.
Qed.

Lemma try_except_outcome {A} (body handler : M A) w w1 o :
  body w = (w1, o) -> o <> Raised AsyncTimeoutError ->
  try_except body (except_TimeoutError handler) w = (w1, o).
Proof.
  intros Hb Ho. unfold try_except. rewrite Hb.
  destruct o as [a|e|]; try reflexivity. destruct e; try reflexivity. congruence.
Qed.

Lemma decoded_no_timeout json_loads fields :
  match and_then (payload json_loads (JObj fields)) _parse_geo_test_result with
  | inr result => Returned result
  | inl e => Raised e
  end <> Raised AsyncTimeoutError.
Proof.
  destruct (payload json_loads (JObj fields)) as [e|data] eqn:Ep; cbn [and_then].
  - intros H. inversion H; subst. eapply payload_failure; [exact Ep|reflexivity].
  - destruct (_parse_geo_test_result data) as [e|g] eqn:Eg; [|discriminate].
    intros H. inversion H; subst.
    eapply parse_failure_no_timeout; [eapply parse_failures, Eg|reflexivity].
Qed.

(** X16.  A reply that comes before the wait.  The handle of a request is
    registered before the request is handed to the transport, so that a
    reply handled by the receive loop while the send is still in progress
    is not lost: it is put on the future, stays there whatever arrives
    next, and [test_domain] returns what it carries once it runs again. *)
Theorem early_reply_is_caught json_loads w d given fields turn rest :
  connected w = true -> ws_open w = true -> receiving w = true ->
  script w = [Frame (JObj fields)] :: turn :: rest ->
  Py.field "id" fields = Some (JStr (next_id w)) ->
  clean fields ->
  snd (test_domain json_loads d given w) =
    match and_then (payload json_loads (JObj fields)) _parse_geo_test_result with
    | inr result => Returned result
    | inl e => Raised e
    end.
Proof.
  intros Hc Ho Hr Hs Hid Hclean.
  unfold test_domain. mstep. rewrite Hc. cbn [negb]. mstep.
  destruct (regions_or_default_run given (set_message_counter (_message_counter w + 1) w))
    as [chosen Hch].
  rewrite (bind_returned _ _ _ _ _ Hch). repeat mstep.
  unfold try_finally.
  erewrite try_except_outcome; [| |apply (decoded_no_timeout json_loads fields)].
  2:{ erewrite bind_returned by (apply ws_send_open; [exact Ho|exact Hs]).
      cbn [foldl happen]. unfold _message_receiver. simpl_world. rewrite Hr.
      erewrite (handle_message_routed _ fields (next_id w));
        [ | exact Hid | apply next_id_nonempty | apply lookup_insert_eq
          | simpl_world; rewrite lookup_app_r by lia; rewrite Nat.sub_diag; reflexivity ].
      simpl_world. erewrite bind_returned by reflexivity.
      erewrite bind_returned.
      2:{ apply (wait_for_done _ _ (JObj fields) turn rest); simpl_world; [reflexivity|].
          apply list_lookup_insert_eq. rewrite length_app. cbn. lia. }
      apply handle_reply_run, Hclean. }
  unfold release. run.
  destruct (and_then _ _); reflexivity.
Qed.

(** The result for a.com arrives during the send; a stale frame under the
    same id follows. *)
Lemma early_reply_is_caught_witness :
  snd (test_domain undecodable "a.com" None
         (session [[Frame (JObj [("id", JStr first_id); ("data", geo_json "a.com")])];
                   [Frame (JObj refusal)]]))
  = Returned (geo_result "a.com").
Proof.
  apply (early_reply_is_caught undecodable
           (session [[Frame (JObj [("id", JStr first_id); ("data", geo_json "a.com")])];
                     [Frame (JObj refusal)]])
           "a.com" None [("id", JStr first_id); ("data", geo_json "a.com")]
           [Frame (JObj refusal)] []);
    reflexivity.
Defined.

(** ** The table of subscriptions *)

Lemma keeps_map {A X Y} (f : X -> Y) (proj : World -> X) (m : M A) :
  keeps proj m -> keeps (fun w => f (proj w)) m.
Proof. intros H w. cbv beta. rewrite H. reflexivity. Qed.

Lemma new_future_keeps {X} (proj : World -> X) `{!Steady proj} : keeps proj new_future.
Proof. intros w. apply steady_futures. Qed.

Section OtherDomains.
Variables (d d' : string).
Hypothesis other : d <> d'.

Ltac entry_step :=
  first
    [ apply (keeps_map (fun s => s !! d') _subscriptions);
      first [ apply ws_send_keeps_subscriptions | apply wait_for_keeps_subscriptions
            | apply log_keeps_subscriptions | apply release_keeps_subscriptions
            | apply new_future_keeps; apply _ ]
    | keeps_step
    | apply keeps_modify; intros ?; simpl_world;
      first [ apply lookup_delete_ne; exact other
            | apply lookup_alter_ne; exact other
            | match goal with
              | |- context [match ?x with _ => _ end] => destruct x
              end; simpl_world; [reflexivity|apply lookup_insert_ne; exact other] ] ].

Lemma subscribe_keeps_entry callback :
  keeps (fun w => _subscriptions w !! d') (subscribe d callback).
Proof.
  unfold subscribe, _generate_message_id, timestamp, register, not_connected.
  repeat entry_step.
Qed.

Lemma unsubscribe_keeps_entry :
  keeps (fun w => _subscriptions w !! d') (unsubscribe d).
Proof.
  unfold unsubscribe, _generate_message_id, timestamp, register.
  repeat entry_step.
Qed.
End OtherDomains.

(** X17.  Subscribing to a domain and unsubscribing from it concern that
    domain alone: whatever the call meets and however it ends, the
    listeners of every other domain are afterwards what they were. *)
Theorem other_domains_untouched d d' w :
  d <> d' ->
  (forall callback, listeners d' (fst (subscribe d callback w)) = listeners d' w)
  /\ listeners d' (fst (unsubscribe d w)) = listeners d' w.
Proof.
  intros Hne. unfold listeners. split.
  - intros callback. rewrite (subscribe_keeps_entry d d' Hne callback w). reflexivity.
  - rewrite (unsubscribe_keeps_entry d d' Hne w). reflexivity.
Qed.

(** The listeners of a.com after a subscription to b.com that is refused
    and after b.com has been unsubscribed from. *)
Lemma other_domains_untouched_witness :
  (forall callback,
     listeners "a.com" (fst (subscribe "b.com" callback (watching [[]; [Frame (JObj refusal)]])))
     = listeners "a.com" (watching [[]; [Frame (JObj refusal)]]))
  /\ listeners "a.com" (fst (unsubscribe "b.com" (watching [[]; [Frame (JObj refusal)]])))
     = listeners "a.com" (watching [[]; [Frame (JObj refusal)]]).
Proof.
  apply (other_domains_untouched "b.com" "a.com" (watching [[]; [Frame (JObj refusal)]])).
  discriminate.
Defined.

Lemma subscribe_without_callback d : keeps _subscriptions (subscribe d None).
Proof.
  unfold subscribe, _generate_message_id, timestamp, register, not_connected.
  repeat first [ apply ws_send_keeps_subscriptions | apply wait_for_keeps_subscriptions
               | apply log_keeps_subscriptions | apply release_keeps_subscriptions
               | apply new_future_keeps; apply _ | keeps_step ].
Qed.

(** X18.  Listeners pile up.  Each call of [subscribe] with a callback on a
    connected client adds the callback at the end of the list of its
    domain, whether or not the callback is in the list already and
    however the call ends; a call without a callback leaves the table as
    it is.  Nothing but an acknowledged [unsubscribe] takes a listener
    out. *)
Theorem listeners_pile_up w d first second :
  connected w = true ->
  connected (fst (subscribe d (Some first) w)) = true ->
  listeners d (fst (subscribe d (Some second) (fst (subscribe d (Some first) w))))
  = listeners d w ++ [first; second]
  /\ _subscriptions (fst (subscribe d None w)) = _subscriptions w.
Proof.
  intros Hc Hc1. split; [|apply subscribe_without_callback].
  destruct (subscribe d (Some first) w) as [w1 o1] eqn:E1.
  pose proof (subscribe_keeps_listener _ _ _ _ _ Hc E1) as H1. cbn [fst] in *.
  destruct (subscribe d (Some second) w1) as [w2 o2] eqn:E2.
  pose proof (subscribe_keeps_listener _ _ _ _ _ Hc1 E2) as H2. cbn [fst].
  unfold listeners at 1. rewrite H2, lookup_insert_eq. cbn [default from_option id].
  unfold listeners at 1. rewrite H1, lookup_insert_eq. cbn [default from_option id].
  rewrite <- app_assoc. reflexivity.
Qed.

(** The same listener subscribed twice to a domain that has two listeners
    already: the first call is refused by the server, the second times
    out. *)
Lemma listeners_pile_up_witness :
  listeners "a.com"
    (fst (subscribe "a.com" (Some quiet_listener)
            (fst (subscribe "a.com" (Some quiet_listener)
                    (watching [[]; [Frame (JObj refusal)]; []; []])))))
  = [faulty_listener; quiet_listener; quiet_listener; quiet_listener]
  /\ _subscriptions (fst (subscribe "a.com" None (watching [[]; [Frame (JObj refusal)]; []; []])))
     = _subscriptions (watching [[]; [Frame (JObj refusal)]; []; []]).
Proof.
  apply (listeners_pile_up (watching [[]; [Frame (JObj refusal)]; []; []]) "a.com"
           quiet_listener quiet_listener).
  - reflexivity.
  - reflexivity.
Defined.

(** ** The global listener *)

(** X19.  The global listener.  After [on_domain_update] every update that
    is dispatched, for whatever domain, subscribed to or not, ends with a
    call of the callback that was given, after the listeners of the
    domain; a listener set before is replaced and not called any more, and
    [on_domain_update(None)] leaves the listeners of the domain alone. *)
Theorem global_listener_hears_every_update w callback fields :
  let domain := default (JStr "") (Py.field "domain" fields) in
  let data := default (JObj []) (Py.field "data" fields) in
  let globals := match callback with Some cb => [cb] | None => [] end in
  receiving w = true ->
  unrouted fields w ->
  Py.field "type" fields = Some (JStr "domain_update") ->
  unhashable domain = false ->
  Forall (tame domain data) (listeners_of domain w ++ globals) ->
  called (happen (fst (on_domain_update callback w)) (Frame (JObj fields)))
  = called w ++ map (invocation domain data) (listeners_of domain w ++ globals).
Proof.
  intros domain data globals Hr Hu Hty Hh Ht.
  set (w1 := fst (on_domain_update callback w)).
  assert (Hg : global_listeners w1 = globals) by (destruct callback; reflexivity).
  assert (Hl : listeners_of domain w1 = listeners_of domain w)
    by (destruct domain; reflexivity).
  cbn [happen]. unfold _message_receiver.
  change (receiving w1) with (receiving w). rewrite Hr.
  rewrite (handle_message_by_type fields w1) by exact Hu.
  unfold type_of. rewrite Hty.
  cbn [default from_option id Py.eq_str String.eqb Ascii.eqb Bool.eqb].
  fold domain data.
  rewrite (handle_domain_update_hashable domain data w1 Hh)
    by (rewrite Hg, Hl; exact Ht).
  simpl_world. rewrite Hg, Hl. reflexivity.
Qed.

(** A client whose global listener is replaced, and an update for a domain
    nobody subscribed to. *)
Lemma global_listener_hears_every_update_witness :
  called (happen (fst (on_domain_update (Some quiet_listener) (watching [])))
            (Frame (JObj [("type", JStr "domain_update"); ("domain", JStr "b.com")])))
  = [(1, JStr "b.com", JObj [])].
Proof.
  apply (global_listener_hears_every_update (watching []) (Some quiet_listener)
           [("type", JStr "domain_update"); ("domain", JStr "b.com")]).
  - reflexivity.
  - left. reflexivity.
  - reflexivity.
  - reflexivity.
  - repeat constructor. intros e H. discriminate H.
Defined.

(** ** Identifiers of requests *)

Lemma yield_keeps {X} (proj : World -> X) `{!Steady proj} :
  (forall s w, proj (set_script s w) = proj w) -> keeps proj yield.
Proof.
  intros Hscript w. unfold yield. destruct (script w) as [|turn rest]; cbn; [reflexivity|].
  rewrite (turn_steady proj). apply Hscript.
Qed.

Lemma yield_keeps_counter : keeps _message_counter yield.
Proof. apply yield_keeps; [apply _|reflexivity]. Qed.

Ltac counter_step :=
  first [ apply yield_keeps_counter
        | apply (log_steady _message_counter)
        | apply (new_future_keeps _message_counter)
        | keeps_step
        | apply keeps_modify; intros ?;
          match goal with
          | |- context [match ?x with _ => _ end] => destruct x; reflexivity
          end ].

Lemma wait_for_keeps_counter future : keeps _message_counter (wait_for future).
Proof. unfold wait_for, cancel, done. repeat counter_step. Qed.

Lemma ws_send_keeps_counter request : keeps _message_counter (ws_send request).
Proof. unfold ws_send. repeat counter_step. Qed.

Lemma collect_keeps_counter json_loads domains mid : forall rounds future results,
  keeps _message_counter (collect json_loads rounds domains mid future results).
Proof.
  induction rounds as [|rounds IH]; intros future results; cbn [collect];
    destruct (length results <? length domains)%nat; try apply keeps_ret.
  - intros w. reflexivity.
  - unfold register.
    repeat first [ apply IH | apply wait_for_keeps_counter | counter_step ].
Qed.

(** The rest of an operation, once its id is drawn, leaves the counter
    alone. *)
Ltac counter_kept :=
  match goal with
  | |- _message_counter (fst (?m ?w0)) = _ =>
      let H := fresh in
      assert (H : keeps _message_counter m);
      [ unfold regions_or_default, request_data, timestamp, register, release
      | rewrite (H w0); reflexivity ]
  end.

(** X20.  Ids are not used twice.  On a connected client [test_domain],
    [batch_test] of a list that is not empty, [subscribe], [unsubscribe]
    and [get_regions] each draw one id, whatever the call meets: when it is
    over, or suspended, the counter is one more than it was.  [batch_test]
    of the empty list sends no request and draws no id: the counter stays.
    The ids drawn at different values of the counter differ, wherever the
    clock stands: no two requests of a client share an id. *)
Theorem request_ids_are_fresh json_loads w :
  connected w = true ->
  (forall d given,
     _message_counter (fst (test_domain json_loads d given w)) = (_message_counter w + 1)%Z)
  /\ (forall domains given,
        domains <> [] ->
        _message_counter (fst (batch_test json_loads domains given w))
        = (_message_counter w + 1)%Z)
  /\ (forall given,
        _message_counter (fst (batch_test json_loads [] given w)) = _message_counter w)
  /\ (forall d callback,
        _message_counter (fst (subscribe d callback w)) = (_message_counter w + 1)%Z)
  /\ (forall d, _message_counter (fst (unsubscribe d w)) = (_message_counter w + 1)%Z)
  /\ _message_counter (fst (get_regions json_loads w)) = (_message_counter w + 1)%Z
  /\ (forall w', _message_counter w' <> _message_counter w -> next_id w' <> next_id w).
Proof.
  intros Hc. split; [|split; [|split; [|split; [|split; [|split]]]]].
  - intros d given. unfold test_domain. mstep. rewrite Hc. cbn [negb]. mstep.
    counter_kept.
    repeat first [ apply ws_send_keeps_counter | apply wait_for_keeps_counter | counter_step ].
  - intros [|d ds] given Hne; [congruence|].
    unfold batch_test. mstep. rewrite Hc. cbn [negb]. cbv iota. mstep.
    counter_kept.
    repeat first [ apply ws_send_keeps_counter | apply wait_for_keeps_counter
                 | apply collect_keeps_counter | counter_step ].
  - intros given. rewrite batch_test_nothing by exact Hc. reflexivity.
  - intros d callback. unfold subscribe. mstep. rewrite Hc. cbn [negb]. mstep.
    counter_kept.
    repeat first [ apply ws_send_keeps_counter | apply wait_for_keeps_counter | counter_step ].
  - intros d. unfold unsubscribe. mstep. rewrite Hc. cbn [negb]. mstep.
    counter_kept.
    repeat first [ apply ws_send_keeps_counter | apply wait_for_keeps_counter | counter_step ].
  - unfold get_regions. mstep. rewrite Hc. cbn [negb]. mstep.
    counter_kept.
    repeat first [ apply ws_send_keeps_counter | apply wait_for_keeps_counter | counter_step ].
  - intros w' Hne E. apply next_id_inj in E as [_ E]. congruence.
Qed.

(** The counter after a test that times out, and the ids of the first two
    requests of a client. *)
Lemma request_ids_are_fresh_witness :
  _message_counter (fst (test_domain undecodable "a.com" None (session [[]; []]))) = 1%Z
  /\ next_id (fst (test_domain undecodable "a.com" None (session [[]; []])))
     <> next_id (session [[]; []]).
Proof.
  split.
  - apply (proj1 (request_ids_are_fresh undecodable (session [[]; []]) eq_refl) "a.com" None).
  - apply (proj2 (proj2 (proj2 (proj2 (proj2 (proj2
             (request_ids_are_fresh undecodable (session [[]; []]) eq_refl))))))).
    vm_compute. discriminate.
Defined.

(** ** Results that parse *)

Lemma item_read fields k v : Py.item (JObj fields) k = inr v -> Py.field k fields = Some v.
Proof.
  unfold Py.item. destruct (Py.field k fields); intros H; inversion H; reflexivity.
Qed.

(** One step down a chain of reads that has succeeded. *)
Ltac read H :=
  match type of H with
  | and_then ?r _ = inr _ =>
      let E := fresh "E" in
      destruct r eqn:E; cbn [and_then] in H; [discriminate|]
  end.

(** X21.  What a parsed result holds.  When [_parse_geo_test_result]
    returns, its argument was a dict that has the five fields read by
    subscript, and the result carries their values as they are; a dict
    without [region_results] gives a result with no region, and one
    without [summary] the summary of defaults: empty lists, zero, an empty
    dict, false. *)
Theorem parse_geo_test_result_reads data result :
  _parse_geo_test_result data = inr result ->
  exists fields,
    data = JObj fields
    /\ Py.field "domain" fields = Some (domain result)
    /\ Py.field "tested_at" fields = Some (tested_at result)
    /\ Py.field "has_geographic_differences" fields = Some (has_geographic_differences result)
    /\ Py.field "is_round_robin" fields = Some (is_round_robin result)
    /\ Py.field "confidence" fields = Some (confidence result)
    /\ (Py.field "region_results" fields = None -> region_results result = [])
    /\ (Py.field "summary" fields = None -> summary result = empty_summary).
Proof.
  unfold _parse_geo_test_result. intros H.
  destruct data as [|b|n|s|items|fields]; try discriminate.
  exists fields. split; [reflexivity|].
  cbn [Py.get and_then] in H. read H.
  destruct (parse_regions l []) as [|rs] eqn:Ers; cbn [and_then] in H; [discriminate|].
  do 5 read H.
  destruct (Py.item (JObj fields) "domain") as [|v1] eqn:Hv1; cbn [and_then] in H;
    [discriminate|].
  destruct (Py.item (JObj fields) "tested_at") as [|v2] eqn:Hv2; cbn [and_then] in H;
    [discriminate|].
  destruct (Py.item (JObj fields) "has_geographic_differences") as [|v3] eqn:Hv3;
    cbn [and_then] in H; [discriminate|].
  destruct (Py.item (JObj fields) "is_round_robin") as [|v4] eqn:Hv4; cbn [and_then] in H;
    [discriminate|].
  destruct (Py.item (JObj fields) "confidence") as [|v5] eqn:Hv5; cbn [and_then] in H;
    [discriminate|].
  inversion H; subst; clear H. cbn.
  repeat (split; [apply item_read; assumption|]).
  split.
  - intros Hnone. rewrite Hnone in E. cbn in E. inversion E; subst.
    cbn in Ers. inversion Ers. reflexivity.
  - intros Hnone. rewrite Hnone in *. cbn in *.
    repeat match goal with
           | H : inr _ = inr _ |- _ => inversion H; subst; clear H
           end.
    reflexivity.
Qed.

(** The least that parses. *)
Lemma parse_geo_test_result_reads_witness :
  exists fields,
    geo_json "a.com" = JObj fields
    /\ Py.field "domain" fields = Some (domain (geo_result "a.com"))
    /\ Py.field "tested_at" fields = Some (tested_at (geo_result "a.com"))
    /\ Py.field "has_geographic_differences" fields
       = Some (has_geographic_differences (geo_result "a.com"))
    /\ Py.field "is_round_robin" fields = Some (is_round_robin (geo_result "a.com"))
    /\ Py.field "confidence" fields = Some (confidence (geo_result "a.com"))
    /\ (Py.field "region_results" fields = None -> region_results (geo_result "a.com") = [])
    /\ (Py.field "summary" fields = None -> summary (geo_result "a.com") = empty_summary).
Proof.
  apply (parse_geo_test_result_reads (geo_json "a.com") (geo_result "a.com")).
  reflexivity.
Defined.

Lemma dict_set_fresh {V} key (value : V) d :
  key ∉ map fst d -> dict_set key value d = d ++ [(key, value)].
Proof.
  induction d as [|[k v] d IH]; intros Hk; cbn; [reflexivity|].
  cbn in Hk. apply not_elem_of_cons in Hk as [Hne Hk].
  rewrite (proj2 (String.eqb_neq key k) Hne). rewrite IH by exact Hk. reflexivity.
Qed.

Lemma parse_regions_in_order entries : forall acc parsed,
  NoDup (map fst acc ++ map fst entries) ->
  parse_regions entries acc = inr parsed ->
  exists added,
    parsed = acc ++ added
    /\ Forall2 (fun entry region =>
                  fst region = fst entry /\ parse_region (snd entry) = inr (snd region))
         entries added.
Proof.
  induction entries as [|[name v] rest IH]; intros acc parsed Hnd; cbn [parse_regions].
  - intros H; inversion H; subst. exists []. rewrite app_nil_r. split; constructor.
  - destruct (parse_region v) as [|r] eqn:Er; cbn [and_then]; [discriminate|].
    intros H. cbn [map fst] in Hnd.
    assert (Hfresh : name ∉ map fst acc).
    { apply NoDup_app in Hnd as (_ & Hdis & _). intros Hin.
      apply (Hdis name Hin). left. }
    rewrite (dict_set_fresh _ _ _ Hfresh) in H.
    destruct (IH (acc ++ [(name, r)]) parsed) as (added & -> & Hall); [|exact H|].
    + rewrite map_app. cbn [map fst]. rewrite <- app_assoc. exact Hnd.
    + exists ((name, r) :: added). rewrite <- app_assoc. split; [reflexivity|].
      constructor; [split; [reflexivity|exact Er]|exact Hall].
Qed.

(** X22.  Regions keep their names and their order.  The regions of a
    parsed result are those of [region_results] in the reply, one for
    one and in the order of the reply, each under its own name and parsed
    from its own entry (the names of a JSON object being distinct). *)
Theorem parsed_regions_follow_reply fields entries result :
  _parse_geo_test_result (JObj fields) = inr result ->
  Py.field "region_results" fields = Some (JObj entries) ->
  NoDup (map fst entries) ->
  Forall2 (fun entry region =>
             fst region = fst entry /\ parse_region (snd entry) = inr (snd region))
    entries (region_results result).
Proof.
  unfold _parse_geo_test_result. intros H Hentries Hnd.
  cbn [Py.get and_then] in H. rewrite Hentries in H. cbn [default from_option id Py.items and_then] in H.
  destruct (parse_regions entries []) as [|rs] eqn:Ers; cbn [and_then] in H; [discriminate|].
  do 10 read H. inversion H; subst; clear H. cbn [region_results].
  destruct (parse_regions_in_order entries [] rs Hnd Ers) as (added & -> & Hall).
  exact Hall.
Qed.

(** A reply with two regions. *)
Lemma parsed_regions_follow_reply_witness :
  Forall2 (fun entry region =>
             fst region = fst entry /\ parse_region (snd entry) = inr (snd region))
    [("us-west", region_json "us-west"); ("eu-west", region_json "eu-west")]
    [("us-west", region_result "us-west"); ("eu-west", region_result "eu-west")].
Proof.
  apply (parsed_regions_follow_reply two_regions
           [("us-west", region_json "us-west"); ("eu-west", region_json "eu-west")]
           (mkGeoTestResult (JStr "a.com") (JStr "2024-05-01T12:00:00Z") (JBool false)
              (JBool false) (JNum 1)
              [("us-west", region_result "us-west"); ("eu-west", region_result "eu-west")]
              empty_summary)).
  - reflexivity.
  - reflexivity.
  - compute_done.
Defined.

(** ** Records built from keyword arguments *)

Lemma forallb_known (names : list string) (fields : list (string * json)) :
  forallb (fun kv => bool_decide (fst kv ∈ names)) fields = true
  <-> Forall (fun kv => fst kv ∈ names) fields.
Proof.
  induction fields as [|kv fields IH]; cbn.
  - split; [constructor|reflexivity].
  - rewrite andb_true_iff, bool_decide_eq_true, IH. split.
    + intros [H1 H2]. constructor; assumption.
    + intros H. inversion H; subst. auto.
Qed.

(** X23.  What makes a DNS or an HTTP record.  Building a [DNSResult] from
    a dict unpacked into keyword arguments succeeds exactly when the keys
    of the dict are the fields of the record, all of them and no other, in
    whatever order; the record carries the values under those keys.  The
    same holds of [HTTPResult] and its eight fields.  A record with an
    extra key, or with a key missing, is refused. *)
Theorem records_take_exactly_their_fields fields :
  (forall r,
     make_DNSResult (JObj fields) = inr r
     <-> Forall (fun kv => fst kv ∈ DNSResult_fields) fields
         /\ Py.field "query_time" fields = Some (query_time r)
         /\ Py.field "ip" fields = Some (ip r)
         /\ Py.field "ttl" fields = Some (ttl r)
         /\ Py.field "record_type" fields = Some (record_type r))
  /\ (forall r,
        make_HTTPResult (JObj fields) = inr r
        <-> Forall (fun kv => fst kv ∈ HTTPResult_fields) fields
            /\ Py.field "request_time" fields = Some (request_time r)
            /\ Py.field "status_code" fields = Some (status_code r)
            /\ Py.field "response_time_ms" fields = Some (http_response_time_ms r)
            /\ Py.field "headers" fields = Some (headers r)
            /\ Py.field "server_header" fields = Some (server_header r)
            /\ Py.field "content_hash" fields = Some (content_hash r)
            /\ Py.field "content_size" fields = Some (content_size r)
            /\ Py.field "remote_addr" fields = Some (remote_addr r)).
Proof.
  split; intros r.
  - unfold make_DNSResult, Py.kwargs. fold DNSResult_fields.
    rewrite <- forallb_known.
    destruct (forallb _ fields); cbn [and_then].
    + unfold DNSResult_fields. cbn [mapM mbind option_bind mret option_ret].
      destruct (Py.field "query_time" fields) as [a|]; cbn;
        [|split; [discriminate|intros (_ & H & _); discriminate]].
      destruct (Py.field "ip" fields) as [b|]; cbn;
        [|split; [discriminate|intros (_ & _ & H & _); discriminate]].
      destruct (Py.field "ttl" fields) as [c|]; cbn;
        [|split; [discriminate|intros (_ & _ & _ & H & _); discriminate]].
      destruct (Py.field "record_type" fields) as [d|]; cbn;
        [|split; [discriminate|intros (_ & _ & _ & _ & H); discriminate]].
      split.
      * intros H. inversion H; subst. cbn. auto.
      * intros (_ & Ha & Hb & Hc & Hd). destruct r; cbn in *. congruence.
    + split; [discriminate|]. intros [H _]. discriminate.
  - unfold make_HTTPResult, Py.kwargs. fold HTTPResult_fields.
    rewrite <- forallb_known.
    destruct (forallb _ fields); cbn [and_then].
    + unfold HTTPResult_fields. cbn [mapM mbind option_bind mret option_ret].
      destruct (Py.field "request_time" fields) as [a|]; cbn;
        [|split; [discriminate|intros (_ & H & _); discriminate]].
      destruct (Py.field "status_code" fields) as [b|]; cbn;
        [|split; [discriminate|intros (_ & _ & H & _); discriminate]].
      destruct (Py.field "response_time_ms" fields) as [c|]; cbn;
        [|split; [discriminate|intros (_ & _ & _ & H & _); discriminate]].
      destruct (Py.field "headers" fields) as [d|]; cbn;
        [|split; [discriminate|intros (_ & _ & _ & _ & H & _); discriminate]].
      destruct (Py.field "server_header" fields) as [e|]; cbn;
        [|split; [discriminate|intros (_ & _ & _ & _ & _ & H & _); discriminate]].
      destruct (Py.field "content_hash" fields) as [f|]; cbn;
        [|split; [discriminate|intros (_ & _ & _ & _ & _ & _ & H & _); discriminate]].
      destruct (Py.field "content_size" fields) as [g|]; cbn;
        [|split; [discriminate|intros (_ & _ & _ & _ & _ & _ & _ & H & _); discriminate]].
      destruct (Py.field "remote_addr" fields) as [h|]; cbn;
        [|split; [discriminate|intros (_ & _ & _ & _ & _ & _ & _ & _ & H); discriminate]].
      split.
      * intros H. inversion H; subst. cbn. repeat split; reflexivity.
      * intros (_ & Ha & Hb & Hc & Hd & He & Hf & Hg & Hh). destruct r; cbn in *. congruence.
    + split; [discriminate|]. intros [H _]. discriminate.
Qed.

(** ** Connecting and disconnecting *)

Arguments within : simpl never.
Arguments guarded : simpl never.
Arguments observe : simpl never.
Arguments connect : simpl never.
Arguments disconnect : simpl never.

Ltac simpl_client :=
  cbn [self ws _reconnect_task _heartbeat_task _stop_event on_connected on_disconnected
       on_error dial notified set_self set_ws set_reconnect_task set_heartbeat_task
       set_stop_event set_notified fst snd] in *.

Lemma L_bind_returned {A B} (m : L A) (k : A -> L B) c c1 a :
  m c = (c1, Returned a) -> (m ≫= k) c = k a c1.
Proof. intros H. unfold mbind, L_bind, L_bind_. rewrite H. reflexivity. Qed.

Lemma L_bind_raised {A B} (m : L A) (k : A -> L B) c c1 e :
  m c = (c1, Raised e) -> (m ≫= k) c = (c1, Raised e).
Proof. intros H. unfold mbind, L_bind, L_bind_. rewrite H. reflexivity. Qed.

Lemma L_bind_suspended {A B} (m : L A) (k : A -> L B) c c1 :
  m c = (c1, Suspended) -> (m ≫= k) c = (c1, Suspended).
Proof. intros H. unfold mbind, L_bind, L_bind_. rewrite H. reflexivity. Qed.

Lemma L_bind_assoc {A B C} (m : L A) (k : A -> L B) (k2 : B -> L C) c :
  ((m ≫= k) ≫= k2) c = (m ≫= fun a => k a ≫= k2) c.
Proof. unfold mbind, L_bind, L_bind_. destruct (m c) as [c1 [a|e|]]; reflexivity. Qed.

Lemma within_run {A} (m : M A) c w r :
  m (self c) = (w, r) -> within m c = (set_self w c, r).
Proof. intros H. unfold within. rewrite H. reflexivity. Qed.

Section Preserves.
Context {X : Type} (proj : Client -> X).
Hypothesis proj_self : forall w c, proj (set_self w c) = proj c.

Lemma preserves_ret {A} (a : A) : preserves proj (mret a).
Proof. intros c. reflexivity. Qed.

Lemma preserves_fail {A} (e : exn) : preserves proj (@fail A e).
Proof. intros c. reflexivity. Qed.

Lemma preserves_read {A} (f : Client -> A) : preserves proj (read f).
Proof. intros c. reflexivity. Qed.

Lemma preserves_within {A} (m : M A) : preserves proj (within m).
Proof. intros c. unfold within. destruct (m (self c)) as [w r]. apply proj_self. Qed.

Lemma preserves_update (f : Client -> Client) :
  (forall c, proj (f c) = proj c) -> preserves proj (update f).
Proof. intros H c. apply H. Qed.

Lemma preserves_bind {A B} (m : L A) (k : A -> L B) :
  preserves proj m -> (forall a, preserves proj (k a)) -> preserves proj (m ≫= k).
Proof.
  intros Hm Hk c. unfold mbind, L_bind, L_bind_.
  specialize (Hm c). destruct (m c) as [c1 [a| |]]; cbn in *; try assumption.
  rewrite Hk. assumption.
Qed.

Lemma preserves_guarded {A} (body : L A) handler :
  preserves proj body -> (forall e, preserves proj (handler e)) ->
  preserves proj (guarded body handler).
Proof.
  intros Hb Hh c. unfold guarded.
  specialize (Hb c). destruct (body c) as [c1 [a|e|]]; cbn in *; try assumption.
  destruct (is_Exception e); cbn; try assumption.
  rewrite Hh. assumption.
Qed.

Lemma preserves_observe observer n :
  (forall l c, proj (set_notified l c) = proj c) -> preserves proj (observe observer n).
Proof.
  intros Hn. unfold observe. destruct observer as [[e|]|].
  - apply preserves_bind; [apply preserves_update; intros c; apply Hn|].
    intros _. apply preserves_fail.
  - apply preserves_bind; [apply preserves_update; intros c; apply Hn|].
    intros _. apply preserves_ret.
  - apply preserves_ret.
Qed.
End Preserves.

Ltac preserves_step :=
  first
    [ apply preserves_ret | apply preserves_fail | apply preserves_read
    | apply preserves_within; intros ? ?; reflexivity
    | apply preserves_observe; intros ? ?; reflexivity
    | apply preserves_bind; [|intros ?]
    | apply preserves_guarded; [|intros ?]
    | apply preserves_update; intros ?; reflexivity
    | match goal with
      | |- preserves _ (if ?b then _ else _) => destruct b
      | |- preserves _ (match ?x with _ => _ end) => destruct x
      end ].

Lemma connect_keeps_stop_event : preserves _stop_event connect.
Proof. unfold connect. repeat preserves_step. Qed.

Lemma disconnect_sets_stop_event has_closed c :
  _stop_event (fst (disconnect has_closed c)) = true.
Proof.
  unfold disconnect.
  erewrite L_bind_returned by reflexivity.
  erewrite L_bind_returned by reflexivity.
  erewrite L_bind_returned by reflexivity.
  match goal with
  | |- _stop_event (fst (?m ?c0)) = _ =>
      assert (H : preserves _stop_event m) by repeat preserves_step;
      rewrite (H c0)
  end.
  reflexivity.
Qed.

Lemma heartbeat_stopped rounds c :
  _stop_event c = true -> _heartbeat rounds c = (c, Returned tt).
Proof.
  intros Hs. destruct c. simpl_client. subst.
  destruct rounds; cbn [_heartbeat];
    (erewrite L_bind_returned by reflexivity);
    (erewrite L_bind_returned by reflexivity);
    simpl_client; rewrite andb_false_r; reflexivity.
Qed.

(** X24.  The heartbeat does not come back.  [disconnect] sets the stop
    event and nothing clears it: on a client that has been disconnected
    once and is connected again, the event is still set, and the heartbeat
    that [connect] starts ends at its first check, without a ping. *)
Theorem heartbeat_ends_for_good has_closed c rounds :
  _stop_event (fst (connect (fst (disconnect has_closed c)))) = true
  /\ _heartbeat rounds (fst (connect (fst (disconnect has_closed c))))
     = (fst (connect (fst (disconnect has_closed c))), Returned tt).
Proof.
  assert (H : _stop_event (fst (connect (fst (disconnect has_closed c)))) = true).
  { rewrite connect_keeps_stop_event. apply disconnect_sets_stop_event. }
  split; [exact H|]. apply heartbeat_stopped, H.
Qed.

Ltac lstep :=
  match goal with
  | |- context [ (?m ≫= ?k) ?c ] =>
      erewrite (L_bind_returned m k c) by reflexivity; cbv beta; simpl_client
  end.

Lemma guarded_returned {A} (body : L A) handler c c1 a :
  body c = (c1, Returned a) -> guarded body handler c = (c1, Returned a).
Proof. intros H. unfold guarded. rewrite H. reflexivity. Qed.

Lemma guarded_raised {A} (body : L A) handler c c1 e :
  body c = (c1, Raised e) -> is_Exception e = true ->
  guarded body handler c = handler e c1.
Proof. intros H He. unfold guarded. rewrite H, He. reflexivity. Qed.

Lemma observe_quiet observer n c :
  quiet observer ->
  observe observer n c = (set_notified (notified c ++ notice_of observer n) c, Returned tt).
Proof.
  intros [-> | ->]; unfold observe; cbn.
  - rewrite app_nil_r. destruct c; reflexivity.
  - reflexivity.
Qed.

Lemma send_config_run w turn rest :
  ws_open w = true -> script w = turn :: rest ->
  _send_config w =
    (foldl happen
       (set_script rest (set_ws_sent (ws_sent w ++ [config_frame (config w) (clock w)]) w))
       turn,
     Returned tt).
Proof.
  intros Ho Hs. unfold _send_config, timestamp. repeat mstep.
  apply ws_send_open; assumption.
Qed.

(** The run of [connect] up to the call of [on_connected], when the
    connection is made. *)
Lemma connect_dialled c t1 t2 rest (then_ : L bool) :
  dial c = None ->
  script (self c) = t1 :: t2 :: rest ->
  (address ← within (gets (fun w => url (config w)));
   within (log INFO [Txt "Connecting to ProxyHawk at "; Val (JStr address)] None);;
   within yield;;
   d ← read dial;
   match d with
   | Some e => fail e
   | None => update (set_ws true);; within (modify (set_ws_open true))
   end;;
   within (modify (set_connected true));;
   within (modify (set_receiving true));;
   within _send_config;;
   update (set_heartbeat_task (Some Running));;
   then_) c
  = then_ (set_heartbeat_task (Some Running)
             (set_ws true (set_self (after_connect c t1 t2 rest) c))).
Proof.
  intros Hd Hs. unfold after_connect. cbv zeta. do 2 lstep.
  erewrite L_bind_returned
    by (apply within_run, (yield_turn _ t1 (t2 :: rest)); simpl_client; exact Hs).
  simpl_client. lstep. rewrite Hd. do 3 lstep.
  erewrite L_bind_returned.
  2:{ apply within_run. simpl_client.
      apply (send_config_run _ t2 rest); [reflexivity|].
      simpl_world. rewrite (turn_steady script). reflexivity. }
  simpl_client. lstep. reflexivity.
Qed.

(** What [connect] does once its [try] has raised [e]. *)
Lemma connect_failed c e :
  error_observer_returns c e ->
  (within (log ERROR [Txt "Failed to connect to ProxyHawk: "] (Some e));;
   within (modify (set_connected false));;
   oe ← read on_error;
   match oe with
   | Some observer =>
       update (fun c => set_notified (notified c ++ [NotifyError e]) c);;
       match observer e with
       | Some e' => fail e'
       | None => mret tt
       end
   | None => mret tt
   end;;
   mret false) c
  = (set_notified (notified c ++ error_notice c e)
       (set_self
          (set_connected false
             (set_logged
                (logged (self c)
                 ++ [mkLog ERROR [Txt "Failed to connect to ProxyHawk: "] (Some e)])
                (self c))) c),
     Returned false).
Proof.
  unfold error_observer_returns, error_notice. intros H.
  destruct c as [w has_ws rt ht stop oc od oe d n]. simpl_client.
  do 3 lstep. destruct oe as [observer|].
  - rewrite H. reflexivity.
  - rewrite app_nil_r. reflexivity.
Qed.

Lemma after_connect_sent c t1 t2 rest :
  exists now,
    ws_sent (after_connect c t1 t2 rest)
    = ws_sent (self c) ++ [config_frame (config (self c)) now].
Proof.
  unfold after_connect. cbv zeta. eexists.
  rewrite (turn_steady ws_sent). simpl_world.
  rewrite (turn_steady config), (turn_steady ws_sent). reflexivity.
Qed.

Lemma after_connect_script c t1 t2 rest : script (after_connect c t1 t2 rest) = rest.
Proof. unfold after_connect. cbv zeta. rewrite (turn_steady script). reflexivity. Qed.

Lemma after_connect_up c t1 t2 rest :
  tame_listeners (self c) -> Forall (fun ev => ev <> Closed) t2 ->
  receiving (after_connect c t1 t2 rest) = true
  /\ connected (after_connect c t1 t2 rest) = true
  /\ ws_open (after_connect c t1 t2 rest) = true.
Proof.
  intros Ht Hall. unfold after_connect. cbv zeta.
  match goal with
  | |- receiving (foldl happen ?w ?t) = _ /\ _ =>
      destruct (turn_survives t w) as (Hr & Hc & Ho); [|exact Hall|]
  end.
  - eapply tame_listeners_steady; [| |exact Ht].
    + simpl_world. rewrite (turn_steady _subscriptions). reflexivity.
    + simpl_world. rewrite (turn_steady _global_update_callback). reflexivity.
  - rewrite Hr, Hc, Ho. repeat split.
Qed.

Lemma connect_quiet_run c t1 t2 rest :
  dial c = None -> script (self c) = t1 :: t2 :: rest ->
  quiet (on_connected c) ->
  connect c =
    (set_self
       (set_logged
          (logged (after_connect c t1 t2 rest)
           ++ [mkLog INFO [Txt "Connected to ProxyHawk successfully"] None])
          (after_connect c t1 t2 rest))
       (set_notified (notified c ++ notice_of (on_connected c) NotifyConnected)
          (set_heartbeat_task (Some Running) (set_ws true c))),
     Returned true).
Proof.
  intros Hd Hs Hq. unfold connect. apply guarded_returned.
  rewrite (connect_dialled c t1 t2 rest _ Hd Hs).
  lstep. erewrite L_bind_returned by (apply observe_quiet; exact Hq).
  simpl_client. lstep. reflexivity.
Qed.

Lemma connect_observer_run c t1 t2 rest e :
  dial c = None -> script (self c) = t1 :: t2 :: rest ->
  on_connected c = Some (Some e) -> is_Exception e = true ->
  error_observer_returns c e ->
  connect c =
    (set_self
       (set_connected false
          (set_logged
             (logged (after_connect c t1 t2 rest)
              ++ [mkLog ERROR [Txt "Failed to connect to ProxyHawk: "] (Some e)])
             (after_connect c t1 t2 rest)))
       (set_notified (notified c ++ [NotifyConnected] ++ error_notice c e)
          (set_heartbeat_task (Some Running) (set_ws true c))),
     Returned false).
Proof.
  intros Hd Hs Hoc He Herr. unfold connect.
  erewrite guarded_raised; [| |exact He].
  2:{ rewrite (connect_dialled c t1 t2 rest _ Hd Hs).
      lstep. rewrite Hoc. unfold observe. apply L_bind_raised. lstep. reflexivity. }
  rewrite connect_failed by exact Herr.
  unfold error_notice. simpl_client. rewrite <- app_assoc. reflexivity.
Qed.

(** X25.  Connecting.  When the connection is made and [on_connected], if
    it is set, returns, [connect] returns true after two turns, the one in
    which the connection is opened and the one in which the configuration
    is sent: the client holds a transport and a heartbeat task, the
    observer has been called, and one frame has been sent, a [set_config]
    with the regions and the mode of the configuration and without an id.
    If the connection is not lost while the configuration is sent, the
    client is connected, its receive loop running. *)
Theorem connect_succeeds c t1 t2 rest :
  dial c = None -> quiet (on_connected c) ->
  script (self c) = t1 :: t2 :: rest ->
  snd (connect c) = Returned true
  /\ ws (fst (connect c)) = true
  /\ _heartbeat_task (fst (connect c)) = Some Running
  /\ notified (fst (connect c)) = notified c ++ notice_of (on_connected c) NotifyConnected
  /\ (exists now,
        ws_sent (self (fst (connect c)))
        = ws_sent (self c) ++ [config_frame (config (self c)) now])
  /\ script (self (fst (connect c))) = rest
  /\ (tame_listeners (self c) -> Forall (fun ev => ev <> Closed) t2 ->
      connected (self (fst (connect c))) = true
      /\ receiving (self (fst (connect c))) = true
      /\ ws_open (self (fst (connect c))) = true).
Proof.
  intros Hd Hq Hs. rewrite (connect_quiet_run c t1 t2 rest Hd Hs Hq). simpl_client.
  simpl_world.
  split; [reflexivity|]. split; [reflexivity|]. split; [reflexivity|].
  split; [reflexivity|]. split; [apply after_connect_sent|].
  split; [apply after_connect_script|].
  intros Ht Hall. destruct (after_connect_up c t1 t2 rest Ht Hall) as (Hr & Hc & Ho).
  auto.
Qed.

(** A client that has just been made connects; a greeting arrives while the
    configuration is sent. *)
Lemma connect_succeeds_witness :
  snd (connect (fresh [[]; [Frame (JObj [("type", JStr "welcome")])]])) = Returned true
  /\ ws (fst (connect (fresh [[]; [Frame (JObj [("type", JStr "welcome")])]]))) = true
  /\ _heartbeat_task (fst (connect (fresh [[]; [Frame (JObj [("type", JStr "welcome")])]])))
     = Some Running.
Proof.
  destruct (connect_succeeds (fresh [[]; [Frame (JObj [("type", JStr "welcome")])]])
              [] [Frame (JObj [("type", JStr "welcome")])] [] eq_refl (or_introl eq_refl)
              eq_refl)
    as (H1 & H2 & H3 & _).
  exact (conj H1 (conj H2 H3)).
Defined.

(** X26.  A connection that cannot be made.  When [websockets.connect]
    raises an [Exception], [connect] does not raise: it logs the failure,
    calls [on_error] with the exception if the observer is set, and
    returns false.  The client is not connected, holds the transport and
    the tasks it held before, and has sent nothing. *)
Theorem connect_reports_failure c e t1 rest :
  dial c = Some e -> is_Exception e = true -> error_observer_returns c e ->
  script (self c) = t1 :: rest ->
  snd (connect c) = Returned false
  /\ connected (self (fst (connect c))) = false
  /\ ws (fst (connect c)) = ws c
  /\ _heartbeat_task (fst (connect c)) = _heartbeat_task c
  /\ ws_sent (self (fst (connect c))) = ws_sent (self c)
  /\ last (logged (self (fst (connect c))))
     = Some (mkLog ERROR [Txt "Failed to connect to ProxyHawk: "] (Some e))
  /\ notified (fst (connect c)) = notified c ++ error_notice c e.
Proof.
  intros Hd He Herr Hs. unfold connect.
  erewrite guarded_raised; [| |exact He].
  2:{ do 2 lstep.
      erewrite L_bind_returned
        by (apply within_run, (yield_turn _ t1 rest); simpl_client; exact Hs).
      simpl_client. lstep. rewrite Hd. reflexivity. }
  rewrite connect_failed by exact Herr. simpl_client. simpl_world.
  repeat split; try reflexivity.
  - rewrite (turn_steady ws_sent). reflexivity.
  - apply last_snoc.
Qed.

(** The server cannot be reached; no observer is set. *)
Lemma connect_reports_failure_witness :
  snd (connect (mkClient (self (fresh [[]])) false None None false None None None
                  (Some ConnectionClosed) []))
  = Returned false
  /\ connected (self (fst (connect (mkClient (self (fresh [[]])) false None None false
                                      None None None (Some ConnectionClosed) []))))
     = false.
Proof.
  destruct (connect_reports_failure
              (mkClient (self (fresh [[]])) false None None false None None None
                 (Some ConnectionClosed) [])
              ConnectionClosed [] [] eq_refl eq_refl I eq_refl)
    as (H1 & H2 & _).
  exact (conj H1 H2).
Defined.

(** X27.  An observer that fails.  When the connection is made and
    [on_connected] raises an [Exception], [connect] returns false and
    marks the client as not connected; but nothing that was started is
    taken back: the client holds the transport and the heartbeat task,
    the configuration has been sent, and, the connection not being lost,
    the transport is open and the receive loop running. *)
Theorem failed_observer_leaves_connection_up c e t1 t2 rest :
  dial c = None -> on_connected c = Some (Some e) -> is_Exception e = true ->
  error_observer_returns c e ->
  script (self c) = t1 :: t2 :: rest ->
  snd (connect c) = Returned false
  /\ connected (self (fst (connect c))) = false
  /\ ws (fst (connect c)) = true
  /\ _heartbeat_task (fst (connect c)) = Some Running
  /\ (exists now,
        ws_sent (self (fst (connect c)))
        = ws_sent (self c) ++ [config_frame (config (self c)) now])
  /\ (tame_listeners (self c) -> Forall (fun ev => ev <> Closed) t2 ->
      receiving (self (fst (connect c))) = true
      /\ ws_open (self (fst (connect c))) = true).
Proof.
  intros Hd Hoc He Herr Hs.
  rewrite (connect_observer_run c t1 t2 rest e Hd Hs Hoc He Herr). simpl_client.
  simpl_world.
  split; [reflexivity|]. split; [reflexivity|]. split; [reflexivity|].
  split; [reflexivity|]. split; [apply after_connect_sent|].
  intros Ht Hall. destruct (after_connect_up c t1 t2 rest Ht Hall) as (Hr & Hc & Ho).
  auto.
Qed.

(** A client whose [on_connected] raises. *)
Lemma failed_observer_leaves_connection_up_witness :
  snd (connect (with_failing_observer [[]; []])) = Returned false
  /\ connected (self (fst (connect (with_failing_observer [[]; []])))) = false
  /\ ws (fst (connect (with_failing_observer [[]; []]))) = true
  /\ _heartbeat_task (fst (connect (with_failing_observer [[]; []]))) = Some Running.
Proof.
  destruct (failed_observer_leaves_connection_up (with_failing_observer [[]; []])
              (UserError "observer failed") [] [] [] eq_refl eq_refl eq_refl I eq_refl)
    as (H1 & H2 & H3 & H4 & _).
  exact (conj H1 (conj H2 (conj H3 H4))).
Defined.

Lemma observe_run observer n c :
  observe observer n c =
    (set_notified (notified c ++ notice_of observer n) c,
     match observer with
     | Some (Some e) => Raised e
     | _ => Returned tt
     end).
Proof.
  destruct observer as [[e|]|]; unfold observe; cbn; try reflexivity.
  rewrite app_nil_r. destruct c; reflexivity.
Qed.

Lemma turn_stays_disconnected turn : forall w,
  connected w = false -> connected (foldl happen w turn) = false.
Proof.
  induction turn as [|ev turn IH]; intros w Hc; [exact Hc|].
  cbn [foldl]. apply IH.
  destruct ev as [ms|data| |]; cbn [happen]; unfold _message_receiver; simpl_world.
  - exact Hc.
  - destruct (receiving w); [|exact Hc].
    pose proof (handle_message_keeps_flags data w) as H.
    destruct (_handle_message data w) as [w1 [[]|e|]]; cbn in H; injection H as _ H _;
      try congruence.
    destruct (is_Exception e); unfold log; cbn; congruence.
  - destruct (receiving w); unfold log; cbn; assumption.
  - destruct (receiving w); [reflexivity|exact Hc].
Qed.

(** The run of [disconnect]: what it does before it looks at the
    transport, the turn that closing takes, the call of the observer. *)
Lemma disconnect_run has_closed c :
  let w0 := set_connected false
              (set_logged
                 (logged (self c) ++ [mkLog INFO [Txt "Disconnecting from ProxyHawk"] None])
                 (self c)) in
  let c0 := set_reconnect_task (cancel_task (_reconnect_task c))
              (set_heartbeat_task (cancel_task (_heartbeat_task c))
                 (set_stop_event true (set_self w0 c))) in
  disconnect has_closed c =
    if ws c then
      if has_closed then
        if ws_open (self c) then
          match script (self c) with
          | [] => (c0, Suspended)
          | turn :: rest =>
              observe (on_disconnected c) NotifyDisconnected
                (set_self (set_ws_open false (foldl happen (set_script rest w0) turn)) c0)
          end
        else observe (on_disconnected c) NotifyDisconnected c0
      else (c0, Raised AttributeError)
    else observe (on_disconnected c) NotifyDisconnected c0.
Proof.
  destruct c as [w has_ws rt ht stop oc od oe d n]. cbv zeta. simpl_client.
  unfold disconnect. do 6 lstep. simpl_world.
  destruct has_ws; cbv iota; [destruct has_closed; cbv iota|].
  - rewrite L_bind_assoc. lstep. simpl_world. destruct (ws_open w); cbv iota.
    + destruct (script w) as [|turn rest] eqn:Hs.
      * etransitivity; [|reflexivity].
        apply L_bind_suspended.
        etransitivity; [apply within_run; simpl_client;
                        apply bind_suspended, yield_idle; exact Hs|].
        reflexivity.
      * erewrite L_bind_returned.
        2:{ apply within_run. simpl_client.
            erewrite bind_returned by (apply (yield_turn _ turn rest); exact Hs).
            reflexivity. }
        simpl_client. lstep. reflexivity.
    + do 2 lstep. reflexivity.
  - reflexivity.
  - do 2 lstep. reflexivity.
Qed.

(** X28.  Disconnecting.  Whatever state the client is in, connected or
    never connected, and whatever arrives while the transport closes,
    [disconnect] leaves the client marked as not connected, with the stop
    event set and the heartbeat task, if there is one, asked to cancel.
    It does not touch the requests that are under way: the table of
    handles and the table of subscriptions are as they were, and no future
    is cancelled or failed, so that a request that waits goes on waiting
    until its own timeout.  What follows depends on the connection the
    client holds.  When it holds none, or one that has the attribute
    [closed], as the connections of the legacy implementation of
    websockets have: unless the call is still closing the transport, the
    transport is closed and [on_disconnected], if it is set, has been
    called, on a client that was never connected too.  When it holds one
    that has no attribute [closed], as the connections have that
    [websockets.connect] gives from version 14 on: the call raises
    [AttributeError], the transport is left as it was and [on_disconnected]
    is not called. *)
Theorem disconnect_leaves_requests_waiting has_closed c :
  connected (self (fst (disconnect has_closed c))) = false
  /\ _stop_event (fst (disconnect has_closed c)) = true
  /\ _heartbeat_task (fst (disconnect has_closed c)) = cancel_task (_heartbeat_task c)
  /\ _message_handlers (self (fst (disconnect has_closed c))) = _message_handlers (self c)
  /\ _subscriptions (self (fst (disconnect has_closed c))) = _subscriptions (self c)
  /\ settles (futures (self c)) (futures (self (fst (disconnect has_closed c))))
  /\ (ws c = false \/ has_closed = true ->
      snd (disconnect has_closed c) <> Suspended ->
      (ws c = true -> ws_open (self (fst (disconnect has_closed c))) = false)
      /\ notified (fst (disconnect has_closed c))
         = notified c ++ notice_of (on_disconnected c) NotifyDisconnected)
  /\ (ws c = true -> has_closed = false ->
      snd (disconnect has_closed c) = Raised AttributeError
      /\ ws_open (self (fst (disconnect has_closed c))) = ws_open (self c)
      /\ notified (fst (disconnect has_closed c)) = notified c).
Proof.
  rewrite disconnect_run. cbv zeta.
  destruct (ws c) eqn:Hws;
    [destruct has_closed;
       [destruct (ws_open (self c)) eqn:Ho;
          [destruct (script (self c)) as [|turn rest]|]|]|];
    rewrite ?observe_run; simpl_client; simpl_world.
  - split; [reflexivity|]. split; [reflexivity|]. split; [reflexivity|].
    split; [reflexivity|]. split; [reflexivity|]. split; [apply settles_refl|].
    split; [congruence|discriminate].
  - split; [apply turn_stays_disconnected; reflexivity|].
    split; [reflexivity|]. split; [reflexivity|].
    split; [rewrite (turn_steady _message_handlers); reflexivity|].
    split; [rewrite (turn_steady _subscriptions); reflexivity|].
    split.
    + match goal with
      | |- settles _ (futures (foldl happen ?w ?t)) => apply (turn_settles t w)
      end.
    + split; [|discriminate]. intros _ _. split; reflexivity.
  - split; [reflexivity|]. split; [reflexivity|]. split; [reflexivity|].
    split; [reflexivity|]. split; [reflexivity|]. split; [apply settles_refl|].
    split; [|discriminate]. intros _ _. split; [|reflexivity]. intros _. exact Ho.
  - split; [reflexivity|]. split; [reflexivity|]. split; [reflexivity|].
    split; [reflexivity|]. split; [reflexivity|]. split; [apply settles_refl|].
    split.
    + intros [H|H]; discriminate.
    + intros _ _. split; [reflexivity|]. split; reflexivity.
  - split; [reflexivity|]. split; [reflexivity|]. split; [reflexivity|].
    split; [reflexivity|]. split; [reflexivity|]. split; [apply settles_refl|].
    split; [|discriminate]. intros _ _. split; [discriminate|reflexivity].
Qed.

(** ** The heartbeat *)

(** Over a turn in which only time passes the clock moves and nothing
    else. *)
Lemma idle_turn turn :
  idle turn -> exists dt, forall w, foldl happen w turn = set_clock (clock w + dt) w.
Proof.
  induction 1 as [|ev turn [ms Hev] _ [dt IH]]; [|subst ev].
  - exists 0%Z. intros w. cbn. rewrite Z.add_0_r. destruct w; reflexivity.
  - exists (ms + dt)%Z. intros w. cbn [foldl happen]. rewrite IH.
    destruct w; cbn. rewrite Z.add_assoc. reflexivity.
Qed.

(** One round of the heartbeat with nothing arriving: a ping is sent under
    the id that is drawn next. *)
Lemma heartbeat_round c rounds t1 t2 rest :
  connected (self c) = true -> _stop_event c = false -> ws_open (self c) = true ->
  script (self c) = t1 :: t2 :: rest -> idle t1 -> idle t2 ->
  exists w1 ping,
    _heartbeat (S rounds) c = _heartbeat rounds (set_self w1 c)
    /\ connected w1 = true /\ ws_open w1 = true /\ script w1 = rest
    /\ ws_sent w1 = ws_sent (self c) ++ [ping]
    /\ ping_at (_message_counter (self c) + 1) ping
    /\ _message_counter w1 = (_message_counter (self c) + 1)%Z
    /\ _message_handlers w1 = _message_handlers (self c).
Proof.
  intros Hc Hstop Ho Hs Hi1 Hi2.
  destruct (idle_turn t1 Hi1) as [dt1 Ht1]. destruct (idle_turn t2 Hi2) as [dt2 Ht2].
  destruct c as [w has_ws rt ht stop oc od oe d n]. simpl_client. subst stop.
  eexists _, _. split.
  - cbn [_heartbeat]. do 2 lstep. rewrite Hc. cbn [andb negb].
    erewrite L_bind_returned.
    2:{ apply guarded_returned. erewrite L_bind_returned; [reflexivity|].
        apply within_run. simpl_client.
        erewrite bind_returned by (apply (yield_turn _ t1 (t2 :: rest)); exact Hs).
        rewrite Ht1. mstep. rewrite Hc. do 2 mstep.
        apply ws_send_open; simpl_world; [exact Ho|reflexivity]. }
    cbv iota. simpl_client. rewrite Ht2. reflexivity.
  - simpl_world. repeat split; try assumption. eexists _, _. reflexivity.
Qed.

Lemma heartbeat_waiting c rounds :
  connected (self c) = true -> _stop_event c = false -> script (self c) = [] ->
  _heartbeat (S rounds) c = (c, Suspended).
Proof.
  intros Hc Hstop Hs.
  destruct c as [w has_ws rt ht stop oc od oe d n]. simpl_client. subst stop.
  cbn [_heartbeat]. do 2 lstep. rewrite Hc. cbn [andb negb].
  apply L_bind_suspended. unfold guarded.
  erewrite L_bind_suspended; [reflexivity|].
  etransitivity; [apply within_run; simpl_client; apply bind_suspended, yield_idle; exact Hs|].
  destruct w; reflexivity.
Qed.

(** X29.  What the heartbeat sends.  With nothing arriving, while time
    passes, every round of the heartbeat of a connected client takes two
    turns, the sleep and the send, and sends one ping: a frame of type
    [ping] with an id and a timestamp.  The pings draw their ids from the
    counter the requests use, one after the other; no handle is registered
    for a ping, so that the table of handles is as it was and an answer
    that carries the id of a ping is one more unsolicited message. *)
Theorem heartbeat_pings c n rounds :
  connected (self c) = true -> _stop_event c = false -> ws_open (self c) = true ->
  Forall idle (script (self c)) -> length (script (self c)) = 2 * n ->
  2 * n < rounds ->
  snd (_heartbeat rounds c) = Suspended
  /\ (exists pings,
        ws_sent (self (fst (_heartbeat rounds c))) = ws_sent (self c) ++ pings
        /\ length pings = n
        /\ forall i ping,
             pings !! i = Some ping ->
             ping_at (_message_counter (self c) + 1 + Z.of_nat i) ping)
  /\ _message_counter (self (fst (_heartbeat rounds c)))
     = (_message_counter (self c) + Z.of_nat n)%Z
  /\ _message_handlers (self (fst (_heartbeat rounds c))) = _message_handlers (self c).
Proof.
  revert c rounds. induction n as [|n IH]; intros c rounds Hc Hstop Ho Hi Hlen Hlt.
  - destruct rounds as [|rounds]; [lia|].
    destruct (script (self c)) eqn:Hs; [|discriminate].
    rewrite heartbeat_waiting by assumption. cbn [fst snd].
    split; [reflexivity|]. split; [|split; [cbn; lia|reflexivity]].
    exists []. rewrite app_nil_r. split; [reflexivity|]. split; [reflexivity|].
    intros i ping H. discriminate.
  - destruct rounds as [|rounds]; [lia|].
    destruct (script (self c)) as [|t1 [|t2 rest]] eqn:Hs; cbn in Hlen; try lia.
    inversion Hi as [|? ? Hi1 Hi']; subst. inversion Hi' as [|? ? Hi2 Hrest]; subst.
    destruct (heartbeat_round c rounds t1 t2 rest Hc Hstop Ho Hs Hi1 Hi2)
      as (w1 & ping & Hrun & Hc1 & Ho1 & Hs1 & Hsent & Hping & Hcount & Hh).
    rewrite Hrun.
    destruct (IH (set_self w1 c) rounds) as (H1 & (pings & H2 & H3 & H4) & H5 & H6);
      simpl_client;
      [ exact Hc1 | exact Hstop | exact Ho1 | rewrite Hs1; exact Hrest
      | rewrite Hs1; lia | lia | ].
    split; [exact H1|]. split; [|split].
    + exists (ping :: pings). rewrite H2, Hsent, <- app_assoc.
      split; [reflexivity|]. split; [cbn; lia|].
      intros [|i] p Hp; cbn in Hp.
      * inversion Hp; subst. rewrite Z.add_0_r. exact Hping.
      * apply H4 in Hp. rewrite Hcount in Hp.
        replace (_message_counter (self c) + 1 + Z.of_nat (S i))%Z
          with (_message_counter (self c) + 1 + 1 + Z.of_nat i)%Z by lia.
        exact Hp.
    + rewrite H5, Hcount. lia.
    + rewrite H6. exact Hh.
Qed.

(** Two rounds on a client that has just connected, thirty seconds passing
    in each sleep. *)
Lemma heartbeat_pings_witness :
  snd (_heartbeat 5 (beating [[Tick 30000]; []; [Tick 30000]; []])) = Suspended
  /\ (exists pings,
        ws_sent (self (fst (_heartbeat 5 (beating [[Tick 30000]; []; [Tick 30000]; []]))))
        = [] ++ pings
        /\ length pings = 2
        /\ forall i ping, pings !! i = Some ping -> ping_at (0 + 1 + Z.of_nat i) ping)
  /\ _message_counter (self (fst (_heartbeat 5 (beating [[Tick 30000]; []; [Tick 30000]; []]))))
     = 2%Z
  /\ _message_handlers (self (fst (_heartbeat 5 (beating [[Tick 30000]; []; [Tick 30000]; []]))))
     = ∅.
Proof.
  apply (heartbeat_pings (beating [[Tick 30000]; []; [Tick 30000]; []]) 2 5);
    try reflexivity.
  - repeat (constructor; [repeat (constructor; [eexists; reflexivity|]); constructor|]).
    constructor.
  - lia.
Defined.

(** X30.  How the heartbeat ends.  When the sleep is over and the client
    is still marked as connected while its transport is closed, the ping
    is refused and the heartbeat does not raise: the failure is logged as
    a warning and the loop is left, the client still marked as connected
    and the id drawn for the ping spent.  When the sleep is over and the
    client is no longer marked as connected, as it is once the receive loop
    has met [ConnectionClosed], no ping is sent and the loop is left at
    its next check: the heartbeat leaves the client as the sleep left it,
    without a word of its own in the log. *)
Theorem heartbeat_ends_quietly c rounds turn rest :
  connected (self c) = true -> _stop_event c = false ->
  script (self c) = turn :: rest ->
  (connected (passed turn rest (self c)) = true ->
   ws_open (passed turn rest (self c)) = false ->
   snd (_heartbeat (S rounds) c) = Returned tt
   /\ connected (self (fst (_heartbeat (S rounds) c))) = true
   /\ ws_sent (self (fst (_heartbeat (S rounds) c))) = ws_sent (self c)
   /\ _message_counter (self (fst (_heartbeat (S rounds) c)))
      = (_message_counter (self c) + 1)%Z
   /\ logged (self (fst (_heartbeat (S rounds) c)))
      = logged (passed turn rest (self c))
        ++ [mkLog WARNING [Txt "Heartbeat error: "] (Some ConnectionClosed)])
  /\ (connected (passed turn rest (self c)) = false ->
      _heartbeat (S rounds) c = (set_self (passed turn rest (self c)) c, Returned tt)).
Proof.
  intros Hc Hstop Hs.
  destruct c as [w has_ws rt ht stop oc od oe d n]. simpl_client. subst stop.
  unfold passed. split.
  - intros Hc1 Ho1. cbn [_heartbeat]. do 2 lstep. rewrite Hc. cbn [andb negb].
    erewrite L_bind_returned.
    2:{ erewrite (guarded_raised _ _ _ _ ConnectionClosed); [| |reflexivity].
        2:{ apply L_bind_raised. apply within_run. simpl_client.
            erewrite bind_returned by (apply (yield_turn _ turn rest); exact Hs).
            mstep. rewrite Hc1. do 2 mstep.
            apply ws_send_closed. exact Ho1. }
        lstep. reflexivity. }
    cbv iota. unfold mret, L_ret. simpl_client. simpl_world.
    split; [reflexivity|]. split; [exact Hc1|].
    split; [rewrite (turn_steady ws_sent); reflexivity|].
    split; [rewrite (turn_steady _message_counter); reflexivity|reflexivity].
  - intros Hc1. cbn [_heartbeat]. do 2 lstep. rewrite Hc. cbn [andb negb].
    erewrite L_bind_returned.
    2:{ apply guarded_returned. erewrite L_bind_returned; [reflexivity|].
        apply within_run. simpl_client.
        erewrite bind_returned by (apply (yield_turn _ turn rest); exact Hs).
        mstep. rewrite Hc1. reflexivity. }
    cbv iota. simpl_client.
    destruct rounds; cbn [_heartbeat]; do 2 lstep; rewrite Hc1;
      cbn [andb]; reflexivity.
Qed.

(** The transport of a client that counts as connected is closed when the
    sleep is over; the connection of a client is lost during the sleep, and
    its receive loop marks it. *)
Lemma heartbeat_ends_quietly_witness :
  (snd (_heartbeat 1 (set_self (set_ws_open false (session [[]])) (beating []))) = Returned tt
   /\ connected (self (fst (_heartbeat 1 (set_self (set_ws_open false (session [[]]))
                                            (beating [])))))
      = true)
  /\ _heartbeat 1 (beating [[Closed]])
     = (set_self (passed [Closed] [] (session [[Closed]])) (beating [[Closed]]), Returned tt).
Proof.
  split.
  - destruct (proj1 (heartbeat_ends_quietly
                       (set_self (set_ws_open false (session [[]])) (beating []))
                       0 [] [] eq_refl eq_refl eq_refl) eq_refl eq_refl)
      as (H1 & H2 & _).
    exact (conj H1 H2).
  - apply (proj2 (heartbeat_ends_quietly (beating [[Closed]]) 0 [Closed] []
                    eq_refl eq_refl eq_refl)).
    reflexivity.
Defined.
